(** * GreenFin dashboard: divestment simulation and derived metrics

    A shallow embedding of [src/reports/GreenFinDashboard.jsx]:
    the event handler [handleSimulateDivestment] of the
    [DivestmentSimulator] component, the [calculatedMetrics]
    projection, the chart data and the state of the [App] component.

    JavaScript numbers are kept behind a small interface, [JSNumber],
    whose instance is IEEE 754 binary64 ([float], the primitive floats
    of the kernel), which is what a JavaScript engine computes.  The
    statements that only need the order of the numbers are made over
    the interface and its laws; the statements on rounding are made on
    [float], with the exact rational value of a float as the measure.

    The component state, the Firestore document and the clock are
    threaded explicitly through a [World].

    The first part holds the definitions: the numbers, [parseFloat],
    the data model, the handler, the metrics, the rest of the
    dashboard and the vocabulary of the statements.  The second part
    holds the properties. *)

From Stdlib Require Import Lqa.
From Stdlib Require Import DecimalString DecimalN DecimalPos Qpower Qabs.
From Stdlib Require Import ZArith NArith QArith Qfield Bool List String Ascii Lia.
From Stdlib Require Import Floats.
Import ListNotations.

Open Scope string_scope.
Open Scope Z_scope.

(** ** JavaScript numbers *)

(** The operations of the Number type that the dashboard uses.
    [of_decimal neg m e] is the Number value of the decimal literal
    with sign [neg], digits [m] and decimal exponent [e];
    [ltb a b] is [a < b] and [leb a b] is [a <= b] (both false as soon
    as an operand is NaN), so that [a > b] reads [ltb b a]. *)
Class JSNumber (num : Type) : Type := {
  NaN : num;
  Infinity : bool -> num;
  of_decimal : bool -> N -> Z -> num;
  add : num -> num -> num;
  sub : num -> num -> num;
  mul : num -> num -> num;
  div : num -> num -> num;
  isNaN : num -> bool;
  ltb : num -> num -> bool;
  leb : num -> num -> bool;
  Math_max : num -> num -> num;
  Math_min : num -> num -> num
}.

Definition zero {num : Type} `{JSNumber num} : num := of_decimal false 0 0.
Definition hundred {num : Type} `{JSNumber num} : num := of_decimal false 100 0.

(** The order facts the validation of the handler relies on. *)
Class JSNumberLaws (num : Type) `{JSNumber num} : Prop := {
  pos_not_NaN : forall a, ltb zero a = true -> isNaN a = false;
  pos_not_le0 : forall a, ltb zero a = true -> leb a zero = false;
  le_not_gt : forall a b, leb a b = true -> ltb b a = false;
  nonneg_lt_pos : forall a b, leb zero a = true -> ltb a b = true -> ltb zero b = true;
  min_100_0 : Math_min hundred zero = zero
}.

(** ** [parseFloat]

    The longest prefix of the trimmed input that is a
    [StrDecimalLiteral] (ECMA-262, 19.2.4); NaN when there is none.
    A string is the sequence of the bytes of its UTF-8 encoding. *)

Inductive StrDecimalLiteral : Type :=
| SD_Infinity
| SD_Decimal (digits : N) (exponent : Z).

(** The characters of [StrWhiteSpaceChar] that take one byte: TAB, LF,
    VT, FF, CR and SP. *)
Definition isWhiteSpace (c : ascii) : bool :=
  let n := nat_of_ascii c in
  ((9 <=? n) && (n <=? 13))%nat || (n =? 32)%nat.

Definition byteIs (c : ascii) (n : N) : bool := (N_of_ascii c =? n)%N.

(** The last byte of U+2000 to U+200A, U+2028, U+2029 and U+202F,
    which all begin with E2 80. *)
Definition isSpaceE280 (c : ascii) : bool :=
  let n := N_of_ascii c in
  ((128 <=? n) && (n <=? 138) || (n =? 168) || (n =? 169) || (n =? 175))%N.

(** The other characters of [StrWhiteSpaceChar] take two or three
    bytes: U+00A0, U+1680, U+2000 to U+200A, U+2028, U+2029, U+202F,
    U+205F, U+3000 and U+FEFF. *)
Fixpoint trimStart (s : string) : string :=
  match s with
  | String c rest =>
      if isWhiteSpace c then trimStart rest
      else
        match rest with
        | String c2 rest2 =>
            if byteIs c 194 && byteIs c2 160 then trimStart rest2
            else
              match rest2 with
              | String c3 rest3 =>
                  if byteIs c 225 && byteIs c2 154 && byteIs c3 128
                     || byteIs c 226 && byteIs c2 128 && isSpaceE280 c3
                     || byteIs c 226 && byteIs c2 129 && byteIs c3 159
                     || byteIs c 227 && byteIs c2 128 && byteIs c3 128
                     || byteIs c 239 && byteIs c2 187 && byteIs c3 191
                  then trimStart rest3
                  else s
              | EmptyString => s
              end
        | EmptyString => s
        end
  | EmptyString => s
  end.

Definition digitValue (c : ascii) : option N :=
  let n := N_of_ascii c in
  if ((48 <=? n) && (n <=? 57))%N then Some (n - 48)%N else None.

(** Reads a maximal run of decimal digits: the digits appended to
    [acc], how many were read, and the rest of the input. *)
Fixpoint readDigits (s : string) (acc : N) (read : nat) : N * nat * string :=
  match s with
  | String c rest =>
      match digitValue c with
      | Some d => readDigits rest (10 * acc + d)%N (S read)
      | None => (acc, read, s)
      end
  | EmptyString => (acc, read, s)
  end.

Definition readSign (s : string) : bool * string :=
  match s with
  | String "+" rest => (false, rest)
  | String "-" rest => (true, rest)
  | _ => (false, s)
  end.

(** [ExponentPart], optional: an indicator that is not followed by a
    signed integer is not part of the literal. *)
Definition readExponent (s : string) : Z :=
  match s with
  | String c rest =>
      if (Ascii.eqb c "e" || Ascii.eqb c "E")%bool then
        let (neg, rest') := readSign rest in
        let '(v, n, _) := readDigits rest' 0%N 0%nat in
        match n with
        | O => 0
        | S _ => if neg then - Z.of_N v else Z.of_N v
        end
      else 0
  | EmptyString => 0
  end.

Definition readUnsignedDecimal (s : string) : option StrDecimalLiteral :=
  if String.prefix "Infinity" s then Some SD_Infinity
  else
    let '(i, ni, r1) := readDigits s 0%N 0%nat in
    match r1 with
    | String "." r2 =>
        let '(m, nf, r3) := readDigits r2 i 0%nat in
        match (ni + nf)%nat with
        | O => None
        | S _ => Some (SD_Decimal m (readExponent r3 - Z.of_nat nf))
        end
    | _ =>
        match ni with
        | O => None
        | S _ => Some (SD_Decimal i (readExponent r1))
        end
    end.

Section Dashboard.

Context {num : Type} `{JSNumber num}.

(** A literal with [k] decimals, [dec 5205243 2] for [52052.43]. *)
Definition dec (m : Z) (k : nat) : num :=
  of_decimal (m <? 0) (Z.to_N (Z.abs m)) (- Z.of_nat k).

Definition parseFloat (s : string) : num :=
  let (neg, rest) := readSign (trimStart s) in
  match readUnsignedDecimal rest with
  | None => NaN
  | Some SD_Infinity => Infinity neg
  | Some (SD_Decimal m e) => of_decimal neg m e
  end.

(** ** Data model *)

(** An element of [riskData].  [count] is a number like the others;
    it is [None] when the field is absent. *)
Record RiskBucket : Type := {
  tier : string;
  exposure : num;
  percentage : num;
  color : string;
  count : option num
}.

Record LastAction : Type := {
  type : string;
  amount : num;
  timestamp : string;
  user : string
}.

(** The document [portfolio_summary]. *)
Record PortfolioSummary : Type := {
  totalExposure : num;
  initialTierDTarget : num;
  lastUpdated : string;
  riskData : list RiskBucket;
  lastAction : option LastAction
}.

(** [s.startsWith(p)] *)
Definition startsWith (s p : string) : bool := String.prefix p s.

(** ** Mock data and the seeded document *)

Definition MOCK_DATA : list RiskBucket :=
  [ {| tier := "A: Leader (Low Risk)"; exposure := dec 993322 2;
       percentage := dec 357 2; color := "#10B981"; count := Some (dec 34 0) |};
    {| tier := "B: Aligned (Moderate Risk)"; exposure := dec 8635451 2;
       percentage := dec 3105 2; color := "#3B82F6"; count := Some (dec 313 0) |};
    {| tier := "C: Watchlist (High Risk)"; exposure := dec 12981765 2;
       percentage := dec 4667 2; color := "#F59E0B"; count := Some (dec 459 0) |};
    {| tier := "D: Divestment (Very High Risk)"; exposure := dec 5205243 2;
       percentage := dec 1871 2; color := "#EF4444"; count := Some (dec 194 0) |} ].

Definition TOTAL_EXPOSURE : num := dec 27815781 2.
Definition TIER_D_TARGET_EXPOSURE : num := dec 5205243 2.

(** A number is falsy when it is NaN or a zero. *)
Definition truthy (v : num) : bool :=
  negb (isNaN v || (leb v zero && leb zero v)).

(** [c || other] on a count; an absent count is [undefined], which is
    falsy. *)
Definition orElse (c : option num) (other : num) : num :=
  match c with
  | Some v => if truthy v then v else other
  | None => other
  end.

(** [c || 0] *)
Definition orZero (c : option num) : num := orElse c zero.

(** [d.count || (d.tier.startsWith('A') ? 34 : ... : 194)] *)
Definition initialRiskData : list RiskBucket :=
  map (fun d =>
         {| tier := tier d; exposure := exposure d; percentage := percentage d;
            color := color d;
            count := Some (orElse (count d)
                             (if startsWith (tier d) "A" then dec 34 0
                              else if startsWith (tier d) "B" then dec 313 0
                              else if startsWith (tier d) "C" then dec 459 0
                              else dec 194 0)) |})
      MOCK_DATA.

(** The document written by [initializeData] at time [now]. *)
Definition initialDocument (now : string) : PortfolioSummary :=
  {| totalExposure := TOTAL_EXPOSURE;
     initialTierDTarget := TIER_D_TARGET_EXPOSURE;
     lastUpdated := now;
     riskData := initialRiskData;
     lastAction := None |}.

(** ** The world of the handler *)

(** The message shown by [setError]; the two numbers of the second
    message are the ones its template interpolates. *)
Inductive ErrorMessage : Type :=
| NoError
| InvalidAmount
| AmountExceedsExposure (amount ceiling : num)
| PersistenceFailure.

(** State of the [DivestmentSimulator] component. *)
Record SimulatorState : Type := {
  divestmentAmount : string;
  error : ErrorMessage;
  isUpdating : bool
}.

(** The document store behind [docRef]: [writes] lists the arguments
    of every [setDoc] call, [document] is what the store holds.
    [online] is false when [setDoc] rejects or [docRef] is null. *)
Record Firestore : Type := {
  online : bool;
  document : option PortfolioSummary;
  writes : list PortfolioSummary
}.

Record World : Type := {
  ui : SimulatorState;
  store : Firestore;
  clock : nat -> string;
  ticks : nat
}.

Definition setError (e : ErrorMessage) (w : World) : World :=
  {| ui := {| divestmentAmount := divestmentAmount (ui w); error := e;
              isUpdating := isUpdating (ui w) |};
     store := store w; clock := clock w; ticks := ticks w |}.

Definition setIsUpdating (b : bool) (w : World) : World :=
  {| ui := {| divestmentAmount := divestmentAmount (ui w); error := error (ui w);
              isUpdating := b |};
     store := store w; clock := clock w; ticks := ticks w |}.

Definition setDivestmentAmount (s : string) (w : World) : World :=
  {| ui := {| divestmentAmount := s; error := error (ui w);
              isUpdating := isUpdating (ui w) |};
     store := store w; clock := clock w; ticks := ticks w |}.

(** [new Date().toISOString()]: one reading of the clock. *)
Definition newDate (w : World) : string * World :=
  (clock w (ticks w),
   {| ui := ui w; store := store w; clock := clock w; ticks := S (ticks w) |}).

(** [await setDoc(docRef, data)] without merge: the whole document is
    replaced; [false] stands for the exception of a failed write. *)
Definition setDoc (data : PortfolioSummary) (w : World) : World * bool :=
  ({| ui := ui w;
      store := {| online := online (store w);
                  document := if online (store w) then Some data
                              else document (store w);
                  writes := writes (store w) ++ [data] |};
      clock := clock w; ticks := ticks w |},
   online (store w)).

(** ** [handleSimulateDivestment] *)

(** [riskData.find(d => d.tier.startsWith(letter))], then
    [found ? found.exposure : 0]. *)
Definition tierExposure (letter : string) (dbData : PortfolioSummary) : num :=
  match find (fun d => startsWith (tier d) letter) (riskData dbData) with
  | Some d => exposure d
  | None => zero
  end.

Definition updatedRiskData (dbData : PortfolioSummary)
    (newTierDExposure newTierDPercentage : num) : list RiskBucket :=
  map (fun d =>
         if startsWith (tier d) "D" then
           {| tier := tier d; exposure := newTierDExposure;
              percentage := newTierDPercentage;
              color := color d; count := count d |}
         else if startsWith (tier d) "C" && leb newTierDExposure zero then
           {| tier := tier d; exposure := exposure d; percentage := percentage d;
              color := color d; count := count d |}
         else d)
      (riskData dbData).

Definition recalculateTotal (updated : list RiskBucket) : num :=
  fold_left (fun sum d => add sum (exposure d)) updated zero.

Definition finalRiskData (updated : list RiskBucket) : list RiskBucket :=
  map (fun d =>
         {| tier := tier d; exposure := exposure d;
            percentage := mul (div (exposure d) (recalculateTotal updated)) hundred;
            color := color d; count := count d |})
      updated.

Definition handleSimulateDivestment (dbData : PortfolioSummary) (userId : string)
    (w : World) : World :=
  let amount := parseFloat (divestmentAmount (ui w)) in
  let w := setError NoError w in
  if isNaN amount || leb amount zero then
    setError InvalidAmount w
  else
    let currentTierDExposure := tierExposure "D" dbData in
    if ltb currentTierDExposure amount then
      setError (AmountExceedsExposure amount currentTierDExposure) w
    else
      let w := setIsUpdating true w in
      let newTierDExposure := sub currentTierDExposure amount in
      let newTierDPercentage := mul (div newTierDExposure TOTAL_EXPOSURE) hundred in
      let updated := updatedRiskData dbData newTierDExposure newTierDPercentage in
      let final := finalRiskData updated in
      let (now1, w) := newDate w in
      let (now2, w) := newDate w in
      let (w, ok) :=
        setDoc {| totalExposure := totalExposure dbData;
                  initialTierDTarget := initialTierDTarget dbData;
                  lastUpdated := now1;
                  riskData := final;
                  lastAction := Some {| type := "Divestment"; amount := amount;
                                        timestamp := now2; user := userId |} |} w in
      let w := if ok then setDivestmentAmount "" w
               else setError PersistenceFailure w in
      setIsUpdating false w.

(** ** [calculatedMetrics] *)

Record Metrics : Type := {
  currentTierDExposure : num;
  progressMade : num;
  progressPercentage : num;
  highRiskExposure : num;
  totalLoanCount : num
}.

(** [None] is the empty object returned while [dbData] is null. *)
Definition calculatedMetrics (dbData : option PortfolioSummary) : option Metrics :=
  match dbData with
  | None => None
  | Some dbData =>
      let currentTierDExposure := tierExposure "D" dbData in
      let totalTarget := initialTierDTarget dbData in
      let progressMade := Math_max zero (sub totalTarget currentTierDExposure) in
      let progressPercentage :=
        if ltb zero totalTarget then mul (div progressMade totalTarget) hundred
        else zero in
      let highRiskExposure := add currentTierDExposure (tierExposure "C" dbData) in
      let totalLoanCount :=
        fold_left (fun a b => add a (orZero (count b))) (riskData dbData) zero in
      Some {| currentTierDExposure := currentTierDExposure;
              progressMade := progressMade;
              progressPercentage := Math_min hundred progressPercentage;
              highRiskExposure := highRiskExposure;
              totalLoanCount := totalLoanCount |}
  end.


(** ** Vocabulary of the statements *)

(** The [amount] of one run of the handler. *)
Definition enteredAmount (w : World) : num :=
  parseFloat (divestmentAmount (ui w)).

(** The argument of [setDoc] for the amount [amount] and the clock
    readings [now1] and [now2]. *)
Definition writtenDocument (dbData : PortfolioSummary) (userId : string)
    (amount : num) (now1 now2 : string) : PortfolioSummary :=
  let newTierDExposure := sub (tierExposure "D" dbData) amount in
  let newTierDPercentage := mul (div newTierDExposure TOTAL_EXPOSURE) hundred in
  {| totalExposure := totalExposure dbData;
     initialTierDTarget := initialTierDTarget dbData;
     lastUpdated := now1;
     riskData := finalRiskData (updatedRiskData dbData newTierDExposure
                                                newTierDPercentage);
     lastAction := Some {| type := "Divestment"; amount := amount;
                           timestamp := now2; user := userId |} |}.

Definition isTier (letter : string) (d : RiskBucket) : bool :=
  startsWith (tier d) letter.

(** The percentages added up the way [recalculateTotal] adds up the
    exposures. *)
Definition sumPercentages (data : list RiskBucket) : num :=
  fold_left (fun sum d => add sum (percentage d)) data zero.

(** [x] is [y] up to [eps]: [y - eps <= x <= y + eps]. *)
Definition closeTo (eps x y : num) : bool :=
  leb (sub y eps) x && leb x (add y eps).

(** The derived metrics in the words of the specification.  The
    bucket of a tier is the first one whose label begins with the
    letter of the tier; a tier without a bucket has the exposure 0.
    Nothing here goes through the look-up of the code. *)
Fixpoint spec_bucketOfTier (letter : ascii) (data : list RiskBucket)
  : option RiskBucket :=
  match data with
  | [] => None
  | b :: rest =>
      match tier b with
      | String c _ =>
          if Ascii.eqb c letter then Some b else spec_bucketOfTier letter rest
      | EmptyString => spec_bucketOfTier letter rest
      end
  end.

Definition spec_tierExposure (letter : ascii) (dbData : PortfolioSummary) : num :=
  match spec_bucketOfTier letter (riskData dbData) with
  | Some b => exposure b
  | None => zero
  end.

Definition spec_progressMade (dbData : PortfolioSummary) : num :=
  Math_max zero (sub (initialTierDTarget dbData) (spec_tierExposure "D" dbData)).

Definition spec_progressPercentage (dbData : PortfolioSummary) : num :=
  if ltb zero (initialTierDTarget dbData) then
    Math_min hundred
      (mul (div (spec_progressMade dbData) (initialTierDTarget dbData)) hundred)
  else zero.

Definition spec_highRiskExposure (dbData : PortfolioSummary) : num :=
  add (spec_tierExposure "D" dbData) (spec_tierExposure "C" dbData).

(** The sum of the counts, from the first bucket to the last. *)
Definition spec_totalLoanCount (dbData : PortfolioSummary) : num :=
  fold_left add
    (map (fun b => match count b with Some n => n | None => zero end)
         (riskData dbData))
    zero.

(** The counts of the data model: every bucket has one, and it is 0
    or a positive number. *)
Definition countsPresent (dbData : PortfolioSummary) : Prop :=
  forall b, In b (riskData dbData) ->
    exists c, count b = Some c /\ (c = zero \/ ltb zero c = true).

(** The update of [riskData] when only the Tier-D bucket is touched. *)
Definition updateTierDOnly (dbData : PortfolioSummary)
    (newTierDExposure newTierDPercentage : num) : list RiskBucket :=
  map (fun d =>
         if startsWith (tier d) "D" then
           {| tier := tier d; exposure := newTierDExposure;
              percentage := newTierDPercentage;
              color := color d; count := count d |}
         else d)
      (riskData dbData).

(** ** Scenarios *)

(** The seeded document: A=9933.22, B=86354.51, C=129817.65,
    D=52052.43, target 52052.43. *)
Definition seedDocument : PortfolioSummary :=
  initialDocument "2025-01-01T00:00:00.000Z".

(** A simulator that shows [dbData], with [text] in the amount field,
    in front of a store that holds [dbData]. *)
Definition deskWorld (dbData : PortfolioSummary) (text : string) : World :=
  {| ui := {| divestmentAmount := text; error := NoError; isUpdating := false |};
     store := {| online := true; document := Some dbData; writes := [] |};
     clock := fun n => if Nat.even n then "2025-01-02T09:30:00.000Z"
                       else "2025-01-02T09:30:00.001Z";
     ticks := 0 |}.

(** The same simulator after a failed attempt, in front of a store
    that was never seeded and is not reachable. *)
Definition staleWorld (text : string) : World :=
  {| ui := {| divestmentAmount := text; error := PersistenceFailure;
              isUpdating := true |};
     store := {| online := false; document := None; writes := [seedDocument] |};
     clock := fun n => if Nat.even n then "2025-01-02T09:30:00.000Z"
                       else "2025-01-02T09:30:00.001Z";
     ticks := 6 |}.

(** The user [analyst] commits [text] on the seeded document. *)
Definition afterDivesting (text : string) : World :=
  handleSimulateDivestment seedDocument "analyst" (deskWorld seedDocument text).


(** A portfolio whose whole exposure, 5, is in Tier D. *)
Definition allInTierD : PortfolioSummary :=
  {| totalExposure := dec 5 0;
     initialTierDTarget := dec 5 0;
     lastUpdated := lastUpdated seedDocument;
     riskData :=
       map (fun d => {| tier := tier d;
                        exposure := if startsWith (tier d) "D" then dec 5 0 else zero;
                        percentage := if startsWith (tier d) "D" then hundred else zero;
                        color := color d; count := count d |})
           (riskData seedDocument);
     lastAction := None |}.

(** A portfolio with an exposure of 10^308 in each tier. *)
Definition nearOverflow : PortfolioSummary :=
  {| totalExposure := of_decimal false 4 308;
     initialTierDTarget := of_decimal false 1 308;
     lastUpdated := lastUpdated seedDocument;
     riskData :=
       map (fun d => {| tier := tier d; exposure := of_decimal false 1 308;
                        percentage := dec 25 0;
                        color := color d; count := count d |})
           (riskData seedDocument);
     lastAction := None |}.

(** A document outside the data model, with a negative exposure:
    10^16 in Tier A, 2 - 10^16 in Tier B, 0 in Tier C and 8 in Tier D. *)
Definition withNegativeExposure : PortfolioSummary :=
  {| totalExposure := dec 10 0;
     initialTierDTarget := dec 8 0;
     lastUpdated := lastUpdated seedDocument;
     riskData :=
       map (fun d => {| tier := tier d;
                        exposure := if startsWith (tier d) "A" then of_decimal false 1 16
                                    else if startsWith (tier d) "B"
                                         then of_decimal true 9999999999999998 0
                                    else if startsWith (tier d) "C" then zero
                                    else dec 8 0;
                        percentage := zero;
                        color := color d; count := count d |})
           (riskData seedDocument);
     lastAction := None |}.

(** What the metric cards show for the document in the store. *)
Definition progressAfter (w : World) : option num :=
  option_map progressPercentage (calculatedMetrics (document (store w))).

Definition tierDAfter (w : World) : option num :=
  option_map (tierExposure "D") (document (store w)).

End Dashboard.

Arguments RiskBucket num : clear implicits.
Arguments LastAction num : clear implicits.
Arguments PortfolioSummary num : clear implicits.
Arguments ErrorMessage num : clear implicits.
Arguments SimulatorState num : clear implicits.
Arguments Firestore num : clear implicits.
Arguments World num : clear implicits.
Arguments Metrics num : clear implicits.

(** ** IEEE 754 binary64 *)

(** The correctly rounded value of [m * 10^e]: an integer is rounded
    once, a fraction is the rounded quotient of two integers. *)
Definition float_of_decimal (neg : bool) (m : N) (e : Z) : float :=
  SF2Prim
    match m with
    | N0 => S754_zero neg
    | Npos p =>
        match e with
        | Zneg k => SFdiv prec emax (S754_finite neg p 0)
                          (S754_finite false (10 ^ k)%positive 0)
        | _ => binary_round prec emax neg (p * Z.to_pos (10 ^ e))%positive 0
        end
    end.

Definition float_isNaN (x : float) : bool := negb (PrimFloat.eqb x x).

(** [Math.max] and [Math.min]: NaN as soon as an operand is NaN, and
    [+0] is larger than [-0], which the sums of the last case decide
    (all other equal operands are returned as they are). *)
Definition float_max (a b : float) : float :=
  if float_isNaN a || float_isNaN b then PrimFloat.nan
  else if PrimFloat.ltb a b then b
  else if PrimFloat.ltb b a then a
  else if PrimFloat.is_zero a then PrimFloat.add a b
  else a.

Definition float_min (a b : float) : float :=
  if float_isNaN a || float_isNaN b then PrimFloat.nan
  else if PrimFloat.ltb a b then a
  else if PrimFloat.ltb b a then b
  else if PrimFloat.is_zero a then
    PrimFloat.opp (PrimFloat.add (PrimFloat.opp a) (PrimFloat.opp b))
  else a.

#[export] Instance float_JSNumber : JSNumber float := {|
  NaN := PrimFloat.nan;
  Infinity := fun neg => if neg then PrimFloat.neg_infinity else PrimFloat.infinity;
  of_decimal := float_of_decimal;
  add := PrimFloat.add;
  sub := PrimFloat.sub;
  mul := PrimFloat.mul;
  div := PrimFloat.div;
  isNaN := float_isNaN;
  ltb := PrimFloat.ltb;
  leb := PrimFloat.leb;
  Math_max := float_max;
  Math_min := float_min
|}.

(** ** The value of a float *)

(** [2^e], the value [m * 2^e] of a finite float, and the magnitude of
    a float: its value without the sign, 0 for an infinity and NaN. *)
Definition bpow (e : Z) : Q := (2 ^ e)%Q.

Definition F2Q (m : positive) (e : Z) : Q := inject_Z (Zpos m) * bpow e.

Definition SFmag (x : spec_float) : Q :=
  match x with
  | S754_finite _ m e => F2Q m e
  | _ => 0
  end.

(** The value of a finite float, with its sign. *)
Definition float_value (x : float) : Q :=
  match Prim2SF x with
  | S754_finite true m e => - F2Q m e
  | S754_finite false m e => F2Q m e
  | _ => 0
  end.

(** The unit roundoff of binary64 and half its least positive
    number. *)
Definition u64 : Q := bpow (-53).
Definition eta64 : Q := bpow (-1075).

(** [Rep mrs y]: the shifted mantissa [shr_m mrs], with its round and
    sticky bits, stands for the number [y]. *)
Definition Rep (mrs : shr_record) (y : Q) : Prop :=
  (0 <= shr_m mrs)%Z /\
  match shr_r mrs, shr_s mrs with
  | false, false => (y == inject_Z (shr_m mrs))%Q
  | false, true => (inject_Z (shr_m mrs) < y /\ y < inject_Z (shr_m mrs) + (1 # 2))%Q
  | true, false => (y == inject_Z (shr_m mrs) + (1 # 2))%Q
  | true, true => (inject_Z (shr_m mrs) + (1 # 2) < y /\ y < inject_Z (shr_m mrs) + 1)%Q
  end.

(** A zero or a positive finite number; the same with a valid
    mantissa; a zero or a finite number of either sign. *)
Definition nns (x : spec_float) : Prop :=
  match x with
  | S754_zero _ | S754_finite false _ _ => True
  | _ => False
  end.

Definition nnf (x : spec_float) : Prop :=
  match x with
  | S754_zero _ => True
  | S754_finite false m e => bounded prec emax m e = true
  | _ => False
  end.

Definition is_fin (x : spec_float) : Prop :=
  match x with
  | S754_zero _ | S754_finite _ _ _ => True
  | _ => False
  end.

Definition fval (x : float) : Q := SFmag (Prim2SF x).
Definition fnn (x : float) : Prop := nns (Prim2SF x).

Fixpoint qpow (q : Q) (n : nat) : Q :=
  match n with
  | O => 1
  | S n => q * qpow q n
  end.

(** Sums along a list: of rational numbers, of the values of floats,
    and of floats in binary64 from the left, as [reduce] adds. *)
Definition Qsumf {A : Type} (f : A -> Q) (l : list A) : Q :=
  fold_right (fun d acc => f d + acc)%Q 0%Q l.

Definition Qsum {A : Type} (g : A -> float) (l : list A) : Q :=
  fold_right (fun d acc => fval (g d) + acc)%Q 0%Q l.

Definition fsum {A : Type} (g : A -> float) (l : list A) (acc : float) : float :=
  fold_left (fun s d => PrimFloat.add s (g d)) l acc.

(** The total of [g] over a list and the share of an element in it,
    in percent, as the handler computes them. *)
Definition sumOf {A : Type} (g : A -> float) (l : list A) : float :=
  fsum g l zero.

Definition shareOf {A : Type} (g : A -> float) (l : list A) (d : A) : float :=
  PrimFloat.mul (PrimFloat.div (g d) (sumOf g l)) hundred.

(** ** [toFixed]

    [Number.prototype.toFixed] (ECMA-262, 21.1.3.3). *)

Definition decimalDigits (n : N) : string :=
  NilEmpty.string_of_uint (N.to_uint n).

Fixpoint zeros (k : nat) : string :=
  match k with
  | O => ""
  | S k => String "0" (zeros k)
  end.

Fixpoint firstChars (k : nat) (s : string) : string :=
  match k, s with
  | S k, String c rest => String c (firstChars k rest)
  | _, _ => ""
  end.

Fixpoint otherChars (k : nat) (s : string) : string :=
  match k, s with
  | S k, String _ rest => otherChars k rest
  | _, _ => s
  end.

(** Steps 11.b and 11.c: [n] printed with [f] digits after the point,
    padded with zeros on the left up to [f + 1] digits. *)
Definition formatFixed (n : N) (f : nat) : string :=
  let m := decimalDigits n in
  match f with
  | O => m
  | S _ =>
      let m := if (String.length m <=? f)%nat
               then zeros (S f - String.length m) ++ m else m in
      let k := String.length m in
      firstChars (k - f) m ++ "." ++ otherChars (k - f) m
  end.

(** [Number::toString] of an integer [v >= 10^21] whose digits are
    [v]: the digits without the zeros at the end, in exponential
    notation (steps 10 and 11 of 6.1.6.1.20). *)
Fixpoint stripZeros (fuel : nat) (v : N) : N :=
  match fuel with
  | O => v
  | S fuel => if (v mod 10 =? 0)%N then
                if (v =? 0)%N then v else stripZeros fuel (v / 10)
              else v
  end.

Definition formatExponential (v : N) : string :=
  let all := decimalDigits v in
  let sig := decimalDigits (stripZeros (String.length all) v) in
  let e := decimalDigits (N.of_nat (String.length all - 1)) in
  match sig with
  | String c "" => String c ("e+" ++ e)
  | String c rest => String c ("." ++ rest ++ "e+" ++ e)
  | "" => ""
  end.

(** The integer nearest to [m * 2^e * 10^f], the larger one on a tie. *)
Definition scaledNearest (m : positive) (e : Z) (f : nat) : N :=
  match e with
  | Zneg k => Z.to_N ((2 * Zpos m * 10 ^ Z.of_nat f + 2 ^ Zpos k) / 2 ^ (Zpos k + 1))
  | _ => Z.to_N (Zpos m * 2 ^ e * 10 ^ Z.of_nat f)
  end.

(** [m * 2^e >= 10^21] *)
Definition atLeast1e21 (m : positive) (e : Z) : bool :=
  match e with
  | Zneg k => 10 ^ 21 * 2 ^ Zpos k <=? Zpos m
  | _ => 10 ^ 21 <=? Zpos m * 2 ^ e
  end.

(** The binary64 value nearest to the integer [v], as an integer. *)
Definition roundedInteger (v : Z) : option Z :=
  match binary_normalize prec emax v 0 false with
  | S754_finite _ m e => Some (Zpos m * 2 ^ e)
  | S754_zero _ => Some 0
  | _ => None
  end.

(** The shortest digits that read back as the integer [x], a binary64
    value of at least 10^21: for [k] digits the candidates are the two
    multiples of [10^(nd-k)] around [x]; the nearer one wins, the even
    one on a tie. *)
Definition shortestCandidate (x : Z) (nd k : nat) : option Z :=
  let scale := 10 ^ Z.of_nat (nd - k) in
  let lo := x / scale * scale in
  let hi := lo + scale in
  let okLo := match roundedInteger lo with Some y => y =? x | None => false end in
  let okHi := match roundedInteger hi with Some y => y =? x | None => false end in
  if okLo && okHi then
    match (x - lo ?= hi - x) with
    | Lt => Some lo
    | Gt => Some hi
    | Eq => if Z.even (lo / scale) then Some lo else Some hi
    end
  else if okLo then Some lo
  else if okHi then Some hi
  else None.

Fixpoint shortestFrom (x : Z) (nd k fuel : nat) : Z :=
  match fuel with
  | O => x
  | S fuel =>
      match shortestCandidate x nd k with
      | Some v => v
      | None => shortestFrom x nd (S k) fuel
      end
  end.

Definition toStringLarge (m : positive) (e : Z) : string :=
  let x := Zpos m * 2 ^ e in
  let nd := String.length (decimalDigits (Z.to_N x)) in
  formatExponential (Z.to_N (shortestFrom x nd 1 17)).

Definition float_toFixed (x : float) (f : nat) : string :=
  match Prim2SF x with
  | S754_nan => "NaN"
  | S754_infinity s => if s then "-Infinity" else "Infinity"
  | S754_zero _ => formatFixed 0 f
  | S754_finite s m e =>
      (if s then "-" else "") ++
      (if atLeast1e21 m e then toStringLarge m e
       else formatFixed (scaledNearest m e f) f)
  end.

(** The value of a run of digits read after [acc], and whether a
    string is such a run. *)
Fixpoint digitsValue (s : string) (acc : N) : N :=
  match s with
  | String c rest =>
      match digitValue c with
      | Some d => digitsValue rest (10 * acc + d)%N
      | None => acc
      end
  | EmptyString => acc
  end.

Fixpoint allDigits (s : string) : bool :=
  match s with
  | String c rest =>
      match digitValue c with
      | Some _ => allDigits rest
      | None => false
      end
  | EmptyString => true
  end.

Class JSNumberFormat (num : Type) : Type := {
  toFixed : num -> nat -> string
}.

#[export] Instance float_JSNumberFormat : JSNumberFormat float := {|
  toFixed := float_toFixed
|}.

(** ** The rest of the dashboard *)

(** Two more facts on the order, for what is shown once Tier D is
    empty and for the cap of the progress. *)
Class JSNumberBounds (num : Type) `{JSNumber num} : Prop := {
  nonpos_lt_pos : forall a b, leb a zero = true -> ltb zero b = true -> ltb a b = true;
  not_le0_pos : forall a, isNaN a = false -> leb a zero = false -> ltb zero a = true;
  min_upper : forall a b, isNaN (Math_min a b) = true \/ leb (Math_min a b) a = true
}.

(** An entry of [chartData]. *)
Module Chart.
Record Entry (num : Type) : Type := {
  name : string;
  value : num;
  exposure : num;
  percentage : num;
  tier : string
}.
Arguments name {num}.
Arguments value {num}.
Arguments exposure {num}.
Arguments percentage {num}.
Arguments tier {num}.
End Chart.

(** The value and the description of a [MetricCard].  A description
    is kept as the pieces of its template literal: the text, and the
    numbers that are interpolated as they are. *)
Module Card.
Inductive Piece (num : Type) : Type :=
| Text (s : string)
| Number (v : num).
Arguments Text {num}.
Arguments Number {num}.
Record Props (num : Type) : Type := {
  title : string;
  value : string;
  description : list (Piece num)
}.
Arguments title {num}.
Arguments value {num}.
Arguments description {num}.
End Card.

(** What reading a property of an object gives: a string of its own,
    a member it inherits from [Object.prototype], or [undefined]. *)
Inductive JSValue : Type :=
| Undefined
| OwnString (s : string)
| Inherited (name : string).

(** The own properties of an object with string values. *)
Definition JSObject : Type := string -> option string.

Definition emptyObject : JSObject := fun _ => None.

(** [{ ...acc, [key]: v }]: a computed key defines an own property,
    also when the key is [__proto__]. *)
Definition withProperty (acc : JSObject) (key v : string) : JSObject :=
  fun k => if String.eqb k key then Some v else acc k.

(** The properties of [Object.prototype] (ECMA-262, 20.1.3 and
    B.2.2). *)
Definition objectPrototype : list string :=
  [ "constructor"; "hasOwnProperty"; "isPrototypeOf"; "propertyIsEnumerable";
    "toLocaleString"; "toString"; "valueOf"; "__proto__";
    "__defineGetter__"; "__defineSetter__"; "__lookupGetter__";
    "__lookupSetter__" ].

(** [o[key]] for an object created by an object literal. *)
Definition getProperty (o : JSObject) (key : string) : JSValue :=
  match o key with
  | Some v => OwnString v
  | None => if existsb (String.eqb key) objectPrototype then Inherited key
            else Undefined
  end.

(** [s.split(sep)[0]]: what comes before the first separator. *)
Fixpoint splitFirst (sep : ascii) (s : string) : string :=
  match s with
  | String c rest => if Ascii.eqb c sep then "" else String c (splitFirst sep rest)
  | EmptyString => ""
  end.

Definition isEmptyString (s : string) : bool :=
  match s with
  | EmptyString => true
  | String _ _ => false
  end.

(** The handles [db] and [auth] of the module, an application handle
    and what the three calls of the SDK return; [None] is an
    exception. *)
Module Firebase.
Record Handles : Type := {
  db : option nat;
  auth : option nat
}.
Record Sdk : Type := {
  initializeApp : option nat;
  getFirestore : nat -> option nat;
  getAuth : nat -> option nat
}.
End Firebase.

Definition initializeFirebase (sdk : Firebase.Sdk) (h : Firebase.Handles)
  : Firebase.Handles * bool :=
  match Firebase.db h with
  | None =>
      match Firebase.initializeApp sdk with
      | Some app =>
          match Firebase.getFirestore sdk app with
          | Some d =>
              let h := {| Firebase.db := Some d; Firebase.auth := Firebase.auth h |} in
              match Firebase.getAuth sdk app with
              | Some a => ({| Firebase.db := Firebase.db h; Firebase.auth := Some a |}, true)
              | None => (h, false)
              end
          | None => (h, false)
          end
      | None => (h, false)
      end
  | Some _ => (h, true)
  end.

(** An SDK whose [getAuth] throws, one whose [initializeApp] throws,
    and the handles after a complete initialisation. *)
Definition authlessSdk : Firebase.Sdk :=
  {| Firebase.initializeApp := Some 1%nat;
     Firebase.getFirestore := fun _ => Some 2%nat;
     Firebase.getAuth := fun _ => None |}.

Definition unreachableSdk : Firebase.Sdk :=
  {| Firebase.initializeApp := None;
     Firebase.getFirestore := fun _ => None;
     Firebase.getAuth := fun _ => None |}.

Definition noHandles : Firebase.Handles :=
  {| Firebase.db := None; Firebase.auth := None |}.

Definition readyHandles : Firebase.Handles :=
  {| Firebase.db := Some 2%nat; Firebase.auth := Some 3%nat |}.

Section Application.

Context {num : Type} `{JSNumber num} `{JSNumberFormat num}.

(** *** [DivestmentSimulator] *)

(** [onChange] of the amount field. *)
Definition onChange (text : string) (w : World num) : World num :=
  setError NoError (setDivestmentAmount text w).

(** What the component renders from its props and its state: the
    attributes that depend on them. *)
Record SimulatorView : Type := {
  placeholder : string;
  inputDisabled : bool;
  buttonDisabled : bool;
  buttonSpinner : bool;
  buttonLabel : string;
  errorShown : option (ErrorMessage num);
  lastActionShown : bool
}.

Definition DivestmentSimulator (dbData : PortfolioSummary num)
    (calculatedMetrics : Metrics num) (st : SimulatorState num) : SimulatorView :=
  let remainingExposure := currentTierDExposure calculatedMetrics in
  {| placeholder := "Max remaining: " ++ toFixed remainingExposure 2;
     inputDisabled := isUpdating st || leb remainingExposure zero;
     buttonDisabled := isUpdating st || isEmptyString (divestmentAmount st)
                       || leb remainingExposure zero;
     buttonSpinner := isUpdating st;
     buttonLabel := if leb remainingExposure zero then "Target Achieved!"
                    else "Commit Divestment";
     errorShown := match error st with
                   | NoError => None
                   | e => Some e
                   end;
     lastActionShown := match lastAction dbData with
                        | Some _ => true
                        | None => false
                        end |}.

(** *** [App] *)

(** [setDoc(docRef, data, { merge: true })]: the fields of [data]
    replace those of the stored document and its other fields are
    kept.  A [PortfolioSummary] names every field of the document, so
    nothing of the old one is kept. *)
Definition setDocMerge (data : PortfolioSummary num) (w : World num)
  : World num * bool := setDoc data w.

(** [initializeData]: the exception of a failed write is caught and
    only logged. *)
Definition initializeData (w : World num) : World num :=
  let (now, w) := newDate w in
  let (w, _) := setDocMerge (initialDocument now) w in
  w.

Record AppState : Type := {
  isAuthenticated : bool;
  userId : option string;
  dbData : option (PortfolioSummary num);
  isLoading : bool
}.

Definition initialAppState : AppState :=
  {| isAuthenticated := false; userId := None; dbData := None; isLoading := true |}.

(** The callback given to [onAuthStateChanged]; [user] is the uid of
    the signed-in user. *)
Definition authStateChanged (user : option string) (s : AppState) : AppState :=
  match user with
  | Some uid => {| isAuthenticated := true; userId := Some uid;
                   dbData := dbData s; isLoading := false |}
  | None => {| isAuthenticated := false; userId := None;
               dbData := dbData s; isLoading := false |}
  end.

(** The callback given to [onSnapshot]; [None] is a snapshot of a
    document that does not exist. *)
Definition snapshotArrived (docSnapshot : option (PortfolioSummary num))
    (s : AppState) : AppState :=
  match docSnapshot with
  | Some data => {| isAuthenticated := isAuthenticated s; userId := userId s;
                    dbData := Some data; isLoading := isLoading s |}
  | None => s
  end.

(** The first effect: the handles, the state and whether the callback
    of [onAuthStateChanged] was registered. *)
Definition mountEffect (sdk : Firebase.Sdk) (h : Firebase.Handles) (s : AppState)
  : Firebase.Handles * AppState * bool :=
  let (h, ok) := initializeFirebase sdk h in
  if ok then (h, s, true)
  else (h, {| isAuthenticated := isAuthenticated s; userId := userId s;
              dbData := dbData s; isLoading := false |}, false).

(** The guard of the second effect, [!isAuthenticated || !db || !userId]
    negated; an empty uid is falsy. *)
Definition dataEffectRuns (h : Firebase.Handles) (s : AppState) : bool :=
  isAuthenticated s
  && match Firebase.db h with Some _ => true | None => false end
  && match userId s with Some uid => negb (isEmptyString uid) | None => false end.

Definition dataEffect (h : Firebase.Handles) (s : AppState) (w : World num) : World num :=
  if dataEffectRuns h s then initializeData w else w.

(** What [App] returns; the dashboard is drawn from [dbData] and from
    [calculatedMetrics], which is [None] for the empty object. *)
Inductive Screen : Type :=
| LoadingScreen
| AuthenticationFailed
| WaitingForData
| Dashboard (data : PortfolioSummary num) (metrics : option (Metrics num)).

Definition App (s : AppState) : Screen :=
  if isLoading s then LoadingScreen
  else if negb (isAuthenticated s) then AuthenticationFailed
  else match dbData s with
       | None => WaitingForData
       | Some data => Dashboard data (calculatedMetrics (dbData s))
       end.

(** *** The chart *)

Definition chartData (dbData : option (PortfolioSummary num)) : list (Chart.Entry num) :=
  match dbData with
  | Some dbData =>
      map (fun d => {| Chart.name := splitFirst ":" (tier d);
                       Chart.value := parseFloat (toFixed (exposure d) 2);
                       Chart.exposure := exposure d;
                       Chart.percentage := percentage d;
                       Chart.tier := tier d |})
          (riskData dbData)
  | None => []
  end.

(** [data.reduce((acc, d) => ({ ...acc, [d.tier]: d.color }), {})] *)
Definition colorsOf (data : list (RiskBucket num)) : JSObject :=
  fold_left (fun acc d => withProperty acc (tier d) (color d)) data emptyObject.

(** [COLORS[key]] *)
Definition COLORS (key : string) : JSValue := getProperty (colorsOf MOCK_DATA) key.

(** The [fill] of the cells, [COLORS[dbData.riskData[index].tier]] for
    each index of [chartData]; [None] is the exception of reading
    [tier] of an element that is not there. *)
Definition cellFills (dbData : PortfolioSummary num) : list (option JSValue) :=
  map (fun index =>
         match nth_error (riskData dbData) index with
         | Some d => Some (COLORS (tier d))
         | None => None
         end)
      (seq 0 (List.length (chartData (Some dbData)))).

(** *** The metric cards *)

Definition metricCards (dbData : PortfolioSummary num) (calculatedMetrics : Metrics num)
  : list (Card.Props num) :=
  [ {| Card.title := "Total Portfolio Exposure";
       Card.value := toFixed (div (totalExposure dbData) (dec 1000 0)) 1;
       Card.description :=
         [ Card.Text "Calculated from ";
           Card.Number (totalLoanCount calculatedMetrics);
           Card.Text " total loans." ] |};
    {| Card.title := "Tier D Exposure Remaining";
       Card.value := toFixed (currentTierDExposure calculatedMetrics) 2;
       Card.description :=
         [ Card.Text ("Target Divestment: " ++ toFixed (initialTierDTarget dbData) 2
                      ++ " Mn.") ] |};
    {| Card.title := "Divestment Progress";
       Card.value := toFixed (progressPercentage calculatedMetrics) 1;
       Card.description :=
         [ Card.Text (toFixed (progressMade calculatedMetrics) 2
                      ++ " Mn divested/reduced so far.") ] |};
    {| Card.title := "Total High Risk (C+D)";
       Card.value := toFixed (highRiskExposure calculatedMetrics) 2;
       Card.description :=
         [ Card.Text "The exposure requiring immediate management attention." ] |} ].

(** What happens to [App] after it is mounted: a call of one of its
    two callbacks. *)
Inductive AppEvent : Type :=
| AuthChanged (user : option string)
| SnapshotArrived (docSnapshot : option (PortfolioSummary num)).

Definition appStep (s : AppState) (e : AppEvent) : AppState :=
  match e with
  | AuthChanged user => authStateChanged user s
  | SnapshotArrived docSnapshot => snapshotArrived docSnapshot s
  end.

Definition appAfter (events : list AppEvent) : AppState :=
  fold_left appStep events initialAppState.

(** *** More scenarios *)

(** The document the handler writes when [analyst] commits [text] on
    the seeded document at the desk. *)
Definition afterCommit (text : string) : PortfolioSummary num :=
  writtenDocument seedDocument "analyst" (parseFloat text)
                  "2025-01-02T09:30:00.000Z" "2025-01-02T09:30:00.001Z".

(** The document after a second commit, of [text'], made a minute
    later on the document of the first. *)
Definition afterTwoCommits (text text' : string) : PortfolioSummary num :=
  writtenDocument (afterCommit text) "analyst" (parseFloat text')
                  "2025-01-02T09:31:00.000Z" "2025-01-02T09:31:00.001Z".

(** The desk with the store out of reach. *)
Definition offlineWorld (dbData : PortfolioSummary num) (text : string) : World num :=
  {| ui := ui (deskWorld dbData text);
     store := {| online := false; document := Some dbData; writes := [] |};
     clock := clock (deskWorld dbData text);
     ticks := 0 |}.

(** The metrics of a document, in the words of the specification. *)
Definition metricsOf (dbData : PortfolioSummary num) : Metrics num :=
  {| currentTierDExposure := spec_tierExposure "D" dbData;
     progressMade := spec_progressMade dbData;
     progressPercentage := spec_progressPercentage dbData;
     highRiskExposure := spec_highRiskExposure dbData;
     totalLoanCount := spec_totalLoanCount dbData |}.

(** The Tier-D bucket of the seeded document. *)
Definition seedTierD : RiskBucket num :=
  {| tier := "D: Divestment (Very High Risk)"; exposure := dec 5205243 2;
     percentage := dec 1871 2; color := "#EF4444"; count := Some (dec 194 0) |}.

(** [App] after the sign-in of [analyst]. *)
Definition signedIn : AppState := appAfter [AuthChanged (Some "analyst")].

(** *** Documents written one after the other *)

(** [written d d']: the handler, shown [d], handed [d'] to [setDoc]. *)
Definition written (d d' : PortfolioSummary num) : Prop :=
  exists userId w,
    writes (store (handleSimulateDivestment d userId w)) = (writes (store w) ++ [d'])%list.

(** [divested d d']: [d'] comes from [d] by commits, each one on the
    document the one before wrote. *)
Inductive divested (d : PortfolioSummary num) : PortfolioSummary num -> Prop :=
| divested_none : divested d d
| divested_more d' d'' : divested d d' -> written d' d'' -> divested d d''.

End Application.

Arguments SimulatorView num : clear implicits.
Arguments AppState num : clear implicits.
Arguments Screen num : clear implicits.
Arguments AppEvent num : clear implicits.

(** * Properties *)

(** ** The order of the numbers *)

(** The comparisons of [float] are those of its specification
    [SFcompare]; the laws follow by cases on the operands. *)

Lemma SFcompare_antisym (x y : spec_float) :
  SFcompare y x = option_map CompOpp (SFcompare x y).
Proof.
  destruct x as [sx|sx| |sx mx ex], y as [sy|sy| |sy my ey]; simpl;
    try reflexivity;
    try (destruct sx; reflexivity); try (destruct sy; reflexivity);
    try (destruct sx, sy; reflexivity).
  assert (Hm : Pos.compare_cont Eq my mx = CompOpp (Pos.compare_cont Eq mx my))
    by (rewrite (Pos.compare_cont_antisym mx my Eq); reflexivity).
  rewrite Hm, (Z.compare_antisym ex ey).
  destruct sx, sy; try reflexivity;
    destruct (ex ?= ey); simpl; try reflexivity;
    destruct (Pos.compare_cont Eq mx my); reflexivity.
Qed.

Lemma Prim2SF_zero : Prim2SF (float_of_decimal false 0 0) = S754_zero false.
Proof. reflexivity. Qed.

Lemma float_pos_not_NaN (a : float) :
  PrimFloat.ltb (float_of_decimal false 0 0) a = true -> float_isNaN a = false.
Proof.
  unfold float_isNaN. rewrite ltb_spec, eqb_spec, Prim2SF_zero.
  unfold SFltb, SFeqb.
  destruct (Prim2SF a) as [s|s| |s m e]; simpl; try discriminate; try reflexivity.
  - destruct s; reflexivity.
  - intros _. destruct s; rewrite Z.compare_refl, Pos.compare_cont_refl; reflexivity.
Qed.

Lemma float_pos_not_le0 (a : float) :
  PrimFloat.ltb (float_of_decimal false 0 0) a = true ->
  PrimFloat.leb a (float_of_decimal false 0 0) = false.
Proof.
  rewrite ltb_spec, leb_spec, Prim2SF_zero. unfold SFltb, SFleb.
  destruct (Prim2SF a) as [s|s| |s m e]; simpl; try discriminate;
    destruct s; simpl; try discriminate; reflexivity.
Qed.

Lemma float_le_not_gt (a b : float) :
  PrimFloat.leb a b = true -> PrimFloat.ltb b a = false.
Proof.
  rewrite ltb_spec, leb_spec. unfold SFltb, SFleb.
  rewrite (SFcompare_antisym (Prim2SF a) (Prim2SF b)).
  destruct (SFcompare (Prim2SF a) (Prim2SF b)) as [[ | | ]|]; simpl;
    try discriminate; reflexivity.
Qed.

Lemma float_nonneg_lt_pos (a b : float) :
  PrimFloat.leb (float_of_decimal false 0 0) a = true -> PrimFloat.ltb a b = true ->
  PrimFloat.ltb (float_of_decimal false 0 0) b = true.
Proof.
  rewrite !ltb_spec, leb_spec, Prim2SF_zero. unfold SFltb, SFleb.
  destruct (Prim2SF a) as [sa|sa| |sa ma ea], (Prim2SF b) as [sb|sb| |sb mb eb];
    simpl; try discriminate;
    try (destruct sa; simpl; discriminate);
    try (destruct sb; simpl; discriminate);
    try (destruct sa, sb; simpl; try discriminate; reflexivity);
    try (destruct sb; simpl; try discriminate; reflexivity).
Qed.

Lemma float_leb_nan_r (x : float) : PrimFloat.leb x PrimFloat.nan = false.
Proof.
  rewrite leb_spec. change (Prim2SF PrimFloat.nan) with S754_nan.
  unfold SFleb. destruct (Prim2SF x); reflexivity.
Qed.

#[export] Instance float_JSNumberLaws : JSNumberLaws float.
Proof.
  split.
  - exact float_pos_not_NaN.
  - exact float_pos_not_le0.
  - exact float_le_not_gt.
  - exact float_nonneg_lt_pos.
  - reflexivity.
Qed.

(** ** The handler *)

Section Handler.

Context {num : Type} `{JSNumberLaws num}.

Implicit Types (dbData : PortfolioSummary num) (w : World num) (b : RiskBucket num).

(** *** The three ways through the handler *)

Lemma handler_invalid dbData userId w :
  isNaN (enteredAmount w) || leb (enteredAmount w) zero = true ->
  handleSimulateDivestment dbData userId w = setError InvalidAmount w.
Proof.
  intros Hbad. unfold handleSimulateDivestment.
  fold (enteredAmount w). cbv zeta. now rewrite Hbad.
Qed.

Lemma handler_exceeds dbData userId w :
  isNaN (enteredAmount w) || leb (enteredAmount w) zero = false ->
  ltb (tierExposure "D" dbData) (enteredAmount w) = true ->
  handleSimulateDivestment dbData userId w =
  setError (AmountExceedsExposure (enteredAmount w) (tierExposure "D" dbData)) w.
Proof.
  intros Hok Hgt. unfold handleSimulateDivestment.
  fold (enteredAmount w). cbv zeta. now rewrite Hok, Hgt.
Qed.

Lemma handler_commit dbData userId w :
  isNaN (enteredAmount w) || leb (enteredAmount w) zero = false ->
  ltb (tierExposure "D" dbData) (enteredAmount w) = false ->
  handleSimulateDivestment dbData userId w =
  {| ui := {| divestmentAmount :=
                if online (store w) then "" else divestmentAmount (ui w);
              error := if online (store w) then NoError else PersistenceFailure;
              isUpdating := false |};
     store := {| online := online (store w);
                 document :=
                   if online (store w) then
                     Some (writtenDocument dbData userId (enteredAmount w)
                             (clock w (ticks w)) (clock w (S (ticks w))))
                   else document (store w);
                 writes :=
                   writes (store w) ++
                   [writtenDocument dbData userId (enteredAmount w)
                      (clock w (ticks w)) (clock w (S (ticks w)))] |};
     clock := clock w;
     ticks := S (S (ticks w)) |}.
Proof.
  intros Hok Hle. unfold handleSimulateDivestment.
  fold (enteredAmount w). cbv zeta. rewrite Hok, Hle.
  unfold writtenDocument, newDate, setDoc, setIsUpdating, setError,
    setDivestmentAmount; cbn [ui store clock ticks online document writes
    divestmentAmount error isUpdating fst snd].
  destruct (online (store w)); reflexivity.
Qed.

(** An amount with 0 < amount <= Tier-D exposure passes both checks. *)
Lemma valid_amount_passes dbData w :
  ltb zero (enteredAmount w) = true ->
  leb (enteredAmount w) (tierExposure "D" dbData) = true ->
  isNaN (enteredAmount w) || leb (enteredAmount w) zero = false /\
  ltb (tierExposure "D" dbData) (enteredAmount w) = false.
Proof.
  intros Hpos Hle. split.
  - now rewrite (pos_not_NaN _ Hpos), (pos_not_le0 _ Hpos).
  - now apply le_not_gt.
Qed.


(** With the store in reach, such an amount replaces the document. *)
Lemma handler_valid dbData userId w :
  ltb zero (enteredAmount w) = true ->
  leb (enteredAmount w) (tierExposure "D" dbData) = true ->
  online (store w) = true ->
  document (store (handleSimulateDivestment dbData userId w)) =
    Some (writtenDocument dbData userId (enteredAmount w)
            (clock w (ticks w)) (clock w (S (ticks w)))) /\
  error (ui (handleSimulateDivestment dbData userId w)) = NoError.
Proof.
  intros Hpos Hle Hon.
  destruct (valid_amount_passes dbData w Hpos Hle) as [Hok Hngt].
  rewrite (handler_commit dbData userId w Hok Hngt).
  cbn [store document ui error]. now rewrite Hon.
Qed.

(** *** The two maps over [riskData] *)

Lemma find_map_same_tier (letter : string) (f : RiskBucket num -> RiskBucket num)
    (l : list (RiskBucket num)) :
  (forall d, tier (f d) = tier d) ->
  find (isTier letter) (map f l) = option_map f (find (isTier letter) l).
Proof.
  intros Htier. induction l as [|d l IH]; simpl; [reflexivity|].
  unfold isTier at 1 3. rewrite Htier.
  destruct (startsWith (tier d) letter); [reflexivity|exact IH].
Qed.

Lemma tierExposure_find letter dbData :
  tierExposure letter dbData =
  match find (isTier letter) (riskData dbData) with
  | Some d => exposure d
  | None => zero
  end.
Proof. reflexivity. Qed.

Lemma find_tier_written letter dbData (e p : num) :
  find (isTier letter) (finalRiskData (updatedRiskData dbData e p)) =
  option_map
    (fun d => {| tier := tier d;
                 exposure := if isTier "D" d then e else exposure d;
                 percentage :=
                   mul (div (if isTier "D" d then e else exposure d)
                            (recalculateTotal (updatedRiskData dbData e p))) hundred;
                 color := color d; count := count d |})
    (find (isTier letter) (riskData dbData)).
Proof.
  unfold finalRiskData. rewrite find_map_same_tier by reflexivity.
  generalize (recalculateTotal (updatedRiskData dbData e p)); intros total.
  unfold updatedRiskData. rewrite find_map_same_tier.
  - destruct (find (isTier letter) (riskData dbData)) as [d|]; simpl; [|reflexivity].
    unfold isTier. destruct (startsWith (tier d) "D"); simpl; [reflexivity|].
    destruct (startsWith (tier d) "C" && leb e zero); reflexivity.
  - intros d. destruct (startsWith (tier d) "D"); [reflexivity|].
    destruct (startsWith (tier d) "C" && leb e zero); reflexivity.
Qed.

Lemma nth_written dbData (e p : num) i b :
  nth_error (riskData dbData) i = Some b ->
  exists b',
    nth_error (finalRiskData (updatedRiskData dbData e p)) i = Some b' /\
    tier b' = tier b /\ color b' = color b /\ count b' = count b /\
    exposure b' = (if isTier "D" b then e else exposure b).
Proof.
  intros Hnth. unfold finalRiskData.
  generalize (recalculateTotal (updatedRiskData dbData e p)); intros total.
  unfold updatedRiskData.
  rewrite map_map. rewrite nth_error_map, Hnth. simpl.
  eexists; split; [reflexivity|]. unfold isTier.
  destruct (startsWith (tier b) "D"); simpl; [now repeat split|].
  destruct (startsWith (tier b) "C" && leb e zero); simpl; now repeat split.
Qed.

Lemma length_written dbData (e p : num) :
  List.length (finalRiskData (updatedRiskData dbData e p)) = List.length (riskData dbData).
Proof. unfold finalRiskData, updatedRiskData. now rewrite !length_map. Qed.

Lemma fold_left_map {A B C : Type} (f : A -> B -> A) (g : C -> B) (l : list C) (a : A) :
  fold_left f (map g l) a = fold_left (fun s c => f s (g c)) l a.
Proof. revert a. induction l as [|c l IH]; intros a; simpl; [reflexivity|apply IH]. Qed.

Lemma recalculateTotal_final (updated : list (RiskBucket num)) :
  recalculateTotal (finalRiskData updated) = recalculateTotal updated.
Proof.
  unfold recalculateTotal at 1. unfold finalRiskData.
  rewrite fold_left_map. reflexivity.
Qed.

Lemma percentage_final (updated : list (RiskBucket num)) b :
  In b (finalRiskData updated) ->
  percentage b =
  mul (div (exposure b) (recalculateTotal (finalRiskData updated))) hundred.
Proof.
  rewrite recalculateTotal_final. unfold finalRiskData at 1.
  intros Hin. apply in_map_iff in Hin. destruct Hin as (d & <- & _). reflexivity.
Qed.

(** *** The counts and the look-up of a tier *)

Lemma orZero_count (c : num) :
  c = zero \/ ltb zero c = true -> orZero (Some c) = c.
Proof.
  unfold orZero, orElse, truthy. intros [->|Hpos].
  - destruct (negb _); reflexivity.
  - now rewrite (pos_not_NaN c Hpos), (pos_not_le0 c Hpos).
Qed.

Lemma totalLoanCount_sum (l : list (RiskBucket num)) (acc : num) :
  (forall b, In b l -> exists c, count b = Some c /\ (c = zero \/ ltb zero c = true)) ->
  fold_left (fun a b => add a (orZero (count b))) l acc =
  fold_left add (map (fun b => match count b with Some n => n | None => zero end) l) acc.
Proof.
  revert acc. induction l as [|b l IH]; intros acc Hl; cbn [fold_left map];
    [reflexivity|].
  destruct (Hl b (or_introl eq_refl)) as (c & Hc & Hc0).
  rewrite Hc, (orZero_count c Hc0).
  apply IH. intros b' Hb'. apply Hl. now right.
Qed.

Lemma find_tier_spec (c : ascii) (l : list (RiskBucket num)) :
  find (fun d => startsWith (tier d) (String c "")) l = spec_bucketOfTier c l.
Proof.
  induction l as [|b l IH]; cbn [find spec_bucketOfTier]; [reflexivity|].
  unfold startsWith. destruct (tier b) as [|c' t]; cbn [String.prefix]; [exact IH|].
  destruct (ascii_dec c c') as [->|Hne].
  - rewrite Ascii.eqb_refl. now destruct t.
  - rewrite (proj2 (Ascii.eqb_neq c' c)) by congruence. exact IH.
Qed.

Lemma tierExposure_spec (c : ascii) dbData :
  tierExposure (String c "") dbData = spec_tierExposure c dbData.
Proof. unfold tierExposure, spec_tierExposure. now rewrite find_tier_spec. Qed.

(** *** Validation *)

(** C1: for an amount with 0 < amount <= Tier-D exposure and a store
    that accepts the write, the handler replaces the document by one
    whose Tier-D exposure is the old one minus the amount; the list of
    buckets keeps its length and every bucket that is not a Tier-D
    bucket keeps its tier and its exposure. *)
Theorem divestment_reduces_tier_D dbData userId w :
  ltb zero (enteredAmount w) = true ->
  leb (enteredAmount w) (tierExposure "D" dbData) = true ->
  online (store w) = true ->
  exists d',
    document (store (handleSimulateDivestment dbData userId w)) = Some d' /\
    error (ui (handleSimulateDivestment dbData userId w)) = NoError /\
    tierExposure "D" d' = sub (tierExposure "D" dbData) (enteredAmount w) /\
    List.length (riskData d') = List.length (riskData dbData) /\
    forall i b, nth_error (riskData dbData) i = Some b -> isTier "D" b = false ->
      exists b', nth_error (riskData d') i = Some b' /\
                 tier b' = tier b /\ exposure b' = exposure b.
Proof.
  intros Hpos Hle Hon.
  destruct (handler_valid dbData userId w Hpos Hle Hon) as [Hdoc Herr].
  eexists; split; [exact Hdoc|]. split; [exact Herr|].
  unfold writtenDocument. cbv zeta. cbn [riskData]. split; [|split].
  - rewrite tierExposure_find. cbn [riskData]. rewrite find_tier_written.
    destruct (find (isTier "D") (riskData dbData)) as [d|] eqn:Hfind; simpl.
    + apply find_some in Hfind. destruct Hfind as [_ HD]. now rewrite HD.
    + exfalso. rewrite tierExposure_find, Hfind in Hle.
      rewrite (pos_not_le0 _ Hpos) in Hle. discriminate.
  - apply length_written.
  - intros i b Hnth HD.
    match goal with
    | |- context [updatedRiskData dbData ?e ?p] =>
        destruct (nth_written dbData e p i b Hnth) as (b' & Hb' & Ht & _ & _ & He)
    end.
    exists b'. rewrite HD in He. now repeat split.
Qed.


(** C3, as amended: an amount that parses to NaN, to zero or to a
    negative number (negative infinity included) is rejected with
    [InvalidAmount] whatever the snapshot is, before the Tier-D
    exposure is looked at; nothing but the error changes. *)
Theorem invalid_amount_rejected dbData userId w :
  isNaN (enteredAmount w) = true \/ leb (enteredAmount w) zero = true ->
  handleSimulateDivestment dbData userId w = setError InvalidAmount w /\
  store (handleSimulateDivestment dbData userId w) = store w.
Proof.
  intros Hbad.
  assert (Hor : isNaN (enteredAmount w) || leb (enteredAmount w) zero = true)
    by (destruct Hbad as [-> | ->]; [reflexivity|apply orb_true_r]).
  rewrite (handler_invalid dbData userId w Hor). now split.
Qed.


(** *** The written document *)

(** C5, as amended: the sum of the bucket exposures of the new
    document is recomputed and is the denominator of each of its
    percentages, but it is not stored: the fields [totalExposure] and
    [initialTierDTarget] of the written document are those of the
    document the handler was given. *)
Theorem stored_total_is_kept dbData userId w :
  ltb zero (enteredAmount w) = true ->
  leb (enteredAmount w) (tierExposure "D" dbData) = true ->
  online (store w) = true ->
  exists d',
    document (store (handleSimulateDivestment dbData userId w)) = Some d' /\
    totalExposure d' = totalExposure dbData /\
    initialTierDTarget d' = initialTierDTarget dbData /\
    forall b, In b (riskData d') ->
      percentage b = mul (div (exposure b) (recalculateTotal (riskData d'))) hundred.
Proof.
  intros Hpos Hle Hon.
  destruct (handler_valid dbData userId w Hpos Hle Hon) as [Hdoc _].
  eexists; split; [exact Hdoc|]. unfold writtenDocument; cbv zeta.
  cbn [totalExposure initialTierDTarget riskData].
  split; [reflexivity|]. split; [reflexivity|].
  intros b. apply percentage_final.
Qed.

(** C8: two runs on the same document and user, with the same text in
    the amount field and the same two readings of the clock, hand the
    same documents to [setDoc], whatever the error shown, the updating
    flag, the content of the store and its availability are; stores
    that accept the write then hold the same document. *)
Theorem written_document_deterministic dbData userId w1 w2 :
  divestmentAmount (ui w1) = divestmentAmount (ui w2) ->
  clock w1 (ticks w1) = clock w2 (ticks w2) ->
  clock w1 (S (ticks w1)) = clock w2 (S (ticks w2)) ->
  exists ds,
    writes (store (handleSimulateDivestment dbData userId w1))
      = (writes (store w1) ++ ds)%list /\
    writes (store (handleSimulateDivestment dbData userId w2))
      = (writes (store w2) ++ ds)%list /\
    forall d', In d' ds ->
      online (store w1) = true -> online (store w2) = true ->
      document (store (handleSimulateDivestment dbData userId w1)) = Some d' /\
      document (store (handleSimulateDivestment dbData userId w2)) = Some d'.
Proof.
  intros Hamount Hnow1 Hnow2.
  assert (Ha : enteredAmount w1 = enteredAmount w2)
    by (unfold enteredAmount; now rewrite Hamount).
  destruct (isNaN (enteredAmount w1) || leb (enteredAmount w1) zero) eqn:Hcheck1.
  - exists []. rewrite !handler_invalid by (rewrite <- ?Ha; exact Hcheck1).
    cbn [setError store]. rewrite !app_nil_r. repeat split; contradiction.
  - destruct (ltb (tierExposure "D" dbData) (enteredAmount w1)) eqn:Hcheck2.
    + exists []. rewrite !handler_exceeds by (rewrite <- ?Ha; assumption).
      cbn [setError store]. rewrite !app_nil_r. repeat split; contradiction.
    + exists [writtenDocument dbData userId (enteredAmount w1)
                              (clock w1 (ticks w1)) (clock w1 (S (ticks w1)))].
      rewrite (handler_commit dbData userId w1 Hcheck1 Hcheck2).
      rewrite (handler_commit dbData userId w2) by (rewrite <- ?Ha; assumption).
      cbn [store writes document].
      rewrite <- Ha, <- Hnow1, <- Hnow2. split; [reflexivity|]. split; [reflexivity|].
      intros d' [<- | []] -> ->. now split.
Qed.

(** C9: the branch taken for Tier C once Tier D is down to zero copies
    the bucket field by field, so the update of [riskData] is the one
    that touches the Tier-D bucket only. *)
Theorem tier_C_branch_changes_nothing dbData (newTierDExposure newTierDPercentage : num) :
  updatedRiskData dbData newTierDExposure newTierDPercentage =
  updateTierDOnly dbData newTierDExposure newTierDPercentage.
Proof.
  unfold updatedRiskData, updateTierDOnly. apply map_ext. intros d.
  destruct (startsWith (tier d) "D"); [reflexivity|].
  destruct (startsWith (tier d) "C" && leb newTierDExposure zero); [|reflexivity].
  destruct d; reflexivity.
Qed.

(** *** Derived metrics *)

(** C6: on every document of the data model, where each bucket has
    a count that is 0 or a positive number, the projection
    [calculatedMetrics] returns the values the specification
    describes: the exposure of Tier D, the progress made, its
    percentage capped at 100 (0 without a target), the exposure of
    Tiers D and C together and the sum of the counts. *)
Theorem calculatedMetrics_meets_spec dbData :
  countsPresent dbData ->
  calculatedMetrics (Some dbData) =
  Some {| currentTierDExposure := spec_tierExposure "D" dbData;
          progressMade := spec_progressMade dbData;
          progressPercentage := spec_progressPercentage dbData;
          highRiskExposure := spec_highRiskExposure dbData;
          totalLoanCount := spec_totalLoanCount dbData |}.
Proof.
  intros Hcounts.
  unfold calculatedMetrics, spec_progressMade, spec_progressPercentage,
    spec_highRiskExposure, spec_totalLoanCount.
  rewrite (totalLoanCount_sum _ _ Hcounts).
  change "D" with (String "D"%char "") at 1 2 3 4.
  change "C" with (String "C"%char "").
  rewrite !tierExposure_spec.
  destruct (ltb zero (initialTierDTarget dbData)); [reflexivity|].
  now rewrite min_100_0.
Qed.

End Handler.

(** ** Rounding in binary64

    The error of one addition, multiplication or division of
    non-negative binary64 numbers, read off the specification
    [SpecFloat] of the primitive floats: the shifts of the mantissa
    ([shr]), the choice of the nearest mantissa
    ([round_nearest_even]) and the result of [binary_round_aux].  An
    addition has a relative error of at most [u64]; a product or a
    quotient has, in addition, an absolute error of at most [eta64]
    when it is subnormal; a result that overflows comes from an exact
    value of at least [2^1023]. *)

(** *** The shifts of a mantissa *)

Lemma inject_xO p : (inject_Z (Zpos p~0) == 2 * inject_Z (Zpos p))%Q.
Proof. rewrite Pos2Z.inj_xO, inject_Z_mult. reflexivity. Qed.

Lemma inject_xI p : (inject_Z (Zpos p~1) == 2 * inject_Z (Zpos p) + 1)%Q.
Proof. rewrite Pos2Z.inj_xI, inject_Z_plus, inject_Z_mult. reflexivity. Qed.

Lemma shr_1_Rep mrs y : Rep mrs y -> Rep (shr_1 mrs) (y * (1 # 2)).
Proof.
  destruct mrs as [m r s]. unfold Rep. cbn [shr_m shr_r shr_s].
  intros [Hm Hy].
  destruct m as [|[p|p|]|p]; [| | | |lia];
    cbn [shr_1 shr_m shr_r shr_s]; (split; [lia|]);
    try pose proof (inject_xO p) as HpO; try pose proof (inject_xI p) as HpI;
    change (inject_Z 0) with 0%Q in *; change (inject_Z 1) with 1%Q in *;
    destruct r, s; cbn [orb]; lra.
Qed.

Lemma shr_1_m mrs : (0 <= shr_m mrs) -> shr_m (shr_1 mrs) = shr_m mrs / 2.
Proof.
  destruct mrs as [m r s]. cbn [shr_m]. intros Hm. rewrite <- Z.div2_div.
  destruct m as [|[p|p|]|p]; try reflexivity. lia.
Qed.

Lemma bpow_pos e : (0 < bpow e)%Q.
Proof. apply Qpower_0_lt. reflexivity. Qed.

Lemma bpow_add a b : (bpow (a + b) == bpow a * bpow b)%Q.
Proof. apply Qpower_plus. discriminate. Qed.

Lemma bpow_opp a : (bpow (- a) == / bpow a)%Q.
Proof. apply Qpower_opp. Qed.

Lemma bpow_1 : (bpow 1 == 2)%Q.
Proof. reflexivity. Qed.

Lemma bpow_inject e : 0 <= e -> (bpow e == inject_Z (2 ^ e))%Q.
Proof. intros He. unfold bpow. rewrite Zpower_Qpower by exact He. reflexivity. Qed.

Lemma bpow_le a b : a <= b -> (bpow a <= bpow b)%Q.
Proof.
  intros Hab. replace b with (a + (b - a)) by lia. rewrite bpow_add.
  assert (H1 : (1 <= bpow (b - a))%Q).
  { rewrite bpow_inject by lia. change 1%Q with (inject_Z 1).
    rewrite <- Zle_Qle. assert (0 < 2 ^ (b - a)) by (apply Z.pow_pos_nonneg; lia). lia. }
  pose proof (bpow_pos a). nra.
Qed.

Lemma Rep_ext mrs y y' : (y == y')%Q -> Rep mrs y -> Rep mrs y'.
Proof.
  intros E [Hm Hy]. split; [exact Hm|].
  destruct (shr_r mrs), (shr_s mrs); rewrite <- E; exact Hy.
Qed.

Lemma Rep_nonneg mrs y : Rep mrs y -> (0 <= shr_m mrs).
Proof. now intros [Hm _]. Qed.

Lemma iter_shr_spec p : forall mrs y,
  Rep mrs y ->
  Rep (iter_pos shr_1 p mrs) (y * bpow (- Zpos p)) /\
  shr_m (iter_pos shr_1 p mrs) = shr_m mrs / 2 ^ Zpos p.
Proof.
  assert (Hhalf : (bpow (- 1) == 1 # 2)%Q) by reflexivity.
  induction p as [p IH|p IH|]; intros mrs y Hy; cbn [iter_pos].
  - pose proof (shr_1_m mrs (Rep_nonneg _ _ Hy)) as Hm1.
    apply shr_1_Rep in Hy. destruct (IH _ _ Hy) as [Hy1 Hm2].
    destruct (IH _ _ Hy1) as [Hy2 Hm3]. split.
    + revert Hy2. apply Rep_ext.
      replace (- Zpos p~1) with (- 1 + (- Zpos p + - Zpos p)) by lia.
      rewrite !bpow_add, Hhalf. ring.
    + rewrite Hm3, Hm2, Hm1, !Z.div_div by (try apply Z.pow_pos_nonneg; lia).
      f_equal. rewrite <- Z.pow_add_r by lia. rewrite <- Z.pow_succ_r by lia.
      f_equal. lia.
  - destruct (IH _ _ Hy) as [Hy1 Hm2].
    destruct (IH _ _ Hy1) as [Hy2 Hm3]. split.
    + revert Hy2. apply Rep_ext.
      replace (- Zpos p~0) with (- Zpos p + - Zpos p) by lia.
      rewrite !bpow_add. ring.
    + rewrite Hm3, Hm2, !Z.div_div by (try apply Z.pow_pos_nonneg; lia).
      f_equal. rewrite <- Z.pow_add_r by lia. f_equal. lia.
  - split.
    + apply shr_1_Rep in Hy. revert Hy. apply Rep_ext. change (bpow (- 1)) with (1 # 2)%Q. reflexivity.
    + apply shr_1_m. exact (Rep_nonneg _ _ Hy).
Qed.

Lemma shr_spec mrs e n y :
  0 <= n -> Rep mrs y ->
  Rep (fst (shr mrs e n)) (y * bpow (- n)) /\
  snd (shr mrs e n) = e + n /\
  shr_m (fst (shr mrs e n)) = shr_m mrs / 2 ^ n.
Proof.
  intros Hn Hy. destruct n as [|p|p]; [| |lia]; cbn [shr fst snd].
  - split; [|split; [lia|]].
    + revert Hy. apply Rep_ext. change (bpow (- 0)) with 1%Q. ring.
    + now rewrite Z.div_1_r.
  - destruct (iter_shr_spec p _ _ Hy) as [H1 H2]. now split; [|split].
Qed.

Lemma shr_nop mrs e n : n <= 0 -> shr mrs e n = (mrs, e).
Proof. intros Hn. destruct n as [|p|p]; try reflexivity. lia. Qed.

(** *** The number of binary digits *)

Lemma digits2_pos_bounds p :
  2 ^ (Zpos (digits2_pos p) - 1) <= Zpos p < 2 ^ Zpos (digits2_pos p).
Proof.
  induction p as [p IH|p IH|]; cbn [digits2_pos].
  - rewrite Pos2Z.inj_succ.
    replace (Z.succ (Zpos (digits2_pos p)) - 1) with (Z.succ (Zpos (digits2_pos p) - 1)) by lia.
    rewrite !Z.pow_succ_r by lia. lia.
  - rewrite Pos2Z.inj_succ.
    replace (Z.succ (Zpos (digits2_pos p)) - 1) with (Z.succ (Zpos (digits2_pos p) - 1)) by lia.
    rewrite !Z.pow_succ_r by lia. lia.
  - simpl. lia.
Qed.

Lemma Zdigits2_nonneg m : 0 <= Zdigits2 m.
Proof. destruct m; simpl; lia. Qed.

Lemma Zdigits2_upper m : 0 <= m -> m < 2 ^ Zdigits2 m.
Proof.
  intros Hm. destruct m as [|p|p]; [simpl; lia| |lia].
  apply digits2_pos_bounds.
Qed.

Lemma Zdigits2_lower m : 0 < m -> 2 ^ (Zdigits2 m - 1) <= m.
Proof.
  intros Hm. destruct m as [|p|p]; try lia. apply digits2_pos_bounds.
Qed.

Lemma Zdigits2_le m k : 0 <= k -> 0 <= m < 2 ^ k -> Zdigits2 m <= k.
Proof.
  intros Hk [Hm Hlt]. destruct (Z.eq_dec m 0) as [->|Hne]; [simpl; lia|].
  pose proof (Zdigits2_lower m ltac:(lia)) as Hlo.
  pose proof (Zdigits2_nonneg m).
  destruct (Z_le_gt_dec (Zdigits2 m) k) as [|Hgt]; [assumption|].
  assert (2 ^ k <= 2 ^ (Zdigits2 m - 1)) by (apply Z.pow_le_mono_r; lia). lia.
Qed.

Lemma Zdigits2_ge m k : 2 ^ k <= m -> k + 1 <= Zdigits2 m.
Proof.
  intros Hle.
  destruct (Z_lt_le_dec k 0) as [Hk|Hk]; [pose proof (Zdigits2_nonneg m); lia|].
  assert (0 < 2 ^ k) by (apply Z.pow_pos_nonneg; lia).
  pose proof (Zdigits2_upper m ltac:(lia)) as Hup.
  pose proof (Zdigits2_nonneg m).
  destruct (Z_le_gt_dec (k + 1) (Zdigits2 m)) as [|Hgt]; [assumption|].
  assert (2 ^ Zdigits2 m <= 2 ^ k) by (apply Z.pow_le_mono_r; lia). lia.
Qed.

(** *** The nearest mantissa and [binary_round_aux] *)

Lemma round_nearest_even_spec mrs y :
  Rep mrs y ->
  let N := round_nearest_even (shr_m mrs) (loc_of_shr_record mrs) in
  (N = shr_m mrs \/ N = shr_m mrs + 1) /\
  (inject_Z N - (1 # 2) <= y <= inject_Z N + (1 # 2))%Q /\
  (shr_r mrs = false -> shr_s mrs = false -> (y == inject_Z N)%Q).
Proof.
  destruct mrs as [m r s]. intros [Hm Hy]. cbn [shr_m shr_r shr_s] in *.
  assert (H1 : (inject_Z (m + 1) == inject_Z m + 1)%Q)
    by (rewrite inject_Z_plus; reflexivity).
  destruct r, s; cbn [loc_of_shr_record round_nearest_even];
    try (destruct (Z.even m)); cbv zeta;
    (split; [lia|]); (split; [rewrite ?H1; lra|]); intros; try discriminate;
    lra.
Qed.

Lemma shr_m_of_loc m l : shr_m (shr_record_of_loc m l) = m.
Proof. destruct l as [|[]]; reflexivity. Qed.

Lemma fexp_eq e : fexp prec emax e = Z.max (e - 53) (-1074).
Proof. reflexivity. Qed.

Lemma Rep_exact m y : Rep (shr_record_of_loc m loc_Exact) y -> (y == inject_Z m)%Q.
Proof. intros [_ H]. exact H. Qed.

Lemma second_shift N e1 :
  0 <= N <= 2 ^ 53 -> -1074 <= e1 ->
  exists mrs2 e2,
    shr_fexp prec emax N e1 loc_Exact = (mrs2, e2) /\
    (inject_Z (shr_m mrs2) * bpow e2 == inject_Z N * bpow e1)%Q /\
    0 <= shr_m mrs2 /\
    (e2 = e1 \/ e2 = e1 + 1 /\ N = 2 ^ 53) /\
    (2 ^ 52 <= N -> 2 ^ 52 <= shr_m mrs2).
Proof.
  intros HN He1. unfold shr_fexp.
  destruct (Z_lt_le_dec N (2 ^ 53)) as [Hlt|Hge].
  - assert (HdN : Zdigits2 N <= 53) by (apply Zdigits2_le; lia).
    rewrite shr_nop by (rewrite fexp_eq; lia).
    eexists _, _. split; [reflexivity|]. cbn [shr_m shr_record_of_loc].
    split; [reflexivity|]. split; [lia|]. split; [now left|]. trivial.
  - assert (HNeq : N = 2 ^ 53) by lia. rewrite HNeq.
    replace (fexp prec emax (Zdigits2 (2 ^ 53) + e1) - e1) with 1
      by (rewrite fexp_eq; change (Zdigits2 (2 ^ 53)) with 54; lia).
    exists {| shr_m := 2 ^ 52; shr_r := false; shr_s := false |}, (e1 + 1).
    split; [reflexivity|]. cbn [shr_m]. split.
    + rewrite bpow_add. change (bpow 1) with 2%Q.
      assert (E : (inject_Z (2 ^ 53) == 2 * inject_Z (2 ^ 52))%Q)
        by (vm_compute; reflexivity).
      rewrite E. ring.
    + split; [lia|]. split; [right; split; [reflexivity|lia]|]. lia.
Qed.

Lemma round_aux_spec s mx ex lx y :
  Rep (shr_record_of_loc mx lx) y ->
  ex <= fexp prec emax (Zdigits2 mx + ex) ->
  (binary_round_aux prec emax s mx ex lx = S754_infinity s /\
   (bpow 1023 <= y * bpow ex)%Q) \/
  ((binary_round_aux prec emax s mx ex lx = S754_zero s \/
    exists m e, binary_round_aux prec emax s mx ex lx = S754_finite s m e) /\
   ((Qabs (SFmag (binary_round_aux prec emax s mx ex lx) - y * bpow ex)
       <= u64 * (y * bpow ex))%Q \/
    ((Qabs (SFmag (binary_round_aux prec emax s mx ex lx) - y * bpow ex) <= eta64)%Q /\
     (ex < -1074 \/ lx <> loc_Exact)))).
Proof.
  intros Hy Hn.
  pose proof (Rep_nonneg _ _ Hy) as Hmx. rewrite shr_m_of_loc in Hmx.
  unfold binary_round_aux, shr_fexp.
  set (n1 := fexp prec emax (Zdigits2 mx + ex) - ex).
  assert (Hn1 : 0 <= n1) by (unfold n1; lia).
  destruct (shr_spec (shr_record_of_loc mx lx) ex n1 y Hn1 Hy) as (Hy1 & He1 & Hm1).
  destruct (shr (shr_record_of_loc mx lx) ex n1) as [mrs1 e1] eqn:Hshr.
  cbn [fst snd] in *. rewrite shr_m_of_loc in Hm1.
  destruct (round_nearest_even_spec mrs1 _ Hy1) as (HN & HNy & HNex).
  set (N := round_nearest_even (shr_m mrs1) (loc_of_shr_record mrs1)) in *.
  set (m1 := shr_m mrs1) in *.
  pose proof (Zdigits2_nonneg mx) as Hd0.
  pose proof (Zdigits2_upper mx Hmx) as Hdu.
  set (d := Zdigits2 mx) in *.
  assert (He1' : e1 = Z.max (d + ex - 53) (-1074))
    by (rewrite He1; unfold n1; rewrite fexp_eq; lia).
  assert (Hpow : forall a b, 0 <= a -> 0 <= b -> 2 ^ (a + b) = 2 ^ a * 2 ^ b)
    by (intros; apply Z.pow_add_r; lia).
  assert (Hpos : forall a, 0 <= a -> 0 < 2 ^ a)
    by (intros; apply Z.pow_pos_nonneg; lia).
  assert (Hm1lo : 0 <= m1).
  { rewrite Hm1. apply Z.div_pos; [lia|]. apply Hpos; lia. }
  assert (F2 : m1 < 2 ^ 53).
  { rewrite Hm1. apply Z.div_lt_upper_bound; [apply Hpos; lia|].
    rewrite <- Hpow by lia.
    apply Z.lt_le_trans with (1 := Hdu). apply Z.pow_le_mono_r; lia. }
  assert (F3 : -1074 < e1 -> 2 ^ 52 <= m1).
  { intros Hnorm. assert (Hd53 : 53 <= d) by lia.
    assert (Hmxpos : 0 < mx).
    { destruct (Z.eq_dec mx 0) as [E|E]; [|lia]. subst mx. unfold d in Hd53.
      simpl in Hd53. lia. }
    pose proof (Zdigits2_lower mx Hmxpos) as Hdl. fold d in Hdl.
    rewrite Hm1. apply Z.div_le_lower_bound; [apply Hpos; lia|].
    rewrite <- Hpow by lia. replace (n1 + 52) with (d - 1) by lia. exact Hdl. }
  (* the exact value at the scale of [e1] *)
  assert (Hx : (y * bpow ex == (y * bpow (- n1)) * bpow e1)%Q).
  { rewrite He1. rewrite (bpow_add ex n1). rewrite bpow_opp.
    field. pose proof (bpow_pos n1). lra. }
  set (y1 := (y * bpow (- n1))%Q) in *.
  assert (Hy1lo : (inject_Z m1 <= y1)%Q).
  { destruct Hy1 as [_ Hy1]. fold m1 in Hy1.
    destruct (shr_r mrs1), (shr_s mrs1); lra. }
  pose proof (bpow_pos e1) as HB.
  destruct (second_shift N e1 ltac:(lia) ltac:(lia))
    as (mrs2 & e2 & Hshr2 & Hval & Hm2 & He2 & Hnorm2).
  unfold shr_fexp in Hshr2. rewrite Hshr2.
  assert (HNy' : (Qabs (inject_Z N - y1) <= 1 # 2)%Q)
    by (apply Qabs_case; intros _; lra).
  assert (Herr : (Qabs (inject_Z N * bpow e1 - y1 * bpow e1) <= (1 # 2) * bpow e1)%Q).
  { setoid_replace (inject_Z N * bpow e1 - y1 * bpow e1)%Q
      with ((inject_Z N - y1) * bpow e1)%Q by ring.
    rewrite Qabs_Qmult, (Qabs_pos (bpow e1)) by lra.
    apply Qmult_le_compat_r; lra. }
  assert (HE :
    (Qabs (inject_Z N * bpow e1 - y * bpow ex) <= u64 * (y * bpow ex))%Q \/
    ((Qabs (inject_Z N * bpow e1 - y * bpow ex) <= eta64)%Q /\
     (ex < -1074 \/ lx <> loc_Exact))).
  { rewrite Hx. destruct (Z_lt_le_dec (-1074) e1) as [Hnorm|Hsub].
    - left. apply Qle_trans with (1 := Herr).
      assert (H52 : (inject_Z (2 ^ 52) <= y1)%Q).
      { apply Qle_trans with (2 := Hy1lo). rewrite <- Zle_Qle. now apply F3. }
      assert (Hu : (u64 * inject_Z (2 ^ 52) == 1 # 2)%Q) by (vm_compute; reflexivity).
      assert (Hu0 : (0 < u64)%Q) by apply bpow_pos.
      setoid_replace (u64 * (y1 * bpow e1))%Q with ((u64 * y1) * bpow e1)%Q by ring.
      apply Qmult_le_compat_r; [|lra].
      rewrite <- Hu. apply Qmult_le_l; [exact Hu0|exact H52].
    - assert (He1m : e1 = -1074) by lia.
      assert (Heta : ((1 # 2) * bpow e1 == eta64)%Q)
        by (rewrite He1m; vm_compute; reflexivity).
      destruct (Z.eq_dec n1 0) as [Hn0|Hn0]; [|right; split; [now rewrite <- Heta|lia]].
      destruct lx as [|c]; [|right; split; [now rewrite <- Heta|right; discriminate]].
      left. rewrite Hn0 in Hshr. cbn [shr] in Hshr. injection Hshr as <- _.
      rewrite (HNex eq_refl eq_refl).
      setoid_replace (inject_Z N * bpow e1 - inject_Z N * bpow e1)%Q with 0%Q by ring.
      cbn [Qabs Z.abs Qnum Qden]. apply Qmult_le_0_compat; [apply Qlt_le_weak, bpow_pos|].
      apply Qmult_le_0_compat; [|lra].
      change 0%Q with (inject_Z 0). rewrite <- Zle_Qle.
      destruct HN; lia. }
  destruct (shr_m mrs2) as [|m|m] eqn:Hm2eq; [| |lia].
  - right. split; [now left|]. cbn [SFmag].
    change (inject_Z 0) with 0%Q in Hval.
    assert (E0 : (0 == inject_Z N * bpow e1)%Q) by (rewrite <- Hval; ring).
    rewrite E0. exact HE.
  - destruct (Z.leb_spec e2 (emax - prec)) as [Hle|Hgt].
    + right. split; [right; now eexists _, _|]. cbn [SFmag]. rewrite Hval. exact HE.
    + left. split; [reflexivity|]. rewrite Hx.
      change (emax - prec) with 971 in Hgt.
      assert (He971 : 971 <= e1) by lia.
      assert (H52 : (inject_Z (2 ^ 52) <= y1)%Q).
      { apply Qle_trans with (2 := Hy1lo). rewrite <- Zle_Qle. apply F3. lia. }
      assert (Hb : (bpow 1023 == inject_Z (2 ^ 52) * bpow 971)%Q)
        by (vm_compute; reflexivity).
      rewrite Hb. pose proof (bpow_le 971 e1 He971) as Hb2.
      pose proof (bpow_pos 971) as Hb3.
      apply Qle_trans with (inject_Z (2 ^ 52) * bpow e1)%Q.
      * apply Qmult_le_l; [reflexivity|exact Hb2].
      * apply Qmult_le_compat_r; [exact H52|lra].
Qed.

(** *** Valid mantissas and the alignment of exponents *)

Lemma bounded_inv m e :
  bounded prec emax m e = true ->
  -1074 <= e <= 971 /\ Zpos (digits2_pos m) <= 53 /\
  (-1074 < e -> Zpos (digits2_pos m) = 53).
Proof.
  unfold bounded, canonical_mantissa. rewrite fexp_eq.
  intros H. apply andb_prop in H. destruct H as [H1 H2].
  apply Z.eqb_eq in H1. apply Z.leb_le in H2.
  change (emax - prec) with 971 in H2. lia.
Qed.

Lemma iter_xO m d :
  Zpos (Pos.iter xO m d) = Zpos m * 2 ^ Zpos d /\
  Zpos (digits2_pos (Pos.iter xO m d)) = Zpos (digits2_pos m) + Zpos d.
Proof.
  induction d as [|d [IH1 IH2]] using Pos.peano_ind.
  - cbn [Pos.iter digits2_pos]. split; [lia|]. rewrite Pos2Z.inj_succ. lia.
  - rewrite Pos.iter_succ. cbn [digits2_pos]. rewrite !Pos2Z.inj_succ.
    split.
    + change (Zpos (Pos.iter xO m d)~0) with (2 * Zpos (Pos.iter xO m d)).
      rewrite IH1, Z.pow_succ_r by lia. ring.
    + lia.
Qed.

Lemma shl_align_spec mx ex ex' :
  snd (shl_align mx ex ex') = Z.min ex ex' /\
  Zpos (fst (shl_align mx ex ex')) = Zpos mx * 2 ^ (ex - Z.min ex ex') /\
  Zpos (digits2_pos (fst (shl_align mx ex ex'))) + snd (shl_align mx ex ex')
    = Zpos (digits2_pos mx) + ex.
Proof.
  unfold shl_align. destruct (ex' - ex) as [|d|d] eqn:Hd; cbn [fst snd].
  - replace (Z.min ex ex') with ex by lia. rewrite Z.sub_diag. simpl. lia.
  - replace (Z.min ex ex') with ex by lia. rewrite Z.sub_diag. simpl. lia.
  - replace (Z.min ex ex') with ex' by lia.
    destruct (iter_xO mx d) as [H1 H2]. rewrite H1, H2.
    replace (ex - ex') with (Zpos d) by lia. lia.
Qed.

Lemma F2Q_pos m e : (0 < F2Q m e)%Q.
Proof.
  unfold F2Q. apply Qmult_lt_0_compat; [|apply bpow_pos].
  change 0%Q with (inject_Z 0). rewrite <- Zlt_Qlt. lia.
Qed.

Lemma shl_align_value mx ex ex' :
  (inject_Z (Zpos (fst (shl_align mx ex ex'))) * bpow (Z.min ex ex') == F2Q mx ex)%Q.
Proof.
  destruct (shl_align_spec mx ex ex') as (_ & H & _). rewrite H. unfold F2Q.
  rewrite inject_Z_mult, <- bpow_inject by lia.
  rewrite <- Qmult_assoc, <- bpow_add.
  replace (ex - Z.min ex ex' + Z.min ex ex') with ex by lia. reflexivity.
Qed.

(** [binary_round] on a positive integer mantissa: only the relative
    error, as long as the exponent is not below the smallest one. *)
Lemma binary_round_spec s m e :
  -1074 <= e ->
  (binary_round prec emax s m e = S754_infinity s /\ (bpow 1023 <= F2Q m e)%Q) \/
  ((binary_round prec emax s m e = S754_zero s \/
    exists m' e', binary_round prec emax s m e = S754_finite s m' e') /\
   (Qabs (SFmag (binary_round prec emax s m e) - F2Q m e) <= u64 * F2Q m e)%Q).
Proof.
  intros He. unfold binary_round.
  pose proof (shl_align_spec m e (fexp prec emax (Zpos (digits2_pos m) + e)))
    as (H1 & H2 & H3).
  pose proof (shl_align_value m e (fexp prec emax (Zpos (digits2_pos m) + e))) as Hv.
  destruct (shl_align m e (fexp prec emax (Zpos (digits2_pos m) + e))) as [mz ez].
  cbn [fst snd] in *. rewrite <- H1 in Hv.
  assert (Hrep : Rep (shr_record_of_loc (Zpos mz) loc_Exact) (inject_Z (Zpos mz))).
  { split; [cbn; lia|]. cbn. reflexivity. }
  assert (Hcond : ez <= fexp prec emax (Zdigits2 (Zpos mz) + ez)).
  { cbn [Zdigits2]. rewrite H3, H1. lia. }
  destruct (round_aux_spec s (Zpos mz) ez loc_Exact _ Hrep Hcond)
    as [[Hinf Hbig]|[Hfin Herr]].
  - left. split; [exact Hinf|]. now rewrite <- Hv.
  - right. split; [exact Hfin|]. rewrite <- Hv.
    destruct Herr as [Herr|[_ [Hlow|Hne]]]; [exact Herr| |now elim Hne].
    rewrite fexp_eq in H1. lia.
Qed.

(** *** Sum, product and quotient of non-negative numbers *)

Lemma u64_pos : (0 < u64)%Q.
Proof. apply bpow_pos. Qed.

Lemma eta64_pos : (0 < eta64)%Q.
Proof. apply bpow_pos. Qed.

Lemma SFmag_nonneg x : (0 <= SFmag x)%Q.
Proof.
  destruct x as [| | |s m e]; cbn [SFmag]; try lra.
  apply Qlt_le_weak, F2Q_pos.
Qed.

Lemma exact_err r q : (r == q)%Q -> (0 <= q)%Q -> (Qabs (r - q) <= u64 * q)%Q.
Proof.
  intros E Hq. setoid_replace (r - q)%Q with 0%Q by (rewrite E; ring).
  cbn [Qabs Z.abs Qnum Qden]. apply Qmult_le_0_compat; [apply Qlt_le_weak, u64_pos|exact Hq].
Qed.

Lemma SFadd_nn a b :
  nnf a -> nnf b ->
  (SFadd prec emax a b = S754_infinity false /\
   (bpow 1023 <= SFmag a + SFmag b)%Q) \/
  (nns (SFadd prec emax a b) /\
   (Qabs (SFmag (SFadd prec emax a b) - (SFmag a + SFmag b))
      <= u64 * (SFmag a + SFmag b))%Q).
Proof.
  destruct a as [sa| | |[|] ma ea]; try contradiction;
    destruct b as [sb| | |[|] mb eb]; try contradiction; intros Ha Hb.
  - right. split; [destruct sa, sb; exact I|].
    apply exact_err; [destruct sa, sb; cbn; ring|cbn; lra].
  - right. split; [exact I|]. cbn [SFadd SFmag].
    apply exact_err; [ring|]. pose proof (F2Q_pos mb eb). fold (F2Q mb eb). lra.
  - right. split; [exact I|]. cbn [SFadd SFmag].
    apply exact_err; [ring|]. pose proof (F2Q_pos ma ea). fold (F2Q ma ea). lra.
  - cbn [nnf] in Ha, Hb.
    destruct (bounded_inv _ _ Ha) as (Hea & _). destruct (bounded_inv _ _ Hb) as (Heb & _).
    cbn [SFadd SFmag cond_Zopp]. fold (F2Q ma ea) (F2Q mb eb).
    pose proof (shl_align_value ma ea (Z.min ea eb)) as Hva.
    pose proof (shl_align_value mb eb (Z.min ea eb)) as Hvb.
    rewrite (Z.min_r ea (Z.min ea eb)) in Hva by lia.
    rewrite (Z.min_r eb (Z.min ea eb)) in Hvb by lia.
    change (IntDef.Z.min ea eb) with (Z.min ea eb).
    set (ma' := fst (shl_align ma ea (Z.min ea eb))) in *.
    set (mb' := fst (shl_align mb eb (Z.min ea eb))) in *.
    change (Zpos ma' + Zpos mb') with (Zpos (ma' + mb')). cbn [binary_normalize].
    assert (Hsum : (F2Q (ma' + mb') (Z.min ea eb) == F2Q ma ea + F2Q mb eb)%Q).
    { unfold F2Q at 1. rewrite Pos2Z.inj_add, inject_Z_plus, <- Hva, <- Hvb. ring. }
    destruct (binary_round_spec false (ma' + mb') (Z.min ea eb) ltac:(lia))
      as [[Hinf Hbig]|[Hfin Herr]].
    + left. split; [exact Hinf|]. now rewrite <- Hsum.
    + right. split.
      * destruct Hfin as [->|(m' & e' & ->)]; exact I.
      * now rewrite <- Hsum.
Qed.

Lemma digits_mul ma mb :
  Zpos (digits2_pos ma) + Zpos (digits2_pos mb) - 1 <= Zpos (digits2_pos (ma * mb)).
Proof.
  pose proof (digits2_pos_bounds ma) as [Ha _].
  pose proof (digits2_pos_bounds mb) as [Hb _].
  assert (H : 2 ^ (Zpos (digits2_pos ma) - 1 + (Zpos (digits2_pos mb) - 1)) <= Zpos (ma * mb)).
  { rewrite Z.pow_add_r by lia. rewrite Pos2Z.inj_mul.
    apply Z.mul_le_mono_nonneg; try lia; apply Z.pow_nonneg; lia. }
  apply Zdigits2_ge in H. cbn [Zdigits2] in H. lia.
Qed.

Lemma SFmul_nn a b :
  nnf a -> nnf b ->
  (SFmul prec emax a b = S754_infinity false /\
   (bpow 1023 <= SFmag a * SFmag b)%Q) \/
  (nns (SFmul prec emax a b) /\
   (Qabs (SFmag (SFmul prec emax a b) - SFmag a * SFmag b)
      <= u64 * (SFmag a * SFmag b) + eta64)%Q).
Proof.
  assert (Hz : forall q, (q == 0)%Q -> (Qabs (0 - q) <= u64 * q + eta64)%Q).
  { intros q Hq. rewrite Hq. setoid_replace (0 - 0)%Q with 0%Q by ring.
    cbn [Qabs Z.abs Qnum Qden]. pose proof eta64_pos. lra. }
  destruct a as [sa| | |[|] ma ea]; try contradiction;
    destruct b as [sb| | |[|] mb eb]; try contradiction; intros Ha Hb;
    try (right; split; [exact I|]; cbn [SFmul SFmag]; apply Hz; ring).
  cbn [nnf] in Ha, Hb.
  destruct (bounded_inv _ _ Ha) as (Hea & Hda & Hna).
  destruct (bounded_inv _ _ Hb) as (Heb & Hdb & Hnb).
  cbn [SFmul SFmag xorb]. fold (F2Q ma ea) (F2Q mb eb).
  assert (Hrep : Rep (shr_record_of_loc (Zpos (ma * mb)) loc_Exact)
                     (inject_Z (Zpos (ma * mb)))).
  { split; [cbn; lia|]. cbn. reflexivity. }
  assert (Hcond : ea + eb <= fexp prec emax (Zdigits2 (Zpos (ma * mb)) + (ea + eb))).
  { cbn [Zdigits2]. rewrite fexp_eq. pose proof (digits_mul ma mb).
    pose proof (digits2_pos_bounds ma). pose proof (digits2_pos_bounds mb).
    destruct (Z_lt_le_dec (-1074) ea); destruct (Z_lt_le_dec (-1074) eb); lia. }
  assert (Hval : (inject_Z (Zpos (ma * mb)) * bpow (ea + eb) == F2Q ma ea * F2Q mb eb)%Q).
  { unfold F2Q. rewrite Pos2Z.inj_mul, inject_Z_mult, bpow_add. ring. }
  destruct (round_aux_spec false (Zpos (ma * mb)) (ea + eb) loc_Exact _ Hrep Hcond)
    as [[Hinf Hbig]|[Hfin Herr]].
  - left. split; [exact Hinf|]. now rewrite <- Hval.
  - right. split.
    + destruct Hfin as [->|(m' & e' & ->)]; exact I.
    + rewrite <- Hval. pose proof eta64_pos. pose proof u64_pos.
      assert (0 <= inject_Z (Zpos (ma * mb)) * bpow (ea + eb))%Q
        by (rewrite Hval; apply Qlt_le_weak, Qmult_lt_0_compat; apply F2Q_pos).
      destruct Herr as [Herr|[Herr _]]; nra.
Qed.

Lemma Qdiv_lt_half a b : (0 < b)%Q -> (2 * a < b)%Q -> (a / b < 1 # 2)%Q.
Proof.
  intros Hb H. apply Qlt_shift_div_r; [exact Hb|]. lra.
Qed.

Lemma Qdiv_gt_half a b : (0 < b)%Q -> (b < 2 * a)%Q -> (1 # 2 < a / b)%Q.
Proof.
  intros Hb H. apply Qlt_shift_div_l; [exact Hb|]. lra.
Qed.

Lemma Qdiv_eq_half a b : (0 < b)%Q -> (2 * a == b)%Q -> (a / b == 1 # 2)%Q.
Proof.
  intros Hb H. rewrite <- H. field. lra.
Qed.

Lemma new_location_Rep nb k q :
  0 < nb -> 0 <= k < nb -> 0 <= q ->
  Rep (shr_record_of_loc q (new_location nb k))
      (inject_Z q + inject_Z k / inject_Z nb).
Proof.
  intros Hnb Hk Hq.
  assert (Hb : (0 < inject_Z nb)%Q)
    by (change 0%Q with (inject_Z 0); rewrite <- Zlt_Qlt; lia).
  assert (H2k : (2 * inject_Z k == inject_Z (2 * k))%Q)
    by (rewrite inject_Z_mult; reflexivity).
  assert (Hlt : (inject_Z k / inject_Z nb < 1)%Q).
  { apply Qlt_shift_div_r; [exact Hb|]. rewrite Qmult_1_l, <- Zlt_Qlt. lia. }
  assert (Hk0 : k <> 0 -> (0 < inject_Z k / inject_Z nb)%Q).
  { intros Hne. apply Qlt_shift_div_l; [exact Hb|]. rewrite Qmult_0_l.
    change 0%Q with (inject_Z 0). rewrite <- Zlt_Qlt. lia. }
  assert (HLt : 2 * k < nb -> (inject_Z k / inject_Z nb < 1 # 2)%Q).
  { intros H. apply Qdiv_lt_half; [exact Hb|]. rewrite H2k, <- Zlt_Qlt. exact H. }
  assert (HGt : nb < 2 * k -> (1 # 2 < inject_Z k / inject_Z nb)%Q).
  { intros H. apply Qdiv_gt_half; [exact Hb|]. rewrite H2k, <- Zlt_Qlt. exact H. }
  assert (HEq : 2 * k = nb -> (inject_Z k / inject_Z nb == 1 # 2)%Q).
  { intros H. apply Qdiv_eq_half; [exact Hb|]. rewrite H2k, H. reflexivity. }
  unfold Rep. rewrite shr_m_of_loc. split; [exact Hq|].
  unfold new_location.
  destruct (Z.even nb) eqn:Hev; unfold new_location_even, new_location_odd;
    (destruct (Z.eqb_spec k 0) as [Hk0'|Hk0'];
     [subst k; cbn [shr_record_of_loc shr_r shr_s];
      change (inject_Z 0) with 0%Q; field; lra|]);
    specialize (Hk0 Hk0').
  - destruct (Z.compare_spec (2 * k) nb) as [H|H|H];
      cbn [shr_record_of_loc shr_r shr_s].
    + pose proof (HEq H). lra.
    + specialize (HLt H). lra.
    + specialize (HGt H). lra.
  - assert (Hodd : 2 * k <> nb).
    { intros E. rewrite <- E in Hev. rewrite Z.even_mul in Hev. discriminate. }
    destruct (Z.compare_spec (2 * k + 1) nb) as [H|H|H];
      cbn [shr_record_of_loc shr_r shr_s].
    + specialize (HLt ltac:(lia)). lra.
    + specialize (HLt ltac:(lia)). lra.
    + specialize (HGt ltac:(lia)). lra.
Qed.

Lemma SFdiv_nn a mb eb :
  nnf a -> bounded prec emax mb eb = true ->
  (SFdiv prec emax a (S754_finite false mb eb) = S754_infinity false /\
   (bpow 1023 <= SFmag a / F2Q mb eb)%Q) \/
  (nns (SFdiv prec emax a (S754_finite false mb eb)) /\
   (Qabs (SFmag (SFdiv prec emax a (S754_finite false mb eb)) - SFmag a / F2Q mb eb)
      <= u64 * (SFmag a / F2Q mb eb) + eta64)%Q).
Proof.
  pose proof (F2Q_pos mb eb) as Hvb.
  destruct a as [sa| | |[|] ma ea]; try contradiction; intros Ha Hb.
  - right. split; [exact I|]. cbn [SFdiv SFmag].
    setoid_replace (0 / F2Q mb eb)%Q with 0%Q by (field; lra).
    pose proof eta64_pos. first [lra | apply Qabs_case; intros _; lra].
  - cbn [nnf] in Ha. pose proof (F2Q_pos ma ea) as Hva.
    cbn [SFdiv SFmag xorb]. fold (F2Q ma ea). unfold SFdiv_core_binary.
    cbn [Zdigits2].
    set (d1 := Zpos (digits2_pos ma)). set (d2 := Zpos (digits2_pos mb)).
    set (e' := IntDef.Z.min (fexp prec emax (d1 + ea - (d2 + eb))) (ea - eb)).
    assert (He' : e' = Z.min (Z.max (d1 + ea - (d2 + eb) - 53) (-1074)) (ea - eb))
      by reflexivity.
    set (s := ea - eb - e').
    assert (Hs : 0 <= s) by (unfold s; lia).
    set (m' := match s with
               | 0 => Zpos ma
               | Zpos _ => Z.shiftl (Zpos ma) s
               | Zneg _ => 0
               end).
    assert (Hm' : m' = Zpos ma * 2 ^ s).
    { unfold m'. destruct s as [|p|p]; [simpl; lia| |lia].
      now rewrite Z.shiftl_mul_pow2. }
    pose proof (Z_div_mod m' (Zpos mb) ltac:(lia)) as Hdiv.
    destruct (Z.div_eucl m' (Zpos mb)) as [q r]. destruct Hdiv as [Hqr Hr].
    assert (H2s : 0 < 2 ^ s) by (apply Z.pow_pos_nonneg; lia).
    assert (Hq : 0 <= q) by nia.
    pose proof (new_location_Rep (Zpos mb) r q ltac:(lia) Hr Hq) as Hrep.
    set (y := (inject_Z q + inject_Z r / inject_Z (Zpos mb))%Q) in *.
    assert (Hmb : (0 < inject_Z (Zpos mb))%Q)
      by (change 0%Q with (inject_Z 0); rewrite <- Zlt_Qlt; lia).
    assert (Hval : (y * bpow e' == F2Q ma ea / F2Q mb eb)%Q).
    { assert (Hy : (y == inject_Z (Zpos ma) * bpow s / inject_Z (Zpos mb))%Q).
      { unfold y. rewrite bpow_inject by lia. rewrite <- inject_Z_mult, <- Hm', Hqr.
        rewrite inject_Z_plus, inject_Z_mult. field. lra. }
      assert (Hpw : (bpow ea == bpow s * bpow e' * bpow eb)%Q).
      { rewrite <- !bpow_add. replace (s + e' + eb) with ea by (unfold s; lia).
        reflexivity. }
      rewrite Hy. unfold F2Q. rewrite Hpw. field. pose proof (bpow_pos eb). lra. }
    assert (Hcond : e' <= fexp prec emax (Zdigits2 q + e')).
    { rewrite fexp_eq.
      assert (Hdq : d1 + s - d2 <= Zdigits2 q).
      { destruct (Z_lt_le_dec (d1 + s - d2 - 1) 0) as [Hk|Hk];
          [pose proof (Zdigits2_nonneg q); lia|].
        assert (H2k : 2 ^ (d1 + s - d2 - 1) <= q).
        { destruct (Z_lt_le_dec q (2 ^ (d1 + s - d2 - 1))) as [Hlt|]; [|assumption].
          exfalso.
          pose proof (digits2_pos_bounds ma) as [Hma _]. fold d1 in Hma.
          pose proof (digits2_pos_bounds mb) as [_ Hmb2]. fold d2 in Hmb2.
          assert (Hd1 : 0 < d1) by (unfold d1; lia).
          assert (Hd2 : 0 < d2) by (unfold d2; lia).
          assert (H1 : 2 ^ (d1 - 1 + s) <= m').
          { rewrite Hm', Z.pow_add_r by lia. apply Z.mul_le_mono_nonneg_r; lia. }
          assert (H2 : m' < 2 ^ (d1 + s - d2 - 1) * 2 ^ d2).
          { assert (Zpos mb * q + r < Zpos mb * 2 ^ (d1 + s - d2 - 1)) by nia.
            assert (0 < 2 ^ (d1 + s - d2 - 1)) by (apply Z.pow_pos_nonneg; lia).
            nia. }
          rewrite <- Z.pow_add_r in H2 by lia.
          replace (d1 + s - d2 - 1 + d2) with (d1 - 1 + s) in H2 by lia. lia. }
        apply Zdigits2_ge in H2k. lia. }
      unfold s in Hdq. lia. }
    destruct (round_aux_spec false q e' (new_location (Zpos mb) r) y Hrep Hcond)
      as [[Hinf Hbig]|[Hfin Herr]].
    + left. split; [exact Hinf|]. now rewrite <- Hval.
    + right. split.
      * destruct Hfin as [->|(m2 & e2 & ->)]; exact I.
      * rewrite <- Hval. pose proof eta64_pos. pose proof u64_pos.
        assert (0 <= y * bpow e')%Q.
        { rewrite Hval. apply Qlt_le_weak, Qlt_shift_div_l; lra. }
        destruct Herr as [Herr|[Herr _]]; nra.
Qed.

(** *** The order and the sign of a difference *)

Lemma F2Q_lt_exp m1 e1 m2 e2 :
  bounded prec emax m1 e1 = true -> bounded prec emax m2 e2 = true ->
  e1 < e2 -> (F2Q m1 e1 < F2Q m2 e2)%Q.
Proof.
  intros H1 H2 He.
  destruct (bounded_inv _ _ H1) as (He1 & Hd1 & _).
  destruct (bounded_inv _ _ H2) as (He2 & _ & Hd2). specialize (Hd2 ltac:(lia)).
  pose proof (digits2_pos_bounds m1) as [_ Hm1].
  pose proof (digits2_pos_bounds m2) as [Hm2 _]. rewrite Hd2 in Hm2.
  assert (Hm1' : Zpos m1 < 2 ^ 53).
  { apply Z.lt_le_trans with (1 := Hm1). apply Z.pow_le_mono_r; lia. }
  unfold F2Q. pose proof (bpow_pos e1). pose proof (bpow_pos e2).
  apply Qlt_le_trans with (inject_Z (2 ^ 53) * bpow e1)%Q.
  - apply Qmult_lt_compat_r; [assumption|]. now rewrite <- Zlt_Qlt.
  - apply Qle_trans with (inject_Z (2 ^ 52) * bpow e2)%Q.
    + rewrite <- !bpow_inject by lia. rewrite <- !bpow_add. apply bpow_le. lia.
    + apply Qmult_le_compat_r; [|lra]. now rewrite <- Zle_Qle.
Qed.

Lemma SFcompare_nn a b :
  nnf a -> nnf b -> SFcompare a b = Some (SFmag a ?= SFmag b)%Q.
Proof.
  destruct a as [sa| | |[|] ma ea]; try contradiction;
    destruct b as [sb| | |[|] mb eb]; try contradiction; intros Ha Hb;
    cbn [SFcompare SFmag].
  - reflexivity.
  - f_equal. symmetry. apply Qlt_alt. apply (F2Q_pos mb eb).
  - f_equal. symmetry. apply Qgt_alt. apply (F2Q_pos ma ea).
  - fold (F2Q ma ea). fold (F2Q mb eb). cbn [nnf] in Ha, Hb. f_equal. symmetry.
    destruct (Z.compare_spec ea eb) as [He|He|He].
    + subst eb. rewrite Pos.compare_cont_spec. cbn [Pos.switch_Eq].
      unfold F2Q. pose proof (bpow_pos ea) as HB.
      destruct (Pos.compare_spec ma mb) as [Hm|Hm|Hm].
      * subst. apply Qeq_alt. reflexivity.
      * apply Qlt_alt. apply Qmult_lt_compat_r; [exact HB|].
        rewrite <- Zlt_Qlt. lia.
      * apply Qgt_alt. apply Qmult_lt_compat_r; [exact HB|].
        rewrite <- Zlt_Qlt. lia.
    + apply Qlt_alt. now apply F2Q_lt_exp.
    + apply Qgt_alt. now apply F2Q_lt_exp.
Qed.

Lemma SFadd_fin_inv a b : is_fin (SFadd prec emax a b) -> is_fin a /\ is_fin b.
Proof.
  destruct a as [sa|sa| |sa ma ea], b as [sb|sb| |sb mb eb]; cbn [SFadd is_fin];
    try tauto; destruct sa, sb; cbn [is_fin]; tauto.
Qed.

Lemma SFsub_fin_inv a b : is_fin (SFsub prec emax a b) -> is_fin a /\ is_fin b.
Proof.
  destruct a as [sa|sa| |sa ma ea], b as [sb|sb| |sb mb eb]; cbn [SFsub is_fin];
    try tauto; destruct sa, sb; cbn [is_fin]; tauto.
Qed.

Lemma binary_round_sign s m e :
  match binary_round prec emax s m e with
  | S754_zero s' | S754_finite s' _ _ | S754_infinity s' => s' = s
  | S754_nan => True
  end.
Proof.
  unfold binary_round. destruct (shl_align _ _ _) as [mz ez].
  unfold binary_round_aux. destruct (shr_fexp _ _ _ _ _) as [mrs1 e1].
  destruct (shr_fexp _ _ _ _ _) as [mrs2 e2].
  destruct (shr_m mrs2); try reflexivity.
  destruct (e2 <=? emax - prec); reflexivity.
Qed.

Lemma SFsub_nn a b :
  nnf a -> nnf b -> (SFmag b <= SFmag a)%Q ->
  is_fin (SFsub prec emax a b) -> nns (SFsub prec emax a b).
Proof.
  destruct a as [sa| | |[|] ma ea]; try contradiction;
    destruct b as [sb| | |[|] mb eb]; try contradiction; intros Ha Hb Hle Hfin.
  - destruct sa, sb; exact I.
  - exfalso. cbn [SFmag] in Hle. pose proof (F2Q_pos mb eb). unfold F2Q in *. lra.
  - exact I.
  - cbn [nnf] in Ha, Hb. cbn [SFmag] in Hle. fold (F2Q ma ea) (F2Q mb eb) in Hle.
    revert Hfin. cbn [SFsub cond_Zopp].
    pose proof (shl_align_value ma ea (Z.min ea eb)) as Hva.
    pose proof (shl_align_value mb eb (Z.min ea eb)) as Hvb.
    rewrite (Z.min_r ea (Z.min ea eb)) in Hva by lia.
    rewrite (Z.min_r eb (Z.min ea eb)) in Hvb by lia.
    change (IntDef.Z.min ea eb) with (Z.min ea eb).
    set (ma' := fst (shl_align ma ea (Z.min ea eb))) in *.
    set (mb' := fst (shl_align mb eb (Z.min ea eb))) in *.
    assert (Hm : Zpos mb' <= Zpos ma').
    { rewrite <- Hva, <- Hvb in Hle. pose proof (bpow_pos (Z.min ea eb)) as HB.
      rewrite Zle_Qle. apply Qmult_le_r with (1 := HB). exact Hle. }
    destruct (Zpos ma' - Zpos mb') as [|p|p] eqn:Hd; [| |lia]; cbn [binary_normalize].
    + intros _. exact I.
    + pose proof (binary_round_sign false p (Z.min ea eb)) as Hs.
      destruct (binary_round prec emax false p (Z.min ea eb)) as [s'|s'| |s' m' e'];
        cbn [is_fin]; try contradiction; intros _; [exact I|].
      subst s'. exact I.
Qed.

(** *** The same on the primitive floats *)

Lemma fnn_nnf x : fnn x -> nnf (Prim2SF x).
Proof.
  unfold fnn. pose proof (Prim2SF_valid x) as Hv.
  destruct (Prim2SF x) as [s|s| |[|] m e]; cbn; trivial.
Qed.

Lemma fval_nonneg x : (0 <= fval x)%Q.
Proof. apply SFmag_nonneg. Qed.

Lemma add_fnn a b :
  fnn a -> fnn b ->
  (Prim2SF (a + b) = S754_infinity false /\ (bpow 1023 <= fval a + fval b)%Q) \/
  (fnn (a + b) /\
   (Qabs (fval (a + b) - (fval a + fval b)) <= u64 * (fval a + fval b))%Q).
Proof.
  intros Ha Hb. unfold fnn, fval. rewrite add_spec.
  exact (SFadd_nn _ _ (fnn_nnf a Ha) (fnn_nnf b Hb)).
Qed.

Lemma mul_fnn a b :
  fnn a -> fnn b ->
  (Prim2SF (a * b) = S754_infinity false /\ (bpow 1023 <= fval a * fval b)%Q) \/
  (fnn (a * b) /\
   (Qabs (fval (a * b) - fval a * fval b) <= u64 * (fval a * fval b) + eta64)%Q).
Proof.
  intros Ha Hb. unfold fnn, fval. rewrite mul_spec.
  exact (SFmul_nn _ _ (fnn_nnf a Ha) (fnn_nnf b Hb)).
Qed.

Lemma fnn_pos b : fnn b -> (0 < fval b)%Q ->
  exists m e, Prim2SF b = S754_finite false m e /\ bounded prec emax m e = true.
Proof.
  intros Hb Hpos. pose proof (fnn_nnf b Hb) as Hv. unfold fnn, fval in *.
  destruct (Prim2SF b) as [s|s| |[|] m e]; try contradiction.
  - cbn in Hpos. lra.
  - eauto.
Qed.

Lemma div_fnn a b :
  fnn a -> fnn b -> (0 < fval b)%Q ->
  (Prim2SF (a / b) = S754_infinity false /\ (bpow 1023 <= fval a / fval b)%Q) \/
  (fnn (a / b) /\
   (Qabs (fval (a / b) - fval a / fval b) <= u64 * (fval a / fval b) + eta64)%Q).
Proof.
  intros Ha Hb Hpos. destruct (fnn_pos b Hb Hpos) as (m & e & Eb & Hbd).
  unfold fnn, fval. rewrite div_spec, Eb. cbn [SFmag]. fold (F2Q m e).
  exact (SFdiv_nn _ m e (fnn_nnf a Ha) Hbd).
Qed.

Lemma leb_fnn a b : fnn a -> fnn b -> (a <=? b)%float = true <-> (fval a <= fval b)%Q.
Proof.
  intros Ha Hb. rewrite leb_spec. unfold SFleb.
  rewrite (SFcompare_nn _ _ (fnn_nnf a Ha) (fnn_nnf b Hb)). fold (fval a) (fval b).
  rewrite Qle_alt. destruct (fval a ?= fval b)%Q; split; congruence.
Qed.

Lemma ltb_fnn a b : fnn a -> fnn b -> (a <? b)%float = true <-> (fval a < fval b)%Q.
Proof.
  intros Ha Hb. rewrite ltb_spec. unfold SFltb.
  rewrite (SFcompare_nn _ _ (fnn_nnf a Ha) (fnn_nnf b Hb)). fold (fval a) (fval b).
  rewrite Qlt_alt. destruct (fval a ?= fval b)%Q; split; congruence.
Qed.

(** What the comparisons of the handler say of their operands. *)

Lemma leb_zero_shape x :
  (0 <=? x)%float = true ->
  fnn x \/ Prim2SF x = S754_infinity false.
Proof.
  rewrite leb_spec. change (Prim2SF 0) with (S754_zero false).
  unfold fnn. destruct (Prim2SF x) as [s|[|]| |[|] m e]; cbn; intros H;
    try discriminate; auto.
Qed.

Lemma ltb_zero_shape x :
  (0 <? x)%float = true ->
  (fnn x /\ (0 < fval x)%Q) \/ Prim2SF x = S754_infinity false.
Proof.
  rewrite ltb_spec. change (Prim2SF 0) with (S754_zero false).
  unfold fnn, fval. destruct (Prim2SF x) as [s|[|]| |[|] m e]; cbn; intros H;
    try discriminate; auto.
  left. split; [exact I|]. apply (F2Q_pos m e).
Qed.

Lemma finite_pos_shape x :
  (0 <? x)%float = true -> (x <? infinity)%float = true ->
  fnn x /\ (0 < fval x)%Q.
Proof.
  intros H0 Hinf. destruct (ltb_zero_shape x H0) as [H|H]; [exact H|].
  rewrite ltb_spec, H in Hinf. discriminate.
Qed.

Lemma add_fin_inv a b : is_fin (Prim2SF (a + b)) -> is_fin (Prim2SF a) /\ is_fin (Prim2SF b).
Proof. rewrite add_spec. apply SFadd_fin_inv. Qed.

Lemma sub_fin_inv a b : is_fin (Prim2SF (a - b)) -> is_fin (Prim2SF a) /\ is_fin (Prim2SF b).
Proof. rewrite sub_spec. apply SFsub_fin_inv. Qed.

Lemma fnn_fin x : fnn x -> is_fin (Prim2SF x).
Proof. unfold fnn. destruct (Prim2SF x) as [s|s| |[|] m e]; cbn; trivial. Qed.

(** [0 < amount <= D] and a finite difference: the difference is a
    non-negative number. *)
Lemma sub_fnn D amount :
  (0 <? amount)%float = true -> (amount <=? D)%float = true ->
  is_fin (Prim2SF (D - amount)) -> fnn (D - amount).
Proof.
  intros Hpos Hle Hfin.
  destruct (sub_fin_inv _ _ Hfin) as [HfD Hfa].
  assert (Ha : fnn amount).
  { destruct (ltb_zero_shape _ Hpos) as [[H _]|H]; [exact H|].
    rewrite H in Hfa. contradiction. }
  assert (HD : fnn D).
  { revert Hle. rewrite leb_spec. pose proof (fnn_nnf _ Ha) as Hv.
    destruct (ltb_zero_shape _ Hpos) as [[_ Hp]|H]; [|rewrite H in Hfa; contradiction].
    unfold fnn, fval in *.
    destruct (Prim2SF amount) as [s|s| |[|] m e]; try contradiction;
      [cbn in Hp; lra|].
    destruct (Prim2SF D) as [s'|s'| |[|] m' e']; cbn; try discriminate; try contradiction;
      auto. }
  assert (Hq : (fval amount <= fval D)%Q) by (apply leb_fnn; assumption).
  unfold fnn. rewrite sub_spec. rewrite sub_spec in Hfin.
  exact (SFsub_nn _ _ (fnn_nnf D HD) (fnn_nnf amount Ha) Hq Hfin).
Qed.

(** *** Sums of non-negative floats and the shares in a total *)

Lemma u64_lt_1 : (u64 < 1)%Q.
Proof. vm_compute. reflexivity. Qed.

Lemma qpow_lo_pos n : (0 < qpow (1 - u64) n)%Q.
Proof.
  induction n as [|n IH]; cbn [qpow]; [reflexivity|].
  pose proof u64_lt_1. apply Qmult_lt_0_compat; lra.
Qed.

Lemma qpow_hi_ge1 n : (1 <= qpow (1 + u64) n)%Q.
Proof.
  induction n as [|n IH]; cbn [qpow]; [lra|]. pose proof u64_pos. nra.
Qed.

Lemma inf_add_fnn acc x :
  Prim2SF acc = S754_infinity false -> fnn x ->
  Prim2SF (acc + x) = S754_infinity false.
Proof.
  intros Hacc Hx. rewrite add_spec, Hacc. unfold fnn in Hx.
  destruct (Prim2SF x) as [s|s| |[|] m e]; try contradiction; reflexivity.
Qed.

Lemma Qmul_le_mono c t t' : (0 <= c)%Q -> (t <= t')%Q -> (c * t <= c * t')%Q.
Proof. intros Hc Ht. rewrite !(Qmult_comm c). now apply Qmult_le_compat_r. Qed.

Lemma Qmul_ge c t : (1 <= c)%Q -> (0 <= t)%Q -> (t <= c * t)%Q.
Proof.
  intros Hc Ht. setoid_replace t with (1 * t)%Q at 1 by ring.
  now apply Qmult_le_compat_r.
Qed.

Section Sums.

Context {A : Type} (g : A -> float).

Lemma Qsum_nonneg l : (0 <= Qsum g l)%Q.
Proof.
  induction l as [|d l IH]; cbn [Qsum fold_right]; [lra|].
  fold (Qsum g l). pose proof (fval_nonneg (g d)). lra.
Qed.

Lemma Qsum_In l d : In d l -> (fval (g d) <= Qsum g l)%Q.
Proof.
  induction l as [|d' l IH]; [intros []|]. cbn [Qsum fold_right]. fold (Qsum g l).
  pose proof (Qsum_nonneg l). pose proof (fval_nonneg (g d')).
  intros [->|Hin]; [lra|]. specialize (IH Hin). lra.
Qed.

Lemma sum_inf_absorb l : forall acc,
  Prim2SF acc = S754_infinity false -> Forall (fun d => fnn (g d)) l ->
  Prim2SF (fsum g l acc) = S754_infinity false.
Proof.
  induction l as [|d l IH]; intros acc Hacc Hl; cbn [fsum fold_left]; [exact Hacc|].
  inversion Hl as [|? ? Hd Hl']; subst. apply IH; [|exact Hl'].
  now apply inf_add_fnn.
Qed.

Lemma sum_bounds l : forall acc,
  fnn acc -> Forall (fun d => fnn (g d)) l ->
  (Prim2SF (fsum g l acc) = S754_infinity false /\
   (bpow 1023 <= qpow (1 + u64) (List.length l) * (fval acc + Qsum g l))%Q) \/
  (fnn (fsum g l acc) /\
   (qpow (1 - u64) (List.length l) * (fval acc + Qsum g l) <= fval (fsum g l acc))%Q /\
   (fval (fsum g l acc) <= qpow (1 + u64) (List.length l) * (fval acc + Qsum g l))%Q).
Proof.
  pose proof u64_pos as Hu0. pose proof u64_lt_1 as Hu1.
  induction l as [|d l IH]; intros acc Hacc Hl; cbn [fsum fold_left List.length qpow Qsum fold_right].
  - right. split; [exact Hacc|]. split; lra.
  - fold (Qsum g l). fold (fsum g l (acc + g d)).
    inversion Hl as [|? ? Hd Hl']; subst.
    pose proof (fval_nonneg acc) as Ha0. pose proof (fval_nonneg (g d)) as Hx0.
    pose proof (Qsum_nonneg l) as HS0.
    pose proof (qpow_hi_ge1 (List.length l)) as HH.
    pose proof (qpow_lo_pos (List.length l)) as HL.
    set (a := fval acc) in *. set (x := fval (g d)) in *. set (S := Qsum g l) in *.
    set (Hn := qpow (1 + u64) (List.length l)) in *.
    set (Ln := qpow (1 - u64) (List.length l)) in *.
    destruct (add_fnn acc (g d) Hacc Hd) as [[Hinf Hbig]|[Hfin Herr]].
    + left. split; [apply sum_inf_absorb; assumption|]. fold a x in Hbig.
      assert (H1 : (1 <= (1 + u64) * Hn)%Q) by nra.
      pose proof (Qmul_ge _ (a + (x + S)) H1 ltac:(lra)). lra.
    + fold a x in Herr. set (a' := fval (acc + g d)) in *.
      assert (Hlo : ((1 - u64) * (a + x) <= a')%Q)
        by (revert Herr; apply Qabs_case; intros; lra).
      assert (Hhi : (a' <= (1 + u64) * (a + x))%Q)
        by (revert Herr; apply Qabs_case; intros; lra).
      destruct (IH _ Hfin Hl') as [[Hinf Hbig]|(Hf & Hl1 & Hl2)].
      * left. split; [exact Hinf|]. fold a' in Hbig.
        assert (H1 : (Hn * (a' + S) <= Hn * ((1 + u64) * (a + (x + S))))%Q)
          by (apply Qmul_le_mono; nra).
        setoid_replace ((1 + u64) * Hn * (a + (x + S)))%Q
          with (Hn * ((1 + u64) * (a + (x + S))))%Q by ring. lra.
      * right. split; [exact Hf|]. fold a' in Hl1, Hl2. split.
        -- assert (H1 : (Ln * ((1 - u64) * (a + (x + S))) <= Ln * (a' + S))%Q)
             by (apply Qmul_le_mono; nra).
           setoid_replace ((1 - u64) * Ln * (a + (x + S)))%Q
             with (Ln * ((1 - u64) * (a + (x + S))))%Q by ring. lra.
        -- assert (H1 : (Hn * (a' + S) <= Hn * ((1 + u64) * (a + (x + S))))%Q)
             by (apply Qmul_le_mono; nra).
           setoid_replace ((1 + u64) * Hn * (a + (x + S)))%Q
             with (Hn * ((1 + u64) * (a + (x + S))))%Q by ring. lra.
Qed.

End Sums.

Lemma qpow_lo_bound n :
  (1 - inject_Z (Z.of_nat n) * u64 <= qpow (1 - u64) n)%Q.
Proof.
  pose proof u64_pos as Hu0. pose proof u64_lt_1 as Hu1.
  induction n as [|n IH]; cbn [qpow].
  - change (inject_Z (Z.of_nat 0)) with 0%Q. lra.
  - rewrite Nat2Z.inj_succ. unfold Z.succ. rewrite inject_Z_plus.
    change (inject_Z 1) with 1%Q.
    assert (0 <= inject_Z (Z.of_nat n))%Q
      by (change 0%Q with (inject_Z 0); rewrite <- Zle_Qle; lia).
    pose proof (Qmul_le_mono (1 - u64) _ _ ltac:(lra) IH). nra.
Qed.

Lemma qpow_hi_bound n :
  (2 * inject_Z (Z.of_nat n) * u64 <= 1)%Q ->
  (qpow (1 + u64) n <= 1 + 2 * inject_Z (Z.of_nat n) * u64)%Q.
Proof.
  pose proof u64_pos as Hu0. pose proof u64_lt_1 as Hu1.
  induction n as [|n IH]; cbn [qpow].
  - change (inject_Z (Z.of_nat 0)) with 0%Q. lra.
  - rewrite Nat2Z.inj_succ. unfold Z.succ. rewrite inject_Z_plus.
    change (inject_Z 1) with 1%Q. intros Hn.
    assert (0 <= inject_Z (Z.of_nat n))%Q
      by (change 0%Q with (inject_Z 0); rewrite <- Zle_Qle; lia).
    specialize (IH ltac:(lra)).
    pose proof (Qmul_le_mono (1 + u64) _ _ ltac:(lra) IH). nra.
Qed.

Section QSums.

Context {A : Type}.

Lemma Qsumf_le_affine (f h : A -> Q) (a c : Q) (l : list A) :
  (forall d, In d l -> f d <= a * h d + c)%Q ->
  (Qsumf f l <= a * Qsumf h l + inject_Z (Z.of_nat (List.length l)) * c)%Q.
Proof.
  induction l as [|d l IH]; intros H; cbn [Qsumf fold_right List.length].
  - change (inject_Z (Z.of_nat 0)) with 0%Q. lra.
  - fold (Qsumf f l) (Qsumf h l). rewrite Nat2Z.inj_succ. unfold Z.succ.
    rewrite inject_Z_plus. change (inject_Z 1) with 1%Q.
    pose proof (H d (or_introl eq_refl)).
    specialize (IH (fun d' Hd' => H d' (or_intror Hd'))). lra.
Qed.

Lemma Qsumf_ge_affine (f h : A -> Q) (a c : Q) (l : list A) :
  (forall d, In d l -> a * h d - c <= f d)%Q ->
  (a * Qsumf h l - inject_Z (Z.of_nat (List.length l)) * c <= Qsumf f l)%Q.
Proof.
  induction l as [|d l IH]; intros H; cbn [Qsumf fold_right List.length].
  - change (inject_Z (Z.of_nat 0)) with 0%Q. lra.
  - fold (Qsumf f l) (Qsumf h l). rewrite Nat2Z.inj_succ. unfold Z.succ.
    rewrite inject_Z_plus. change (inject_Z 1) with 1%Q.
    pose proof (H d (or_introl eq_refl)).
    specialize (IH (fun d' Hd' => H d' (or_intror Hd'))). lra.
Qed.

Lemma Qsumf_scale (f : A -> Q) (t : Q) (l : list A) :
  (Qsumf (fun d => f d * t) l == Qsumf f l * t)%Q.
Proof.
  induction l as [|d l IH]; cbn [Qsumf fold_right]; [ring|].
  fold (Qsumf f l) (Qsumf (fun d => f d * t)%Q l). rewrite IH. ring.
Qed.

End QSums.

Section Percentages.

Context {A : Type} (g : A -> float).

(** The shares in percent of at most 1000 non-negative numbers in
    their positive finite total, added up in binary64 from the first
    to the last, make a number whose exact value is within
    5 * 10^-11 of 100. *)
Lemma percentages_close (l : list A) :
  Forall (fun d => fnn (g d)) l ->
  (List.length l <= 1000)%nat ->
  fnn (sumOf g l) -> (0 < fval (sumOf g l))%Q ->
  fnn (fsum (shareOf g l) l zero) /\
  (Qabs (fval (fsum (shareOf g l) l zero) - 100) <= 5 # 100000000000)%Q.
Proof.
  intros Hl Hlen HT Ht.
  assert (Hu : (u64 == 1 # 9007199254740992)%Q) by (vm_compute; reflexivity).
  assert (Heta0 : (0 < eta64)%Q) by apply eta64_pos.
  assert (Heta : (eta64 <= 1 # 1000000000000000000000000000000)%Q)
    by (vm_compute; discriminate).
  assert (Hbig : (1000 <= bpow 1023)%Q) by (vm_compute; discriminate).
  assert (Hz : fnn zero) by exact I.
  assert (Hz0 : (fval zero == 0)%Q) by reflexivity.
  assert (Hh : fnn hundred) by exact I.
  assert (Hh100 : (fval hundred == 100)%Q) by (vm_compute; reflexivity).
  set (n := inject_Z (Z.of_nat (List.length l))).
  assert (Hn0 : (0 <= n)%Q)
    by (unfold n; change 0%Q with (inject_Z 0); rewrite <- Zle_Qle; lia).
  assert (Hn1000 : (n <= 1000)%Q)
    by (unfold n; change 1000%Q with (inject_Z 1000); rewrite <- Zle_Qle; lia).
  pose proof (qpow_lo_bound (List.length l)) as HLn. fold n in HLn.
  pose proof (qpow_hi_bound (List.length l)) as HHn. fold n in HHn.
  pose proof (qpow_lo_pos (List.length l)) as HLpos.
  pose proof (qpow_hi_ge1 (List.length l)) as HHge.
  set (Ln := qpow (1 - u64) (List.length l)) in *.
  set (Hn := qpow (1 + u64) (List.length l)) in *.
  rewrite Hu in HLn, HHn. specialize (HHn ltac:(lra)).
  set (t := fval (sumOf g l)) in *.
  (* the total *)
  destruct (sum_bounds g l zero Hz Hl) as [[Hinf _]|(_ & HT1 & HT2)].
  { unfold fnn, sumOf in HT. rewrite Hinf in HT. contradiction. }
  fold (sumOf g l) in HT1, HT2. fold t Ln Hn in HT1, HT2. rewrite Hz0 in HT1, HT2.
  pose proof (Qsum_nonneg g l) as HE0.
  set (E := Qsum g l) in *.
  set (r := (E / t)%Q).
  assert (HrE : (r * t == E)%Q) by (unfold r; field; lra).
  assert (Hr0 : (0 <= r)%Q) by (unfold r; apply Qle_shift_div_l; lra).
  assert (H1 : ((1 - 1000 * (1 # 9007199254740992)) * E <= t)%Q).
  { apply Qle_trans with (2 := HT1). setoid_replace (0 + E)%Q with E by ring.
    apply Qmult_le_compat_r; lra. }
  assert (H2 : (t <= (1 + 2000 * (1 # 9007199254740992)) * E)%Q).
  { apply Qle_trans with (1 := HT2). setoid_replace (0 + E)%Q with E by ring.
    apply Qmult_le_compat_r; lra. }
  rewrite <- HrE in H1, H2.
  assert (Hr1 : ((1 - 1000 * (1 # 9007199254740992)) * r <= 1)%Q).
  { apply Qmult_le_r with (1 := Ht). lra. }
  assert (Hr2 : (1 <= (1 + 2000 * (1 # 9007199254740992)) * r)%Q).
  { apply Qmult_le_r with (1 := Ht). lra. }
  (* each percentage *)
  assert (Hpct : forall d, In d l ->
            fnn (shareOf g l d) /\
            (100 * (1 - (1 # 9007199254740992)) * (1 - (1 # 9007199254740992)) * (fval (g d) / t) - 102 * eta64
               <= fval (shareOf g l d))%Q /\
            (fval (shareOf g l d)
               <= 100 * (1 + (1 # 9007199254740992)) * (1 + (1 # 9007199254740992)) * (fval (g d) / t) + 102 * eta64)%Q).
  { intros d Hd. pose proof (Qsum_In g l d Hd) as HdE. fold E in HdE.
    pose proof (fval_nonneg (g d)) as Hx0.
    assert (Hgd : fnn (g d)) by (rewrite Forall_forall in Hl; now apply Hl).
    set (x := fval (g d)) in *.
    assert (Hrho : (x / t <= r)%Q).
    { unfold r. apply Qle_shift_div_l; [exact Ht|].
      setoid_replace (x / t * t)%Q with x by (field; lra). exact HdE. }
    assert (Hrho0 : (0 <= x / t)%Q) by (apply Qle_shift_div_l; lra).
    set (rho := (x / t)%Q) in *.
    destruct (div_fnn (g d) (sumOf g l) Hgd HT Ht) as [[_ Hov]|[Hq Hqe]].
    { exfalso. fold x t rho in Hov. lra. }
    fold x t rho in Hqe. rewrite Hu in Hqe.
    pose proof (fval_nonneg (g d / sumOf g l)) as Hq0.
    set (q := fval (g d / sumOf g l)) in *.
    assert (Hq1 : ((1 - (1 # 9007199254740992)) * rho - eta64 <= q)%Q)
      by (revert Hqe; apply Qabs_case; intros; lra).
    assert (Hq2 : (q <= (1 + (1 # 9007199254740992)) * rho + eta64)%Q)
      by (revert Hqe; apply Qabs_case; intros; lra).
    unfold shareOf.
    destruct (mul_fnn (g d / sumOf g l) hundred Hq Hh) as [[_ Hov]|[Hp Hpe]].
    { exfalso. fold q in Hov. rewrite Hh100 in Hov. lra. }
    fold q in Hpe. rewrite Hh100, Hu in Hpe.
    split; [exact Hp|].
    split; revert Hpe; apply Qabs_case; intros; lra. }
  assert (Hall : Forall (fun d => fnn (shareOf g l d)) l).
  { apply Forall_forall. intros d Hd. now destruct (Hpct d Hd). }
  assert (Hrho : (Qsumf (fun d => fval (g d) / t) l == r)%Q).
  { unfold Qdiv. rewrite Qsumf_scale. reflexivity. }
  pose proof (Qsumf_le_affine (fun d => fval (shareOf g l d)) (fun d => fval (g d) / t)%Q
                (100 * (1 + (1 # 9007199254740992)) * (1 + (1 # 9007199254740992))) (102 * eta64) l
                (fun d Hd => proj2 (proj2 (Hpct d Hd)))) as HP2.
  pose proof (Qsumf_ge_affine (fun d => fval (shareOf g l d)) (fun d => fval (g d) / t)%Q
                (100 * (1 - (1 # 9007199254740992)) * (1 - (1 # 9007199254740992))) (102 * eta64) l
                (fun d Hd => proj1 (proj2 (Hpct d Hd)))) as HP1.
  rewrite Hrho in HP1, HP2. fold n in HP1, HP2.
  change (Qsumf (fun d => fval (shareOf g l d)) l) with (Qsum (shareOf g l) l) in HP1, HP2.
  assert (Hneta : (n * (102 * eta64) <= 1000 * (102 * eta64))%Q)
    by (apply Qmult_le_compat_r; lra).
  set (P := Qsum (shareOf g l) l) in *.
  assert (HPmax : (P <= 100 + (2 # 100000000000))%Q) by lra.
  assert (HPmin : (100 - (3 # 100000000000) <= P)%Q) by lra.
  assert (HHc : (Hn <= 1 + 2000 * (1 # 9007199254740992))%Q) by lra.
  assert (HLc : (1 - 1000 * (1 # 9007199254740992) <= Ln)%Q) by lra.
  assert (Hup : (Hn * (0 + P) <= 100 + (5 # 100000000000))%Q).
  { setoid_replace (0 + P)%Q with P by ring.
    apply Qle_trans with ((1 + 2000 * (1 # 9007199254740992)) * (100 + (2 # 100000000000)))%Q;
      [|vm_compute; discriminate].
    apply Qle_trans with (Hn * (100 + (2 # 100000000000)))%Q.
    - apply Qmul_le_mono; lra.
    - apply Qmult_le_compat_r; lra. }
  assert (Hdown : (100 - (5 # 100000000000) <= Ln * (0 + P))%Q).
  { setoid_replace (0 + P)%Q with P by ring.
    apply Qle_trans with ((1 - 1000 * (1 # 9007199254740992)) * (100 - (3 # 100000000000)))%Q;
      [vm_compute; discriminate|].
    apply Qle_trans with (Ln * (100 - (3 # 100000000000)))%Q.
    - apply Qmult_le_compat_r; lra.
    - apply Qmul_le_mono; lra. }
  destruct (sum_bounds (shareOf g l) l zero Hz Hall) as [[_ Hov]|(Hs & Hs1 & Hs2)].
  { exfalso. fold P Hn in Hov. rewrite Hz0 in Hov. lra. }
  split; [exact Hs|]. fold P Hn Ln in Hs1, Hs2. rewrite Hz0 in Hs1, Hs2.
  apply Qabs_case; intros _; lra.
Qed.


End Percentages.

Lemma fsum_fin_inv {A : Type} (g : A -> float) (l : list A) : forall acc,
  is_fin (Prim2SF (fsum g l acc)) ->
  is_fin (Prim2SF acc) /\ Forall (fun d => is_fin (Prim2SF (g d))) l.
Proof.
  induction l as [|d l IH]; intros acc Hfin; cbn [fsum fold_left] in *.
  - split; [exact Hfin|constructor].
  - destruct (IH _ Hfin) as [Hacc Hl]. destruct (add_fin_inv _ _ Hacc) as [Ha Hd].
    split; [exact Ha|]. now constructor.
Qed.

Lemma float_value_fnn (x : float) : fnn x -> float_value x = fval x.
Proof.
  unfold fnn, float_value, fval.
  destruct (Prim2SF x) as [s|s| |[|] m e]; cbn; try contradiction; reflexivity.
Qed.

(** ** The percentages of a written document *)

(** C4, as amended: in the document written for an amount with
    0 < amount <= Tier-D exposure, the percentage of each bucket is its
    exposure divided by the sum of the exposures of that document,
    times 100.  When the exposures shown were not negative, there are
    at most 1000 buckets and the new sum is a positive finite number,
    the percentages, added up in binary64, are within 10^-10 of 100:
    the exact value of their sum is within 5 * 10^-11 of 100. *)
Theorem percentages_of_written_document
    (dbData : PortfolioSummary float) (userId : string) (w : World float) :
  ltb zero (enteredAmount w) = true ->
  leb (enteredAmount w) (tierExposure "D" dbData) = true ->
  online (store w) = true ->
  exists d',
    document (store (handleSimulateDivestment dbData userId w)) = Some d' /\
    (forall b, In b (riskData d') ->
       percentage b = mul (div (exposure b) (recalculateTotal (riskData d'))) hundred) /\
    (Forall (fun b => leb zero (exposure b) = true) (riskData dbData) ->
     (List.length (riskData dbData) <= 1000)%nat ->
     ltb zero (recalculateTotal (riskData d')) = true ->
     ltb (recalculateTotal (riskData d')) (Infinity false) = true ->
     closeTo (dec 1 10) (sumPercentages (riskData d')) hundred = true /\
     (Qabs (float_value (sumPercentages (riskData d')) - 100)
        <= 5 # 100000000000)%Q).
Proof.
  intros Hpos Hle Hon.
  destruct (handler_valid dbData userId w Hpos Hle Hon) as [Hdoc _].
  eexists; split; [exact Hdoc|]. unfold writtenDocument; cbv zeta. cbn [riskData].
  split; [intros b; apply percentage_final|].
  set (newD := sub (tierExposure "D" dbData) (enteredAmount w)).
  set (upd := updatedRiskData dbData newD _).
  rewrite recalculateTotal_final. intros Hnn Hlen HT0 HTinf.
  assert (HS : sumPercentages (finalRiskData upd) = fsum (shareOf exposure upd) upd zero).
  { unfold sumPercentages, finalRiskData. rewrite fold_left_map. reflexivity. }
  change (recalculateTotal upd) with (sumOf exposure upd) in HT0, HTinf.
  destruct (finite_pos_shape _ HT0 HTinf) as [HT Ht].
  destruct (fsum_fin_inv exposure upd zero (fnn_fin _ HT)) as [_ Hfin].
  assert (Hall : Forall (fun d => fnn (exposure d)) upd).
  { apply Forall_forall. intros d Hd.
    pose proof (proj1 (Forall_forall _ _) Hfin d Hd) as Hd_fin.
    unfold upd, updatedRiskData in Hd. apply in_map_iff in Hd.
    destruct Hd as (d0 & <- & Hd0).
    pose proof (proj1 (Forall_forall _ _) Hnn d0 Hd0) as Hd0_nn.
    destruct (startsWith (tier d0) "D").
    - cbn [exposure] in *. exact (sub_fnn _ _ Hpos Hle Hd_fin).
    - assert (Hsame : forall b : bool,
                exposure (if b then {| tier := tier d0; exposure := exposure d0;
                                       percentage := percentage d0;
                                       color := color d0; count := count d0 |}
                          else d0) = exposure d0)
        by (intros []; reflexivity).
      rewrite Hsame in *.
      destruct (leb_zero_shape _ Hd0_nn) as [H|H]; [exact H|].
      rewrite H in Hd_fin. contradiction. }
  assert (Hlen' : (List.length upd <= 1000)%nat)
    by (unfold upd, updatedRiskData; now rewrite length_map).
  destruct (percentages_close exposure upd Hall Hlen' HT Ht) as [HSnn HSerr].
  rewrite HS. split.
  - assert (Hlo : fnn (sub hundred (dec 1 10))) by (vm_compute; exact I).
    assert (Hhi : fnn (add hundred (dec 1 10))) by (vm_compute; exact I).
    assert (Hlov : (fval (sub hundred (dec 1 10)) <= 100 - (5 # 100000000000))%Q)
      by (vm_compute; discriminate).
    assert (Hhiv : (100 + (5 # 100000000000) <= fval (add hundred (dec 1 10)))%Q)
      by (vm_compute; discriminate).
    unfold closeTo. apply andb_true_intro. split.
    + apply (proj2 (leb_fnn _ _ Hlo HSnn)).
      revert HSerr. apply Qabs_case; intros; lra.
    + apply (proj2 (leb_fnn _ _ HSnn Hhi)).
      revert HSerr. apply Qabs_case; intros; lra.
  - now rewrite (float_value_fnn _ HSnn).
Qed.


(** ** The handler at work, in binary64 *)

Set Warnings "-inexact-float".

(** The conversion from decimal gives the value of the literal of the
    source, and [parseFloat] follows the grammar. *)
Example literals_binary64 :
  (dec 5205243 2 : float) = 52052.43%float /\
  (parseFloat "52052.43" : float) = 52052.43%float /\
  (parseFloat "  -12.5e-1 Mn" : float) = (-1.25)%float /\
  (parseFloat "1.e2" : float) = 100%float /\
  (parseFloat "abc" : float) = PrimFloat.nan /\
  (parseFloat "" : float) = PrimFloat.nan /\
  (parseFloat "." : float) = PrimFloat.nan /\
  (parseFloat "-Infinity" : float) = PrimFloat.neg_infinity.
Proof. repeat split; vm_compute; reflexivity. Qed.

Lemma divestment_reduces_tier_D_witness :
  exists d',
    document (store (afterDivesting (num := float) "20000")) = Some d' /\
    error (ui (afterDivesting (num := float) "20000")) = NoError /\
    tierExposure "D" d' =
      sub (tierExposure "D" seedDocument) (enteredAmount (deskWorld seedDocument "20000")) /\
    List.length (riskData d') = List.length (riskData (num := float) seedDocument) /\
    forall i b, nth_error (riskData seedDocument) i = Some b -> isTier "D" b = false ->
      exists b', nth_error (riskData d') i = Some b' /\
                 tier b' = tier b /\ exposure b' = exposure b.
Proof.
  apply (divestment_reduces_tier_D seedDocument "analyst"
           (deskWorld seedDocument "20000")); vm_compute; reflexivity.
Defined.


Lemma invalid_amount_rejected_witness :
  afterDivesting (num := float) "-250.5"
    = setError InvalidAmount (deskWorld seedDocument "-250.5") /\
  store (afterDivesting (num := float) "-250.5") = store (deskWorld seedDocument "-250.5").
Proof.
  apply (invalid_amount_rejected seedDocument "analyst"
           (deskWorld seedDocument "-250.5")).
  right. vm_compute. reflexivity.
Defined.


Lemma stored_total_is_kept_witness :
  exists d',
    document (store (afterDivesting (num := float) "20000")) = Some d' /\
    totalExposure d' = totalExposure seedDocument /\
    initialTierDTarget d' = initialTierDTarget seedDocument /\
    forall b, In b (riskData d') ->
      percentage b = mul (div (exposure b) (recalculateTotal (riskData d'))) hundred.
Proof.
  apply (stored_total_is_kept seedDocument "analyst" (deskWorld seedDocument "20000"));
    vm_compute; reflexivity.
Defined.

Lemma calculatedMetrics_meets_spec_witness :
  countsPresent (seedDocument (num := float)) /\
  calculatedMetrics (Some (seedDocument (num := float))) =
  Some {| currentTierDExposure := dec 5205243 2;
          progressMade := zero;
          progressPercentage := zero;
          highRiskExposure := dec 18187008 2;
          totalLoanCount := dec 1000 0 |}.
Proof.
  assert (Hcounts : countsPresent (seedDocument (num := float))).
  { intros b Hb. simpl in Hb.
    destruct Hb as [<-|[<-|[<-|[<-|[]]]]]; eexists;
      (split; [reflexivity|right; vm_compute; reflexivity]). }
  split; [exact Hcounts|].
  rewrite (calculatedMetrics_meets_spec seedDocument Hcounts).
  vm_compute. reflexivity.
Defined.

Lemma written_document_deterministic_witness :
  exists ds,
    writes (store (afterDivesting (num := float) "20000")) = ([] ++ ds)%list /\
    writes (store (handleSimulateDivestment seedDocument "analyst" (staleWorld "20000")))
      = ([seedDocument] ++ ds)%list /\
    forall d', In d' ds ->
      online (store (deskWorld (num := float) seedDocument "20000")) = true ->
      online (store (staleWorld (num := float) "20000")) = true ->
      document (store (afterDivesting "20000")) = Some d' /\
      document (store (handleSimulateDivestment seedDocument "analyst"
                         (staleWorld "20000"))) = Some d'.
Proof.
  apply (written_document_deterministic seedDocument "analyst"
           (deskWorld seedDocument "20000") (staleWorld "20000")); reflexivity.
Defined.

Lemma percentages_of_written_document_witness :
  exists d',
    document (store (afterDivesting (num := float) "20000")) = Some d' /\
    closeTo (dec 1 10) (sumPercentages (riskData d')) hundred = true /\
    (Qabs (float_value (sumPercentages (riskData d')) - 100)
       <= 5 # 100000000000)%Q.
Proof.
  destruct (percentages_of_written_document seedDocument "analyst"
              (deskWorld seedDocument "20000")
              ltac:(vm_compute; reflexivity) ltac:(vm_compute; reflexivity) eq_refl)
    as (d' & Hdoc & _ & Hsum).
  exists d'. split; [exact Hdoc|].
  assert (E : Some d' = Some (afterCommit "20000"))
    by (rewrite <- Hdoc; vm_compute; reflexivity).
  injection E as ->. apply Hsum.
  - repeat (constructor; [vm_compute; reflexivity|]). constructor.
  - simpl. lia.
  - vm_compute. reflexivity.
  - vm_compute. reflexivity.
Defined.

(** C3, the claim as first stated fails: the texts [Infinity] and
    [1e999] parse to positive infinity, which is not a finite number,
    and pass the first check; they are turned down by the second one,
    with the other error. *)
Lemma infinite_amount_is_not_invalid :
  parseFloat "Infinity" = PrimFloat.infinity /\
  parseFloat "1e999" = PrimFloat.infinity /\
  error (ui (afterDivesting "Infinity"))
    = AmountExceedsExposure PrimFloat.infinity (dec 5205243 2) /\
  error (ui (afterDivesting "1e999"))
    = AmountExceedsExposure PrimFloat.infinity (dec 5205243 2) /\
  error (ui (afterDivesting (num := float) "Infinity")) <> InvalidAmount.
Proof.
  repeat split; try (vm_compute; reflexivity).
  vm_compute. discriminate.
Qed.

(** C4, the claim as first stated fails: when the whole exposure of
    the portfolio is in Tier D and is divested, the new total is 0,
    every percentage is 0/0 and their sum is NaN, which is within no
    tolerance of 100. *)
Lemma percentages_of_emptied_portfolio :
  exists d',
    document (store (handleSimulateDivestment (num := float) allInTierD "analyst"
                       (deskWorld allInTierD "5"))) = Some d' /\
    error (ui (handleSimulateDivestment (num := float) allInTierD "analyst"
                 (deskWorld allInTierD "5"))) = NoError /\
    recalculateTotal (riskData d') = zero /\
    (forall b, In b (riskData d') -> isNaN (percentage b) = true) /\
    isNaN (sumPercentages (riskData d')) = true /\
    forall eps, closeTo eps (sumPercentages (riskData d')) hundred = false.
Proof.
  eexists. split; [vm_compute; reflexivity|].
  split; [vm_compute; reflexivity|].
  split; [vm_compute; reflexivity|]. split; [|split].
  - intros b [<-|[<-|[<-|[<-|[]]]]]; reflexivity.
  - vm_compute; reflexivity.
  - intros eps. unfold closeTo.
    match goal with
    | |- context [sumPercentages ?l] =>
        replace (sumPercentages l) with PrimFloat.nan by (vm_compute; reflexivity)
    end.
    cbn [leb float_JSNumber]. now rewrite float_leb_nan_r.
Qed.

(** The new total has to be finite as well: when the exposures add up
    to more than binary64 holds, the new total is [Infinity], every
    percentage is 0 and so is their sum. *)
Example percentages_of_overflowing_total :
  exists d',
    document (store (handleSimulateDivestment (num := float) nearOverflow "analyst"
                       (deskWorld nearOverflow "1e307"))) = Some d' /\
    error (ui (handleSimulateDivestment (num := float) nearOverflow "analyst"
                 (deskWorld nearOverflow "1e307"))) = NoError /\
    recalculateTotal (riskData d') = Infinity false /\
    sumPercentages (riskData d') = zero /\
    closeTo (dec 1 10) (sumPercentages (riskData d')) hundred = false.
Proof.
  eexists. split; [vm_compute; reflexivity|].
  split; [vm_compute; reflexivity|]. split; [vm_compute; reflexivity|].
  split; vm_compute; reflexivity.
Qed.

(** And the exposures must not be negative, as the data model has
    it: with 10^16 and 2 - 10^16 in two of the tiers the new total is
    5, a positive finite number, but the percentages add up to 124. *)
Example percentages_with_negative_exposure :
  exists d',
    document (store (handleSimulateDivestment (num := float) withNegativeExposure
                       "analyst" (deskWorld withNegativeExposure "5"))) = Some d' /\
    recalculateTotal (riskData d') = dec 5 0 /\
    sumPercentages (riskData d') = dec 124 0.
Proof.
  eexists. split; [vm_compute; reflexivity|].
  split; vm_compute; reflexivity.
Qed.

(** C5, the claim as first stated fails: after 20000 is divested from
    the seeded document the buckets add up to 258157.81, while the
    field [totalExposure] still holds 278157.81. *)
Lemma stored_total_does_not_shrink :
  exists d',
    document (store (afterDivesting (num := float) "20000")) = Some d' /\
    totalExposure d' = dec 27815781 2 /\
    recalculateTotal (riskData d') = dec 25815781 2 /\
    ltb (recalculateTotal (riskData d')) (totalExposure d') = true.
Proof.
  eexists. repeat split; vm_compute; reflexivity.
Qed.

(** C7, as amended: on the seeded document, divesting 20000 leaves a
    Tier-D exposure of 32052.43 and a progress of 38.4228 %, that is
    38.42 % at two decimals; divesting 52052.43 succeeds and leaves a
    Tier-D exposure of 0 and a progress of exactly 100 %. *)
Theorem documented_divestments :
  error (ui (afterDivesting (num := float) "20000")) = NoError /\
  tierDAfter (afterDivesting (num := float) "20000") = Some (dec 3205243 2) /\
  (exists p, progressAfter (afterDivesting (num := float) "20000") = Some p /\
             ltb (dec 384227 4) p = true /\ ltb p (dec 384229 4) = true /\
             closeTo (dec 5 3) p (dec 3842 2) = true) /\
  error (ui (afterDivesting (num := float) "52052.43")) = NoError /\
  tierDAfter (afterDivesting (num := float) "52052.43") = Some zero /\
  progressAfter (afterDivesting (num := float) "52052.43") = Some hundred.
Proof.
  split; [vm_compute; reflexivity|].
  split; [vm_compute; reflexivity|]. split.
  - eexists. split; [vm_compute; reflexivity|].
    repeat split; vm_compute; reflexivity.
  - repeat split; vm_compute; reflexivity.
Qed.

(** C7, the claim as first stated fails: the progress after divesting
    20000 is below 38.425 %, so it is not 38.43 % at the two decimals
    the figure is given with. *)
Lemma documented_progress_is_not_38_43 :
  exists p,
    progressAfter (afterDivesting (num := float) "20000") = Some p /\
    ltb p (dec 38425 3) = true /\
    closeTo (dec 5 3) p (dec 3843 2) = false.
Proof.
  eexists. split; [vm_compute; reflexivity|]. split; vm_compute; reflexivity.
Qed.

(** The percentages of the seeded document after this divestment add
    up to 100 without any error. *)
Example percentages_after_20000 :
  option_map (fun d => sumPercentages (riskData d))
             (document (store (afterDivesting (num := float) "20000")))
    = Some hundred.
Proof. vm_compute; reflexivity. Qed.

(** The other figures of the documented portfolio: 52052.44 is turned
    down with the ceiling 52052.43, and the high-risk exposure of the
    seeded document is 181870.08. *)
Example documented_ceiling_and_high_risk :
  error (ui (afterDivesting (num := float) "52052.44"))
    = AmountExceedsExposure (parseFloat "52052.44") (dec 5205243 2) /\
  option_map highRiskExposure (calculatedMetrics (Some (seedDocument (num := float))))
    = Some (dec 18187008 2).
Proof. split; vm_compute; reflexivity. Qed.

(** * More of the dashboard *)

(** ** The order facts of [JSNumberBounds] *)

Lemma float_leb_refl (a : float) : float_isNaN a = false -> PrimFloat.leb a a = true.
Proof.
  unfold float_isNaN. rewrite eqb_spec, leb_spec. unfold SFeqb, SFleb.
  destruct (SFcompare (Prim2SF a) (Prim2SF a)) as [[ | | ]|]; simpl;
    try discriminate; reflexivity.
Qed.

Lemma float_ltb_leb (a b : float) : PrimFloat.ltb a b = true -> PrimFloat.leb a b = true.
Proof.
  rewrite ltb_spec, leb_spec. unfold SFltb, SFleb.
  destruct (SFcompare (Prim2SF a) (Prim2SF b)) as [[ | | ]|]; simpl;
    try discriminate; reflexivity.
Qed.

Lemma float_nonpos_lt_pos (a b : float) :
  PrimFloat.leb a (float_of_decimal false 0 0) = true ->
  PrimFloat.ltb (float_of_decimal false 0 0) b = true ->
  PrimFloat.ltb a b = true.
Proof.
  rewrite !ltb_spec, leb_spec, Prim2SF_zero. unfold SFltb, SFleb.
  destruct (Prim2SF a) as [sa|sa| |sa ma ea], (Prim2SF b) as [sb|sb| |sb mb eb];
    simpl; try discriminate;
    try (destruct sa; simpl; try discriminate; reflexivity);
    try (destruct sb; simpl; try discriminate; reflexivity);
    try (destruct sa, sb; simpl; try discriminate; reflexivity).
Qed.

(** Operands that are not NaN and of which neither is less than the
    other are equal or both zero. *)
Lemma float_min_of_equals (a b : float) :
  float_isNaN a = false -> float_isNaN b = false ->
  PrimFloat.ltb a b = false -> PrimFloat.ltb b a = false ->
  PrimFloat.is_zero a = true ->
  PrimFloat.leb (PrimFloat.opp (PrimFloat.add (PrimFloat.opp a) (PrimFloat.opp b))) a = true.
Proof.
  unfold float_isNaN, PrimFloat.is_zero.
  rewrite !eqb_spec, !ltb_spec, leb_spec, opp_spec, add_spec, !opp_spec.
  unfold SFeqb, SFltb, SFleb.
  change (Prim2SF PrimFloat.zero) with (S754_zero false).
  destruct (Prim2SF a) as [sa|sa| |sa ma ea]; simpl; try discriminate;
    try (destruct sa; discriminate).
  destruct (Prim2SF b) as [sb|sb| |sb mb eb]; simpl; try discriminate;
    try (destruct sb; discriminate).
  destruct sa, sb; reflexivity.
Qed.

Lemma float_min_upper (a b : float) :
  float_isNaN (float_min a b) = true \/ PrimFloat.leb (float_min a b) a = true.
Proof.
  unfold float_min.
  destruct (float_isNaN a) eqn:Ha; [left; reflexivity|].
  destruct (float_isNaN b) eqn:Hb; [left; reflexivity|]. simpl.
  right.
  destruct (PrimFloat.ltb a b) eqn:Hab; [now apply float_leb_refl|].
  destruct (PrimFloat.ltb b a) eqn:Hba; [now apply float_ltb_leb|].
  destruct (PrimFloat.is_zero a) eqn:Hz; [|now apply float_leb_refl].
  now apply float_min_of_equals.
Qed.

Lemma float_not_le0_pos (a : float) :
  float_isNaN a = false -> PrimFloat.leb a (float_of_decimal false 0 0) = false ->
  PrimFloat.ltb (float_of_decimal false 0 0) a = true.
Proof.
  unfold float_isNaN. rewrite eqb_spec, ltb_spec, leb_spec, Prim2SF_zero.
  unfold SFeqb, SFltb, SFleb.
  destruct (Prim2SF a) as [s|s| |s m e]; simpl; try discriminate;
    destruct s; simpl; try discriminate; reflexivity.
Qed.

#[export] Instance float_JSNumberBounds : JSNumberBounds float.
Proof.
  split.
  - exact float_nonpos_lt_pos.
  - exact float_not_le0_pos.
  - exact float_min_upper.
Qed.

(** ** The handler, its view and its writes *)

Section HandlerAtWork.

Context {num : Type} {Hnum : JSNumber num} {Hlaws : JSNumberLaws num}
        {Hbounds : JSNumberBounds num} {Hformat : JSNumberFormat num}.

Implicit Types (dbData : PortfolioSummary num) (w : World num) (b : RiskBucket num).

(** X1: when the store turns the write down, the handler reports the
    failure, keeps the text of the amount field for another try, ends
    with the updating flag off and leaves the stored document as it
    was; the one document it tried to write is in the log. *)
Theorem failed_write_is_reported dbData userId w :
  ltb zero (enteredAmount w) = true ->
  leb (enteredAmount w) (tierExposure "D" dbData) = true ->
  online (store w) = false ->
  error (ui (handleSimulateDivestment dbData userId w)) = PersistenceFailure /\
  divestmentAmount (ui (handleSimulateDivestment dbData userId w))
    = divestmentAmount (ui w) /\
  isUpdating (ui (handleSimulateDivestment dbData userId w)) = false /\
  document (store (handleSimulateDivestment dbData userId w)) = document (store w) /\
  List.length (writes (store (handleSimulateDivestment dbData userId w)))
    = S (List.length (writes (store w))).
Proof.
  intros Hpos Hle Hoff.
  destruct (valid_amount_passes dbData w Hpos Hle) as [Hok Hngt].
  rewrite (handler_commit dbData userId w Hok Hngt).
  cbn [ui store error divestmentAmount isUpdating document writes].
  rewrite Hoff, length_app. cbn [List.length]. repeat split. lia.
Qed.

(** What reaches [setDoc] went through both checks. *)
Lemma written_inv dbData (d' : PortfolioSummary num) :
  written dbData d' ->
  exists userId w,
    isNaN (enteredAmount w) || leb (enteredAmount w) zero = false /\
    ltb (tierExposure "D" dbData) (enteredAmount w) = false /\
    d' = writtenDocument dbData userId (enteredAmount w)
                         (clock w (ticks w)) (clock w (S (ticks w))).
Proof.
  intros (userId & w & Hw). exists userId, w.
  assert (Hnil : forall l : list (PortfolioSummary num), l <> (l ++ [d'])%list).
  { intros l E. apply (f_equal (@List.length _)) in E.
    rewrite length_app in E. cbn in E. lia. }
  destruct (isNaN (enteredAmount w) || leb (enteredAmount w) zero) eqn:Hcheck1.
  - rewrite (handler_invalid dbData userId w Hcheck1) in Hw.
    cbn [setError store] in Hw. now apply Hnil in Hw.
  - destruct (ltb (tierExposure "D" dbData) (enteredAmount w)) eqn:Hcheck2.
    + rewrite (handler_exceeds dbData userId w Hcheck1 Hcheck2) in Hw.
      cbn [setError store] in Hw. now apply Hnil in Hw.
    + rewrite (handler_commit dbData userId w Hcheck1 Hcheck2) in Hw.
      cbn [store writes] in Hw. apply app_inv_head in Hw.
      injection Hw as <-. now repeat split.
Qed.

Lemma written_by_valid dbData userId w :
  ltb zero (enteredAmount w) = true ->
  leb (enteredAmount w) (tierExposure "D" dbData) = true ->
  written dbData (writtenDocument dbData userId (enteredAmount w)
                                  (clock w (ticks w)) (clock w (S (ticks w)))).
Proof.
  intros Hpos Hle. exists userId, w.
  destruct (valid_amount_passes dbData w Hpos Hle) as [Hok Hngt].
  now rewrite (handler_commit dbData userId w Hok Hngt).
Qed.

Lemma map_final_updated {A : Type} (g : RiskBucket num -> A) dbData (e p : num) :
  (forall d e' p', g {| tier := tier d; exposure := e'; percentage := p';
                        color := color d; count := count d |} = g d) ->
  map g (finalRiskData (updatedRiskData dbData e p)) = map g (riskData dbData).
Proof.
  intros Hg. unfold finalRiskData.
  generalize (recalculateTotal (updatedRiskData dbData e p)); intros total.
  unfold updatedRiskData. rewrite !map_map. apply map_ext. intros d.
  rewrite Hg. destruct (startsWith (tier d) "D"); [apply Hg|].
  destruct (startsWith (tier d) "C" && leb e zero); [apply Hg|reflexivity].
Qed.

(** A commit changes exposures and percentages only. *)
Lemma written_frame dbData (d' : PortfolioSummary num) :
  written dbData d' ->
  map tier (riskData d') = map tier (riskData dbData) /\
  map color (riskData d') = map color (riskData dbData) /\
  map count (riskData d') = map count (riskData dbData) /\
  totalExposure d' = totalExposure dbData /\
  initialTierDTarget d' = initialTierDTarget dbData.
Proof.
  intros Hw. destruct (written_inv dbData d' Hw) as (userId & w & _ & _ & ->).
  unfold writtenDocument. cbv zeta.
  cbn [riskData totalExposure initialTierDTarget].
  repeat split; apply map_final_updated; reflexivity.
Qed.

Lemma count_sum_of_counts (l l' : list (RiskBucket num)) :
  map count l = map count l' ->
  fold_left (fun a b => add a (orZero (count b))) l zero =
  fold_left (fun a b => add a (orZero (count b))) l' zero.
Proof.
  intros E.
  rewrite <- (fold_left_map (fun a c => add a (orZero c)) count l zero).
  rewrite <- (fold_left_map (fun a c => add a (orZero c)) count l' zero).
  now rewrite E.
Qed.

(** X2: a commit never changes the number of loans the dashboard
    reports, nor the tier, the colour and the count of any bucket,
    Tier D included. *)
Theorem loan_count_survives_commit dbData (d' : PortfolioSummary num) :
  written dbData d' ->
  map tier (riskData d') = map tier (riskData dbData) /\
  map color (riskData d') = map color (riskData dbData) /\
  map count (riskData d') = map count (riskData dbData) /\
  option_map totalLoanCount (calculatedMetrics (Some d'))
    = option_map totalLoanCount (calculatedMetrics (Some dbData)).
Proof.
  intros Hw. destruct (written_frame dbData d' Hw) as (Ht & Hc & Hn & _ & _).
  repeat split; try assumption.
  cbn [calculatedMetrics option_map totalLoanCount]. f_equal.
  now apply count_sum_of_counts.
Qed.

Lemma tier_C_is_not_D (s : string) :
  startsWith s "C" = true -> startsWith s "D" = false.
Proof.
  unfold startsWith. destruct s as [|c s]; cbn [String.prefix]; [discriminate|].
  destruct (ascii_dec "C" c) as [<-|]; [|discriminate]. intros _. reflexivity.
Qed.

Lemma tier_C_written dbData (e p : num) :
  find (isTier "C") (finalRiskData (updatedRiskData dbData e p)) =
  option_map
    (fun d => {| tier := tier d; exposure := exposure d;
                 percentage := mul (div (exposure d)
                                 (recalculateTotal (updatedRiskData dbData e p))) hundred;
                 color := color d; count := count d |})
    (find (isTier "C") (riskData dbData)).
Proof.
  rewrite find_tier_written.
  destruct (find (isTier "C") (riskData dbData)) as [d|] eqn:Hfind; [|reflexivity].
  apply find_some in Hfind. destruct Hfind as [_ HC].
  cbn [option_map]. unfold isTier in *. now rewrite (tier_C_is_not_D _ HC).
Qed.

(** X3: after a commit the high-risk exposure is the reduced Tier-D
    exposure plus the Tier-C exposure of before: the amount comes off
    Tier D and Tier C is not touched. *)
Theorem high_risk_after_commit dbData userId w :
  ltb zero (enteredAmount w) = true ->
  leb (enteredAmount w) (tierExposure "D" dbData) = true ->
  online (store w) = true ->
  option_map highRiskExposure
    (calculatedMetrics (document (store (handleSimulateDivestment dbData userId w))))
  = Some (add (sub (tierExposure "D" dbData) (enteredAmount w))
              (tierExposure "C" dbData)).
Proof.
  intros Hpos Hle Hon.
  destruct (handler_valid dbData userId w Hpos Hle Hon) as [Hdoc _].
  rewrite Hdoc. cbn [calculatedMetrics option_map highRiskExposure]. f_equal.
  unfold writtenDocument. cbv zeta. f_equal.
  - rewrite tierExposure_find. cbn [riskData]. rewrite find_tier_written.
    destruct (find (isTier "D") (riskData dbData)) as [d|] eqn:Hfind; simpl.
    + apply find_some in Hfind. destruct Hfind as [_ HD]. now rewrite HD.
    + exfalso. rewrite tierExposure_find, Hfind in Hle.
      rewrite (pos_not_le0 _ Hpos) in Hle. discriminate.
  - rewrite !tierExposure_find. cbn [riskData]. rewrite tier_C_written.
    destruct (find (isTier "C") (riskData dbData)); reflexivity.
Qed.

(** X4: once the Tier-D exposure of the document shown is zero or
    less, no text in the amount field gets anything written: an amount
    that is a positive number exceeds the exposure, and any other is
    invalid. *)
Theorem nothing_left_to_divest dbData userId w :
  leb (tierExposure "D" dbData) zero = true ->
  store (handleSimulateDivestment dbData userId w) = store w /\
  (error (ui (handleSimulateDivestment dbData userId w)) = InvalidAmount \/
   error (ui (handleSimulateDivestment dbData userId w))
     = AmountExceedsExposure (enteredAmount w) (tierExposure "D" dbData)).
Proof.
  intros Hempty.
  destruct (isNaN (enteredAmount w) || leb (enteredAmount w) zero) eqn:Hcheck1.
  - rewrite (handler_invalid dbData userId w Hcheck1). split; [reflexivity|now left].
  - assert (Hpos : ltb zero (enteredAmount w) = true).
    { apply orb_false_elim in Hcheck1. destruct Hcheck1 as [Hnan Hle0].
      now apply not_le0_pos. }
    rewrite (handler_exceeds dbData userId w Hcheck1
               (nonpos_lt_pos _ _ Hempty Hpos)).
    split; [reflexivity|now right].
Qed.

Lemma tier_D_of_written dbData userId w (now1 now2 : string) :
  ltb zero (enteredAmount w) = true ->
  leb (enteredAmount w) (tierExposure "D" dbData) = true ->
  tierExposure "D" (writtenDocument dbData userId (enteredAmount w) now1 now2)
  = sub (tierExposure "D" dbData) (enteredAmount w).
Proof.
  intros Hpos Hle. unfold writtenDocument. cbv zeta.
  rewrite tierExposure_find. cbn [riskData]. rewrite find_tier_written.
  destruct (find (isTier "D") (riskData dbData)) as [d|] eqn:Hfind; simpl.
  - apply find_some in Hfind. destruct Hfind as [_ HD]. now rewrite HD.
  - exfalso. rewrite tierExposure_find, Hfind in Hle.
    rewrite (pos_not_le0 _ Hpos) in Hle. discriminate.
Qed.

Lemma handler_keeps_online dbData userId w :
  online (store (handleSimulateDivestment dbData userId w)) = online (store w).
Proof.
  destruct (isNaN (enteredAmount w) || leb (enteredAmount w) zero) eqn:Hcheck1.
  - now rewrite (handler_invalid dbData userId w Hcheck1).
  - destruct (ltb (tierExposure "D" dbData) (enteredAmount w)) eqn:Hcheck2.
    + now rewrite (handler_exceeds dbData userId w Hcheck1 Hcheck2).
    + now rewrite (handler_commit dbData userId w Hcheck1 Hcheck2).
Qed.

(** X5: the handler computes from the document the component was
    drawn with, not from the store.  When a second amount is entered
    and committed before the listener has delivered the result of the
    first commit, the second document replaces the first one: its
    Tier-D exposure lacks the second amount only. *)
Theorem stale_commit_overwrites dbData userId w (text : string) :
  ltb zero (enteredAmount w) = true ->
  leb (enteredAmount w) (tierExposure "D" dbData) = true ->
  ltb zero (parseFloat text) = true ->
  leb (parseFloat text) (tierExposure "D" dbData) = true ->
  online (store w) = true ->
  option_map (tierExposure "D")
    (document (store (handleSimulateDivestment dbData userId
                        (onChange text (handleSimulateDivestment dbData userId w)))))
  = Some (sub (tierExposure "D" dbData) (parseFloat text)) /\
  List.length (writes (store (handleSimulateDivestment dbData userId
                        (onChange text (handleSimulateDivestment dbData userId w)))))
  = S (S (List.length (writes (store w)))).
Proof.
  intros Hpos1 Hle1 Hpos2 Hle2 Hon.
  set (w1 := handleSimulateDivestment dbData userId w).
  assert (Ha : enteredAmount (onChange text w1) = parseFloat text) by reflexivity.
  assert (Hon2 : online (store (onChange text w1)) = true).
  { unfold onChange, w1. cbn [setError setDivestmentAmount store].
    now rewrite handler_keeps_online. }
  rewrite <- Ha in Hpos2, Hle2.
  destruct (handler_valid dbData userId (onChange text w1) Hpos2 Hle2 Hon2) as [Hdoc _].
  split.
  - rewrite Hdoc. cbn [option_map]. f_equal.
    rewrite (tier_D_of_written dbData userId (onChange text w1) _ _ Hpos2 Hle2).
    now rewrite Ha.
  - destruct (valid_amount_passes dbData _ Hpos2 Hle2) as [Hok2 Hngt2].
    rewrite (handler_commit dbData userId _ Hok2 Hngt2). cbn [store writes].
    rewrite length_app. cbn [List.length].
    unfold onChange. cbn [setError setDivestmentAmount store]. unfold w1.
    destruct (valid_amount_passes dbData w Hpos1 Hle1) as [Hok1 Hngt1].
    rewrite (handler_commit dbData userId w Hok1 Hngt1). cbn [store writes].
    rewrite length_app. cbn [List.length]. lia.
Qed.

(** X6: after a commit the store accepted, the amount field is empty,
    so the component is drawn with the commit button disabled, without
    spinner and without error, and with the line of the last action:
    a second click cannot repeat the commit. *)
Theorem commit_disables_the_button dbData userId w (metrics : Metrics num) :
  ltb zero (enteredAmount w) = true ->
  leb (enteredAmount w) (tierExposure "D" dbData) = true ->
  online (store w) = true ->
  exists d',
    document (store (handleSimulateDivestment dbData userId w)) = Some d' /\
    buttonDisabled
      (DivestmentSimulator d' metrics (ui (handleSimulateDivestment dbData userId w)))
      = true /\
    buttonSpinner
      (DivestmentSimulator d' metrics (ui (handleSimulateDivestment dbData userId w)))
      = false /\
    errorShown
      (DivestmentSimulator d' metrics (ui (handleSimulateDivestment dbData userId w)))
      = None /\
    lastActionShown
      (DivestmentSimulator d' metrics (ui (handleSimulateDivestment dbData userId w)))
      = true.
Proof.
  intros Hpos Hle Hon.
  destruct (valid_amount_passes dbData w Hpos Hle) as [Hok Hngt].
  rewrite (handler_commit dbData userId w Hok Hngt).
  cbn [store document ui]. rewrite Hon.
  eexists. split; [reflexivity|].
  unfold DivestmentSimulator.
  cbn [buttonDisabled buttonSpinner errorShown lastActionShown isUpdating
       divestmentAmount error isEmptyString orb writtenDocument lastAction].
  repeat split.
Qed.

End HandlerAtWork.

(** ** Firebase and the state of [App] *)

(** X7: [initializeFirebase] answers true only with [db] set, and
    once [db] is set it answers true without calling the SDK and
    without touching the handles, whatever the SDK would do. *)
Theorem initializeFirebase_once (sdk sdk' : Firebase.Sdk) (h : Firebase.Handles) :
  (snd (initializeFirebase sdk h) = true ->
   Firebase.db (fst (initializeFirebase sdk h)) <> None) /\
  (Firebase.db (fst (initializeFirebase sdk h)) <> None ->
   initializeFirebase sdk' (fst (initializeFirebase sdk h))
   = (fst (initializeFirebase sdk h), true)).
Proof.
  split.
  - unfold initializeFirebase.
    destruct (Firebase.db h) eqn:Hdb; cbn [fst snd]; [now rewrite Hdb|].
    destruct (Firebase.initializeApp sdk) as [app|]; cbn [fst snd]; [|discriminate].
    destruct (Firebase.getFirestore sdk app); cbn [fst snd]; [|discriminate].
    destruct (Firebase.getAuth sdk app); cbn [fst snd]; discriminate.
  - generalize (fst (initializeFirebase sdk h)). intros h' Hdb.
    unfold initializeFirebase. destruct (Firebase.db h'); [reflexivity|contradiction].
Qed.

(** X8: when [getAuth] throws after [getFirestore] has answered, the
    call answers false but leaves [db] set and [auth] null; every
    later call then answers true, with [auth] still null. *)
Theorem initializeFirebase_half_done (sdk sdk' : Firebase.Sdk) (app d : nat) :
  Firebase.initializeApp sdk = Some app ->
  Firebase.getFirestore sdk app = Some d ->
  Firebase.getAuth sdk app = None ->
  initializeFirebase sdk {| Firebase.db := None; Firebase.auth := None |}
    = ({| Firebase.db := Some d; Firebase.auth := None |}, false) /\
  initializeFirebase sdk' {| Firebase.db := Some d; Firebase.auth := None |}
    = ({| Firebase.db := Some d; Firebase.auth := None |}, true).
Proof.
  intros Happ Hdb Hauth. unfold initializeFirebase. cbn [Firebase.db Firebase.auth].
  rewrite Happ, Hdb, Hauth. split; reflexivity.
Qed.

Section AppAtWork.

Context {num : Type} {Hnum : JSNumber num} {Hlaws : JSNumberLaws num}
        {Hbounds : JSNumberBounds num} {Hformat : JSNumberFormat num}.

(** X9: when Firebase cannot be initialised, the first effect only
    clears the loading flag and registers no callback, so a newly
    mounted [App] shows that the authentication failed. *)
Theorem failed_initialisation_screen (sdk : Firebase.Sdk) (h : Firebase.Handles) :
  snd (initializeFirebase sdk h) = false ->
  snd (mountEffect (num := num) sdk h initialAppState) = false /\
  App (snd (fst (mountEffect (num := num) sdk h initialAppState))) = AuthenticationFailed.
Proof.
  intros Hfail. unfold mountEffect.
  destruct (initializeFirebase sdk h) as [h' ok]. cbn [snd] in Hfail. subst ok.
  split; reflexivity.
Qed.

Lemma app_invariant (events : list (AppEvent num)) (s : AppState num) :
  (isAuthenticated s = true <-> userId s <> None) ->
  (isAuthenticated (fold_left appStep events s) = true
   <-> userId (fold_left appStep events s) <> None).
Proof.
  revert s. induction events as [|e events IH]; intros s Hs; [exact Hs|].
  cbn [fold_left]. apply IH.
  destruct e as [[uid|]|[data|]]; cbn [appStep authStateChanged snapshotArrived
    isAuthenticated userId]; try exact Hs; split; congruence.
Qed.

(** X10: whatever calls of the two callbacks came in, [App] has the
    authenticated flag set exactly when it has a user id; and when it
    draws the dashboard there is a user id for the handler to record,
    the data is the one of the last snapshot that existed, and the
    metrics are defined. *)
Theorem dashboard_has_user_and_metrics (events : list (AppEvent num)) :
  (isAuthenticated (appAfter events) = true <-> userId (appAfter events) <> None) /\
  forall data metrics,
    App (appAfter events) = Dashboard data metrics ->
    (exists uid, userId (appAfter events) = Some uid) /\
    dbData (appAfter events) = Some data /\
    metrics = calculatedMetrics (Some data) /\
    metrics <> None.
Proof.
  assert (Hinv : isAuthenticated (appAfter events) = true
                 <-> userId (appAfter events) <> None).
  { apply app_invariant. cbn. split; [discriminate|congruence]. }
  split; [exact Hinv|].
  intros data metrics. unfold App.
  destruct (isLoading (appAfter events)); [discriminate|].
  destruct (isAuthenticated (appAfter events)) eqn:Hauth; cbn [negb]; [|discriminate].
  destruct (dbData (appAfter events)) as [data'|] eqn:Hdata; [|discriminate].
  intros [= <- <-]. repeat split.
  - destruct (userId (appAfter events)) as [uid|]; [now exists uid|].
    exfalso. now apply (proj1 Hinv eq_refl).
  - discriminate.
Qed.

Lemma initializeData_effect (w : World num) :
  initializeData w =
  {| ui := ui w;
     store := {| online := online (store w);
                 document := if online (store w)
                             then Some (initialDocument (clock w (ticks w)))
                             else document (store w);
                 writes := writes (store w) ++ [initialDocument (clock w (ticks w))] |};
     clock := clock w;
     ticks := S (ticks w) |}.
Proof. reflexivity. Qed.

(** X11: each time the second effect runs with the store in reach, it
    puts the mock data back: whatever the handler had committed, the
    stored document is the seeded one again, with no last action and
    the Tier-D exposure at its target; the state of the simulator is
    not touched. *)
Theorem seeding_discards_commits (h : Firebase.Handles) (s : AppState num)
    (dbData : PortfolioSummary num) (userId : string) (w : World num) :
  dataEffectRuns h s = true ->
  online (store w) = true ->
  exists now,
    document (store (dataEffect h s (handleSimulateDivestment dbData userId w)))
      = Some (initialDocument now) /\
    lastAction (initialDocument (num := num) now) = None /\
    tierExposure "D" (initialDocument (num := num) now) = TIER_D_TARGET_EXPOSURE /\
    ui (dataEffect h s (handleSimulateDivestment dbData userId w))
      = ui (handleSimulateDivestment dbData userId w).
Proof.
  intros Hruns Hon. unfold dataEffect. rewrite Hruns, initializeData_effect.
  cbn [store document ui]. rewrite handler_keeps_online, Hon.
  eexists. repeat split.
Qed.

(** *** The chart *)

Lemma chartData_length (dbData : PortfolioSummary num) :
  List.length (chartData (Some dbData)) = List.length (riskData dbData).
Proof. unfold chartData. apply length_map. Qed.

Lemma map_nth_error_seq {A B : Type} (g : A -> B) (l : list A) :
  map (fun index => match nth_error l index with
                    | Some d => Some (g d)
                    | None => None
                    end)
      (seq 0 (List.length l))
  = map (fun d => Some (g d)) l.
Proof.
  induction l as [|d l IH]; [reflexivity|].
  cbn [List.length seq map nth_error]. f_equal.
  rewrite <- seq_shift, map_map. exact IH.
Qed.

Lemma cellFills_by_tier (dbData : PortfolioSummary num) :
  cellFills dbData = map (fun d => Some (COLORS (tier d))) (riskData dbData).
Proof. unfold cellFills. rewrite chartData_length. apply map_nth_error_seq. Qed.

(** X12: the cells of the pie never read past the end of [riskData]:
    there is one cell for each bucket, filled with the colour [COLORS]
    has for the tier of that bucket. *)
Theorem cell_fills_in_range (dbData : PortfolioSummary num) :
  cellFills dbData = map (fun d => Some (COLORS (tier d))) (riskData dbData) /\
  List.length (cellFills dbData) = List.length (riskData dbData) /\
  ~ In None (cellFills dbData).
Proof.
  rewrite cellFills_by_tier. split; [reflexivity|]. split; [apply length_map|].
  intros Hin. apply in_map_iff in Hin. destruct Hin as (d & Hd & _). discriminate.
Qed.

Lemma colorsOf_snoc (data : list (RiskBucket num)) (d : RiskBucket num) :
  colorsOf (data ++ [d]) = withProperty (colorsOf data) (tier d) (color d).
Proof. unfold colorsOf. now rewrite fold_left_app. Qed.

(** X13: reading a key of the object built by the reduction gives the
    colour of the last bucket of the list with that tier; for a tier
    that no bucket has it gives the member of [Object.prototype] of
    that name, if there is one, and [undefined] otherwise. *)
Theorem colors_by_tier (data : list (RiskBucket num)) (key : string) :
  getProperty (colorsOf data) key
  = match find (fun d => String.eqb key (tier d)) (rev data) with
    | Some d => OwnString (color d)
    | None => if existsb (String.eqb key) objectPrototype then Inherited key
              else Undefined
    end.
Proof.
  unfold getProperty.
  assert (Hown : colorsOf data key
                 = option_map color (find (fun d => String.eqb key (tier d)) (rev data))).
  { induction data as [|d data IH] using rev_ind; [reflexivity|].
    rewrite colorsOf_snoc, rev_app_distr. cbn [rev app find]. unfold withProperty.
    destruct (String.eqb key (tier d)); [reflexivity|exact IH]. }
  rewrite Hown.
  now destruct (find (fun d => String.eqb key (tier d)) (rev data)).
Qed.

Lemma divested_frame (d d' : PortfolioSummary num) :
  divested d d' ->
  map tier (riskData d') = map tier (riskData d) /\
  map color (riskData d') = map color (riskData d) /\
  map count (riskData d') = map count (riskData d) /\
  totalExposure d' = totalExposure d /\
  initialTierDTarget d' = initialTierDTarget d.
Proof.
  induction 1 as [|d' d'' _ IH Hw]; [now repeat split|].
  destruct IH as (Ht & Hc & Hn & He & Hi).
  destruct (written_frame d' d'' Hw) as (Ht' & Hc' & Hn' & He' & Hi').
  repeat split; congruence.
Qed.

Lemma splitFirst_starts (t : string) :
  startsWith (splitFirst ":" t) "D" = startsWith t "D".
Proof.
  unfold startsWith. destruct t as [|c t]; [reflexivity|].
  cbn [splitFirst String.prefix].
  destruct (Ascii.eqb c ":") eqn:Hc.
  - apply Ascii.eqb_eq in Hc. subst c. reflexivity.
  - assert (Hempty : forall s, String.prefix "" s = true) by (intros []; reflexivity).
    cbn [String.prefix]. destruct (ascii_dec "D" c); [|reflexivity].
    now rewrite !Hempty.
Qed.

(** X14: the name of a chart entry is the tier up to its first colon,
    or all of it when it has none, and it starts with D exactly when
    the handler takes the bucket for Tier D. *)
Theorem chart_name_of_tier (t : string) :
  (t = splitFirst ":" t \/ exists rest, t = splitFirst ":" t ++ String ":" rest) /\
  startsWith (splitFirst ":" t) "D" = startsWith t "D" /\
  forall c, In c (list_ascii_of_string (splitFirst ":" t)) -> c <> ":"%char.
Proof.
  split; [|split; [apply splitFirst_starts|]].
  - induction t as [|c t IH]; [now left|]. cbn [splitFirst].
    destruct (Ascii.eqb c ":") eqn:Hc.
    + apply Ascii.eqb_eq in Hc. subst c. right. now exists t.
    + destruct IH as [IH|[rest IH]].
      * left. cbn. now rewrite <- IH.
      * right. exists rest. cbn. now rewrite <- IH.
  - induction t as [|c t IH]; [intros c []|]. cbn [splitFirst].
    destruct (Ascii.eqb c ":") eqn:Hc; [intros c' []|].
    intros c' [<-|Hin]; [|now apply IH].
    intros E. subst c. discriminate.
Qed.

(** X15: through any number of commits, each made on the document the
    one before wrote, the dashboard keeps its frame: the same cell
    colours, the same chart names, the same number of loans, and the
    same value on the card of the total exposure, which is never
    reduced by what was divested. *)
Theorem dashboard_frame_along_commits (d d' : PortfolioSummary num) :
  divested d d' ->
  cellFills d' = cellFills d /\
  map Chart.name (chartData (Some d')) = map Chart.name (chartData (Some d)) /\
  option_map totalLoanCount (calculatedMetrics (Some d'))
    = option_map totalLoanCount (calculatedMetrics (Some d)) /\
  forall metrics metrics',
    option_map Card.value (hd_error (metricCards d' metrics'))
    = option_map Card.value (hd_error (metricCards d metrics)).
Proof.
  intros Hd. destruct (divested_frame d d' Hd) as (Ht & _ & Hn & He & _).
  repeat split.
  - rewrite !cellFills_by_tier.
    rewrite <- (map_map tier (fun t => Some (COLORS t))).
    rewrite <- (map_map tier (fun t => Some (COLORS t)) (riskData d)).
    now rewrite Ht.
  - unfold chartData. rewrite !map_map. cbn [Chart.name].
    rewrite <- (map_map tier (splitFirst ":")).
    rewrite <- (map_map tier (splitFirst ":") (riskData d)).
    now rewrite Ht.
  - cbn [calculatedMetrics option_map totalLoanCount]. f_equal.
    now apply count_sum_of_counts.
  - intros metrics metrics'. cbn [metricCards hd_error option_map Card.value].
    now rewrite He.
Qed.

(** X16: the progress shown is never more than 100: it is NaN or at
    most 100, whatever the document holds. *)
Theorem progress_at_most_100 (dbData : PortfolioSummary num) :
  exists metrics,
    calculatedMetrics (Some dbData) = Some metrics /\
    (isNaN (progressPercentage metrics) = true \/
     leb (progressPercentage metrics) hundred = true).
Proof.
  eexists. split; [reflexivity|]. cbn [progressPercentage]. apply min_upper.
Qed.

End AppAtWork.

(** ** [parseFloat] reads what [toFixed] prints *)

Lemma readDigits_run (s rest : string) (acc : N) (k : nat) :
  allDigits s = true ->
  readDigits (s ++ rest) acc k = readDigits rest (digitsValue s acc) (k + String.length s).
Proof.
  revert acc k. induction s as [|c s IH]; intros acc k Hs.
  - cbn. now rewrite Nat.add_0_r.
  - cbn [append readDigits digitsValue allDigits String.length] in *.
    destruct (digitValue c); [|discriminate].
    rewrite IH by exact Hs. now rewrite Nat.add_succ_r.
Qed.

Lemma digitsValue_app (s t : string) (acc : N) :
  allDigits s = true ->
  digitsValue (s ++ t) acc = digitsValue t (digitsValue s acc).
Proof.
  revert acc. induction s as [|c s IH]; intros acc Hs; [reflexivity|].
  cbn [append digitsValue allDigits] in *.
  destruct (digitValue c); [now apply IH|discriminate].
Qed.

Lemma allDigits_app (s t : string) :
  allDigits (s ++ t) = allDigits s && allDigits t.
Proof.
  induction s as [|c s IH]; [reflexivity|].
  cbn [append allDigits]. destruct (digitValue c); [exact IH|reflexivity].
Qed.

Lemma zeros_digits (k : nat) (acc : N) :
  allDigits (zeros k) = true /\ String.length (zeros k) = k /\
  digitsValue (zeros k) 0 = 0%N.
Proof.
  induction k as [|k (IH1 & IH2 & IH3)]; [now repeat split|].
  cbn [zeros allDigits String.length digitsValue]. repeat split.
  - exact IH1.
  - now rewrite IH2.
  - exact IH3.
Qed.

Lemma uint_digits (d : Decimal.uint) :
  allDigits (NilEmpty.string_of_uint d) = true.
Proof. induction d; cbn; assumption || reflexivity. Qed.

Lemma digitValue_digits :
  digitValue "0" = Some 0%N /\ digitValue "1" = Some 1%N /\ digitValue "2" = Some 2%N /\
  digitValue "3" = Some 3%N /\ digitValue "4" = Some 4%N /\ digitValue "5" = Some 5%N /\
  digitValue "6" = Some 6%N /\ digitValue "7" = Some 7%N /\ digitValue "8" = Some 8%N /\
  digitValue "9" = Some 9%N.
Proof. repeat split. Qed.

Lemma uint_value_acc (d : Decimal.uint) (acc : positive) :
  digitsValue (NilEmpty.string_of_uint d) (Npos acc) = Npos (Pos.of_uint_acc d acc).
Proof.
  destruct digitValue_digits as (H0 & H1 & H2 & H3 & H4 & H5 & H6 & H7 & H8 & H9).
  revert acc. induction d; intros acc;
    cbn [NilEmpty.string_of_uint digitsValue Pos.of_uint_acc];
    rewrite ?H0, ?H1, ?H2, ?H3, ?H4, ?H5, ?H6, ?H7, ?H8, ?H9;
    [reflexivity|..]; rewrite <- IHd; f_equal; lia.
Qed.

Lemma uint_value (d : Decimal.uint) :
  digitsValue (NilEmpty.string_of_uint d) 0 = Pos.of_uint d.
Proof.
  destruct digitValue_digits as (H0 & H1 & H2 & H3 & H4 & H5 & H6 & H7 & H8 & H9).
  induction d; cbn [NilEmpty.string_of_uint digitsValue Pos.of_uint];
    rewrite ?H0, ?H1, ?H2, ?H3, ?H4, ?H5, ?H6, ?H7, ?H8, ?H9;
    [reflexivity|exact IHd|..]; cbn [N.mul N.add]; apply uint_value_acc.
Qed.

Lemma decimalDigits_spec (n : N) :
  allDigits (decimalDigits n) = true /\ digitsValue (decimalDigits n) 0 = n /\
  decimalDigits n <> "".
Proof.
  unfold decimalDigits. split; [apply uint_digits|]. split.
  - rewrite uint_value. apply (DecimalN.Unsigned.of_to n).
  - destruct n as [|p]; [discriminate|]. cbn [N.to_uint].
    intros E. pose proof (DecimalPos.Unsigned.to_uint_nonnil p) as Hnil.
    destruct (Pos.to_uint p); [now apply Hnil|..]; discriminate.
Qed.

Lemma string_length_app (s t : string) :
  String.length (s ++ t) = (String.length s + String.length t)%nat.
Proof. induction s as [|c s IH]; [reflexivity|]. cbn. now rewrite IH. Qed.

Lemma string_app_nil_r (s : string) : s ++ "" = s.
Proof. induction s as [|c s IH]; [reflexivity|]. cbn. now rewrite IH. Qed.

Lemma trimStart_ascii (c : ascii) (rest : string) :
  isWhiteSpace c = false -> (N_of_ascii c < 128)%N ->
  trimStart (String c rest) = String c rest.
Proof.
  intros Hws Hlt. cbn [trimStart]. rewrite Hws.
  assert (Hb : forall n, (128 <= n)%N -> byteIs c n = false)
    by (intros n Hn; unfold byteIs; apply N.eqb_neq; lia).
  destruct rest as [|c2 [|c3 rest]]; try reflexivity.
  - rewrite (Hb 194%N) by lia. reflexivity.
  - rewrite (Hb 194%N), (Hb 225%N), (Hb 226%N), (Hb 227%N), (Hb 239%N) by lia.
    reflexivity.
Qed.

Lemma digit_first_char (c : ascii) (d : N) (rest : string) :
  digitValue c = Some d ->
  trimStart (String c rest) = String c rest /\
  readSign (String c rest) = (false, String c rest) /\
  String.prefix "Infinity" (String c rest) = false.
Proof.
  intros Hd. split; [|revert Hd].
  - apply trimStart_ascii; revert Hd;
      destruct c as [[] [] [] [] [] [] [] []]; intros Hd;
      try (vm_compute in Hd; discriminate); reflexivity.
  - destruct c as [[] [] [] [] [] [] [] []]; intros Hd;
      try (vm_compute in Hd; discriminate); split; reflexivity.
Qed.

Lemma firstChars_otherChars (i : nat) (m : string) :
  firstChars i m ++ otherChars i m = m /\
  String.length (otherChars i m) = (String.length m - i)%nat.
Proof.
  revert m. induction i as [|i IH]; intros m.
  - cbn. split; [reflexivity|]. destruct m; cbn; lia.
  - destruct m as [|c m]; [now split|].
    cbn [firstChars otherChars append String.length].
    destruct (IH m) as [E L]. rewrite E, L. split; [reflexivity|lia].
Qed.

(** The digits [toFixed] prints, padded up to [f + 1] of them. *)
Lemma padded_digits (n : N) (f : nat) :
  let m := decimalDigits n in
  let p := if (String.length m <=? f)%nat
           then zeros (S f - String.length m) ++ m else m in
  allDigits p = true /\ digitsValue p 0 = n /\ (f < String.length p)%nat.
Proof.
  intros m p. destruct (decimalDigits_spec n) as (Hall & Hval & _).
  fold m in Hall, Hval. unfold p.
  destruct (String.length m <=? f)%nat eqn:Hlen.
  - apply Nat.leb_le in Hlen.
    destruct (zeros_digits (S f - String.length m) 0) as (Hz & Hzl & Hzv).
    repeat split.
    + now rewrite allDigits_app, Hz, Hall.
    + now rewrite digitsValue_app, Hzv by exact Hz.
    + rewrite string_length_app, Hzl. lia.
  - apply Nat.leb_gt in Hlen. now repeat split.
Qed.

Lemma readUnsignedDecimal_formatFixed (n : N) (f : nat) :
  readUnsignedDecimal (formatFixed n f) = Some (SD_Decimal n (- Z.of_nat f)) /\
  exists c rest d, formatFixed n f = String c rest /\ digitValue c = Some d.
Proof.
  destruct f as [|f].
  - unfold formatFixed. destruct (decimalDigits_spec n) as (Hall & Hval & Hne).
    destruct (decimalDigits n) as [|c rest] eqn:Hm; [contradiction|].
    assert (Hc : exists d, digitValue c = Some d).
    { cbn [allDigits] in Hall. destruct (digitValue c) as [d|]; [now exists d|discriminate]. }
    destruct Hc as (d & Hc).
    split; [|now exists c, rest, d].
    unfold readUnsignedDecimal.
    rewrite (proj2 (proj2 (digit_first_char c d rest Hc))).
    rewrite <- (string_app_nil_r (String c rest)) at 1.
    rewrite readDigits_run by exact Hall. rewrite Hval. reflexivity.
  - unfold formatFixed.
    destruct (padded_digits n (S f)) as (Hall & Hval & Hlen).
    cbv zeta in Hall, Hval, Hlen.
    set (p := if (String.length (decimalDigits n) <=? S f)%nat
              then zeros (S (S f) - String.length (decimalDigits n)) ++ decimalDigits n
              else decimalDigits n) in *.
    cbv zeta.
    destruct (firstChars_otherChars (String.length p - S f) p) as [Hsplit Hlb].
    set (a := firstChars (String.length p - S f) p) in *.
    set (b := otherChars (String.length p - S f) p) in *.
    assert (Hab : allDigits a = true /\ allDigits b = true).
    { rewrite <- Hsplit, allDigits_app in Hall. now apply andb_true_iff in Hall. }
    destruct Hab as [Ha Hb].
    assert (Hla : String.length a = (String.length p - S f)%nat).
    { apply (f_equal String.length) in Hsplit.
      rewrite string_length_app, Hlb in Hsplit. lia. }
    destruct a as [|c rest] eqn:Ea; [cbn in Hla; lia|].
    assert (Hc : exists d, digitValue c = Some d).
    { cbn [allDigits] in Ha. destruct (digitValue c) as [d|]; [now exists d|discriminate]. }
    destruct Hc as (d & Hc).
    split; [|exists c, (rest ++ "." ++ b), d; now split].
    unfold readUnsignedDecimal.
    change ((String c rest ++ "." ++ b)) with (String c (rest ++ String "." b)).
    rewrite (proj2 (proj2 (digit_first_char c d _ Hc))).
    change (String c (rest ++ String "." b)) with (String c rest ++ String "." b).
    rewrite readDigits_run by exact Ha.
    cbn [readDigits]. change (digitValue ".") with (@None N). cbv iota.
    rewrite <- (string_app_nil_r b) at 1.
    rewrite readDigits_run by exact Hb. cbn [readDigits].
    rewrite <- digitsValue_app by exact Ha. rewrite Hsplit, Hval, Hlb.
    replace (String.length p - (String.length p - S f))%nat with (S f) by lia.
    rewrite Nat.add_succ_r. cbn [Nat.add readExponent]. reflexivity.
Qed.

Section ParseWhatWasPrinted.

Context {num : Type} {Hnum : JSNumber num}.

(** [parseFloat] reads back what [toFixed] prints for a number
    below 10^21: for every integer [n], every number [f] of decimals
    and either sign, the text is read as the number [n / 10^f] with
    that sign. *)
Theorem parseFloat_formatFixed (neg : bool) (n : N) (f : nat) :
  parseFloat ((if neg then "-" else "") ++ formatFixed n f)
  = of_decimal neg n (- Z.of_nat f).
Proof.
  destruct (readUnsignedDecimal_formatFixed n f) as (Hread & c & rest & d & Hfmt & Hc).
  destruct (digit_first_char c d rest Hc) as (Hws & Hsign & _).
  unfold parseFloat. destruct neg.
  - change ("-" ++ formatFixed n f) with (String "-" (formatFixed n f)).
    rewrite trimStart_ascii by reflexivity.
    cbn [readSign]. now rewrite Hread.
  - change ("" ++ formatFixed n f) with (formatFixed n f).
    rewrite Hfmt, Hws, Hsign, <- Hfmt, Hread. reflexivity.
Qed.

End ParseWhatWasPrinted.

(** ** The values of the chart *)

(** X19: in binary64, for an exposure that is a number below 10^21,
    the value of its chart entry is the binary64 nearest to [n / 100],
    where [n] is the integer nearest to a hundred times the exposure
    (the larger one on a tie); the entry keeps the exposure itself,
    the percentage and the tier. *)
Theorem chart_value_binary64 (dbData : PortfolioSummary float) (i : nat)
    (d : RiskBucket float) (s : bool) (m : positive) (e : Z) :
  nth_error (riskData dbData) i = Some d ->
  Prim2SF (exposure d) = S754_finite s m e ->
  atLeast1e21 m e = false ->
  nth_error (chartData (Some dbData)) i
  = Some {| Chart.name := splitFirst ":" (tier d);
            Chart.value := float_of_decimal s (scaledNearest m e 2) (-2);
            Chart.exposure := exposure d;
            Chart.percentage := percentage d;
            Chart.tier := tier d |}.
Proof.
  intros Hnth Hsf Hsmall. unfold chartData. rewrite nth_error_map, Hnth.
  cbn [option_map]. do 2 f_equal.
  cbn [toFixed float_JSNumberFormat]. unfold float_toFixed. rewrite Hsf, Hsmall.
  exact (parseFloat_formatFixed (num := float) s (scaledNearest m e 2) 2).
Qed.

(** ** The dashboard at work on the documented portfolio *)

Lemma failed_write_is_reported_witness :
  error (ui (handleSimulateDivestment (num := float) seedDocument "analyst"
               (offlineWorld seedDocument "20000"))) = PersistenceFailure /\
  divestmentAmount (ui (handleSimulateDivestment (num := float) seedDocument "analyst"
               (offlineWorld seedDocument "20000")))
    = divestmentAmount (ui (offlineWorld (num := float) seedDocument "20000")) /\
  isUpdating (ui (handleSimulateDivestment (num := float) seedDocument "analyst"
               (offlineWorld seedDocument "20000"))) = false /\
  document (store (handleSimulateDivestment (num := float) seedDocument "analyst"
               (offlineWorld seedDocument "20000")))
    = document (store (offlineWorld seedDocument "20000")) /\
  List.length (writes (store (handleSimulateDivestment (num := float) seedDocument
               "analyst" (offlineWorld seedDocument "20000"))))
    = S (List.length (writes (store (offlineWorld (num := float) seedDocument "20000")))).
Proof.
  apply (failed_write_is_reported seedDocument "analyst"
           (offlineWorld seedDocument "20000")); vm_compute; reflexivity.
Defined.

Lemma seed_commit_is_written (text : string) :
  ltb (num := float) zero (parseFloat text) = true ->
  leb (parseFloat text) (tierExposure "D" (seedDocument (num := float))) = true ->
  written seedDocument (afterCommit (num := float) text).
Proof.
  intros Hpos Hle.
  exact (written_by_valid seedDocument "analyst" (deskWorld seedDocument text) Hpos Hle).
Qed.

Lemma loan_count_survives_commit_witness :
  map tier (riskData (afterCommit (num := float) "20000"))
    = map tier (riskData (seedDocument (num := float))) /\
  map color (riskData (afterCommit (num := float) "20000"))
    = map color (riskData (seedDocument (num := float))) /\
  map count (riskData (afterCommit (num := float) "20000"))
    = map count (riskData (seedDocument (num := float))) /\
  option_map totalLoanCount (calculatedMetrics (Some (afterCommit (num := float) "20000")))
    = option_map totalLoanCount (calculatedMetrics (Some (seedDocument (num := float)))).
Proof.
  apply (loan_count_survives_commit seedDocument (afterCommit "20000")).
  apply seed_commit_is_written; vm_compute; reflexivity.
Defined.

Lemma high_risk_after_commit_witness :
  option_map highRiskExposure
    (calculatedMetrics (document (store (afterDivesting (num := float) "20000"))))
  = Some (add (sub (tierExposure "D" seedDocument) (parseFloat "20000"))
              (tierExposure "C" seedDocument)).
Proof.
  apply (high_risk_after_commit seedDocument "analyst" (deskWorld seedDocument "20000"));
    vm_compute; reflexivity.
Defined.

Lemma nothing_left_to_divest_witness :
  store (handleSimulateDivestment (num := float) (afterCommit "52052.43") "analyst"
           (deskWorld (afterCommit "52052.43") "0.01"))
    = store (deskWorld (afterCommit "52052.43") "0.01") /\
  (error (ui (handleSimulateDivestment (num := float) (afterCommit "52052.43") "analyst"
                (deskWorld (afterCommit "52052.43") "0.01"))) = InvalidAmount \/
   error (ui (handleSimulateDivestment (num := float) (afterCommit "52052.43") "analyst"
                (deskWorld (afterCommit "52052.43") "0.01")))
     = AmountExceedsExposure (parseFloat "0.01")
                             (tierExposure "D" (afterCommit "52052.43"))).
Proof.
  apply (nothing_left_to_divest (afterCommit "52052.43") "analyst"
           (deskWorld (afterCommit "52052.43") "0.01")).
  vm_compute. reflexivity.
Defined.

Lemma stale_commit_overwrites_witness :
  option_map (tierExposure "D")
    (document (store (handleSimulateDivestment (num := float) seedDocument "analyst"
                        (onChange "30000" (afterDivesting "20000")))))
  = Some (sub (tierExposure "D" seedDocument) (parseFloat "30000")) /\
  List.length (writes (store (handleSimulateDivestment (num := float) seedDocument
                        "analyst" (onChange "30000" (afterDivesting "20000")))))
  = S (S (List.length (writes (store (deskWorld (num := float) seedDocument "20000"))))).
Proof.
  apply (stale_commit_overwrites seedDocument "analyst"
           (deskWorld seedDocument "20000") "30000"); vm_compute; reflexivity.
Defined.

Lemma commit_disables_the_button_witness :
  exists d',
    document (store (afterDivesting (num := float) "20000")) = Some d' /\
    buttonDisabled
      (DivestmentSimulator d' (metricsOf (afterCommit "20000")) (ui (afterDivesting "20000")))
      = true /\
    buttonSpinner
      (DivestmentSimulator d' (metricsOf (afterCommit "20000")) (ui (afterDivesting "20000")))
      = false /\
    errorShown
      (DivestmentSimulator d' (metricsOf (afterCommit "20000")) (ui (afterDivesting "20000")))
      = None /\
    lastActionShown
      (DivestmentSimulator d' (metricsOf (afterCommit "20000")) (ui (afterDivesting "20000")))
      = true.
Proof.
  apply (commit_disables_the_button (num := float) seedDocument "analyst"
           (deskWorld seedDocument "20000") (metricsOf (afterCommit "20000")));
    vm_compute; reflexivity.
Defined.

Lemma initializeFirebase_half_done_witness :
  initializeFirebase authlessSdk {| Firebase.db := None; Firebase.auth := None |}
    = ({| Firebase.db := Some 2%nat; Firebase.auth := None |}, false) /\
  initializeFirebase unreachableSdk {| Firebase.db := Some 2%nat; Firebase.auth := None |}
    = ({| Firebase.db := Some 2%nat; Firebase.auth := None |}, true).
Proof.
  apply (initializeFirebase_half_done authlessSdk unreachableSdk 1%nat 2%nat);
    reflexivity.
Defined.

Lemma failed_initialisation_screen_witness :
  snd (mountEffect (num := float) unreachableSdk noHandles initialAppState) = false /\
  App (snd (fst (mountEffect (num := float) unreachableSdk noHandles initialAppState)))
    = AuthenticationFailed.
Proof.
  apply (failed_initialisation_screen (num := float) unreachableSdk noHandles).
  reflexivity.
Defined.

Lemma seeding_discards_commits_witness :
  exists now,
    document (store (dataEffect readyHandles signedIn (afterDivesting (num := float) "20000")))
      = Some (initialDocument now) /\
    lastAction (initialDocument (num := float) now) = None /\
    tierExposure "D" (initialDocument (num := float) now) = TIER_D_TARGET_EXPOSURE /\
    ui (dataEffect readyHandles signedIn (afterDivesting (num := float) "20000"))
      = ui (afterDivesting "20000").
Proof.
  apply (seeding_discards_commits readyHandles signedIn seedDocument "analyst"
           (deskWorld seedDocument "20000")); reflexivity.
Defined.

Lemma two_commits_divested :
  divested (seedDocument (num := float)) (afterTwoCommits "20000" "30000").
Proof.
  apply (divested_more _ (afterCommit "20000")).
  - apply (divested_more _ seedDocument); [apply divested_none|].
    apply seed_commit_is_written; vm_compute; reflexivity.
  - pose (w := {| ui := ui (deskWorld (num := float) seedDocument "30000");
                  store := store (deskWorld seedDocument "30000");
                  clock := fun n => if Nat.even n then "2025-01-02T09:31:00.000Z"
                                    else "2025-01-02T09:31:00.001Z";
                  ticks := 0 |}).
    apply (written_by_valid (afterCommit "20000") "analyst" w); vm_compute; reflexivity.
Qed.

Lemma dashboard_frame_along_commits_witness :
  cellFills (afterTwoCommits (num := float) "20000" "30000") = cellFills (seedDocument (num := float)) /\
  map Chart.name (chartData (Some (afterTwoCommits (num := float) "20000" "30000")))
    = map Chart.name (chartData (Some (seedDocument (num := float)))) /\
  option_map totalLoanCount (calculatedMetrics (Some (afterTwoCommits (num := float) "20000" "30000")))
    = option_map totalLoanCount (calculatedMetrics (Some (seedDocument (num := float)))) /\
  forall metrics metrics',
    option_map Card.value (hd_error (metricCards (afterTwoCommits (num := float) "20000" "30000") metrics'))
    = option_map Card.value (hd_error (metricCards (seedDocument (num := float)) metrics)).
Proof.
  exact (dashboard_frame_along_commits seedDocument (afterTwoCommits (num := float) "20000" "30000")
           two_commits_divested).
Defined.

Lemma progress_at_most_100_witness :
  exists metrics,
    calculatedMetrics (Some (afterCommit (num := float) "20000")) = Some metrics /\
    (isNaN (progressPercentage metrics) = true \/
     leb (progressPercentage metrics) hundred = true).
Proof. exact (progress_at_most_100 (afterCommit "20000")). Defined.

Lemma chart_value_binary64_witness :
  nth_error (chartData (Some (seedDocument (num := float)))) 3
  = Some {| Chart.name := splitFirst ":" (tier (seedTierD (num := float)));
            Chart.value :=
              float_of_decimal false (scaledNearest 7154031504874537 (-37) 2) (-2);
            Chart.exposure := exposure seedTierD;
            Chart.percentage := percentage seedTierD;
            Chart.tier := tier seedTierD |}.
Proof.
  apply (chart_value_binary64 seedDocument 3 seedTierD false 7154031504874537 (-37));
    vm_compute; reflexivity.
Defined.

